(** * Chunks web app: content pipeline, provider gateway and chat fallback

    A shallow embedding of the TypeScript services
    [src/services/contentGenerator.ts], [src/services/llm/*.ts] and of the
    chat handler of [src/components/pages/ChatbotPage.tsx], with the facts
    the specification states about them.

    JavaScript strings are sequences of UTF-16 code units; a code unit is
    an [N].  Values decoded by [JSON.parse] are untyped at run time, so the
    records read from a provider response are [value]s, whatever the
    TypeScript annotation of the call site says. *)

From Stdlib Require Import List String Ascii NArith ZArith Bool Lia.
Import ListNotations.

Local Open Scope N_scope.

(* ================================================================== *)
(** * JavaScript strings *)
(* ================================================================== *)

Module JsString.

Definition jstring := list N.

(** A string literal of the source, given by its ASCII text. *)
Definition lit (t : string) : jstring :=
  map N_of_ascii (list_ascii_of_string t).

(** The same, with every apostrophe of [t] standing for a quotation mark
    (code unit 34): used for literals that hold JSON text. *)
Definition qlit (t : string) : jstring :=
  map (fun c => if c =? 39 then 34 else c) (lit t).

Definition nl : N := 10.
Definition quote : N := 34.

Fixpoint eqb (a b : jstring) : bool :=
  match a, b with
  | [], [] => true
  | x :: a', y :: b' => (x =? y) && eqb a' b'
  | _, _ => false
  end.

(** [String.prototype.startsWith] *)
Fixpoint startsWith (s prefix : jstring) {struct prefix} : bool :=
  match prefix, s with
  | [], _ => true
  | p :: prefix', c :: s' => (c =? p) && startsWith s' prefix'
  | _ :: _, [] => false
  end.

(** [String.prototype.includes]: some suffix of [s] starts with [sub]. *)
Fixpoint includes (s sub : jstring) : bool :=
  startsWith s sub ||
  match s with
  | [] => false
  | _ :: s' => includes s' sub
  end.

(** White space and line terminators removed by [String.prototype.trim]. *)
Definition is_js_space (c : N) : bool :=
  ((9 <=? c) && (c <=? 13)) || (c =? 32) || (c =? 160) || (c =? 5760)
  || ((8192 <=? c) && (c <=? 8202))
  || (c =? 8232) || (c =? 8233) || (c =? 8239) || (c =? 8287)
  || (c =? 12288) || (c =? 65279).

(** The same code units, listed. *)
Definition js_spaces : list N :=
  [9; 10; 11; 12; 13; 32; 160; 5760;
   8192; 8193; 8194; 8195; 8196; 8197; 8198; 8199; 8200; 8201; 8202;
   8232; 8233; 8239; 8287; 12288; 65279].

Fixpoint trimStart (s : jstring) : jstring :=
  match s with
  | c :: s' => if is_js_space c then trimStart s' else s
  | [] => []
  end.

Definition trimEnd (s : jstring) : jstring := rev (trimStart (rev s)).

Definition trim (s : jstring) : jstring := trimEnd (trimStart s).

(** [Array.prototype.join] on an array of strings. *)
Fixpoint join (sep : jstring) (l : list jstring) : jstring :=
  match l with
  | [] => []
  | [x] => x
  | x :: l' => x ++ sep ++ join sep l'
  end.

(** Decimal digits of a natural number, as [String(n)] prints an index. *)
Fixpoint digits_fuel (fuel : nat) (n : N) (acc : jstring) : jstring :=
  match fuel with
  | O => acc
  | S fuel' =>
      let acc' := (48 + n mod 10) :: acc in
      if n / 10 =? 0 then acc' else digits_fuel fuel' (n / 10) acc'
  end.

Definition of_nat (n : nat) : jstring :=
  digits_fuel (S n) (N.of_nat n) [].

(** [String.prototype.toLowerCase].  On a string of ASCII code units the
    result maps A-Z to a-z and keeps every other unit; the case mapping of
    the other code units is the Unicode table [lower_table], which the
    callers take as a parameter. *)
Definition is_ascii (c : N) : bool := c <? 128.

Definition lower_ascii (c : N) : N :=
  if (65 <=? c) && (c <=? 90) then c + 32 else c.

Definition toLowerCase (lower_table : jstring -> jstring) (s : jstring)
  : jstring :=
  if forallb is_ascii s then map lower_ascii s else lower_table s.

End JsString.
Export JsString.

(* ================================================================== *)
(** * JavaScript values *)
(* ================================================================== *)

Module JsValue.

Set Warnings "-register-all".

(** A number is kept as the decimal [m * 10^e] of its literal.  The sign
    of zero is not kept, and two decimals of one double are two terms:
    no definition below compares numbers other than with zero. *)
Inductive value : Type :=
| VUndefined
| VNull
| VBool (b : bool)
| VNum (m e : Z)
| VStr (s : jstring)
| VArr (items : list value)
| VObj (fields : list (jstring * value)).

(** The double nearest to [m * 10^e] is zero exactly when
    [|m| * 10^e <= 2^-1075] (half of the least subnormal, ties to even). *)
Definition number_is_zero (m e : Z) : bool :=
  (if 0 <=? e then m =? 0
   else Z.abs m * 2 ^ 1075 <=? 10 ^ (- e))%Z.

(** ToBoolean, as [||], [!] and [if] apply it. *)
Definition truthy (v : value) : bool :=
  match v with
  | VUndefined | VNull => false
  | VBool b => b
  | VNum m e => negb (number_is_zero m e)
  | VStr s => negb (JsString.eqb s [])
  | VArr _ | VObj _ => true
  end.

(** [a || b] *)
Definition or_else (a b : value) : value := if truthy a then a else b.

Fixpoint assoc (k : jstring) (fields : list (jstring * value)) : option value :=
  match fields with
  | [] => None
  | (k', v) :: rest => if JsString.eqb k k' then Some v else assoc k rest
  end.

(** [CreateDataProperty]: a repeated key overwrites the earlier member. *)
Fixpoint set_field (k : jstring) (v : value) (fields : list (jstring * value))
  : list (jstring * value) :=
  match fields with
  | [] => [(k, v)]
  | (k', v') :: rest =>
      if JsString.eqb k k' then (k', v) :: rest
      else (k', v') :: set_field k v rest
  end.

Inductive exn : Type :=
| SyntaxError                        (* thrown by JSON.parse *)
| TypeError                          (* property of null or undefined, call of a non-function *)
| Error (prefix : jstring) (interpolated : value)
                                     (* new Error(`prefix${interpolated}`) *)
| Rejected (reason : jstring).       (* rejection coming from outside the code *)

Inductive result (A : Type) : Type :=
| Ok (a : A)
| Err (e : exn).
Arguments Ok {A} a.
Arguments Err {A} e.

(** [v.name], for a [name] that no prototype defines ([id], [title],
    [choices], ...): own members of an object, [undefined] on the other
    values, a [TypeError] on [null] and [undefined]. *)
Definition get (v : value) (name : jstring) : result value :=
  match v with
  | VUndefined | VNull => Err TypeError
  | VObj fields =>
      match assoc name fields with Some x => Ok x | None => Ok VUndefined end
  | _ => Ok VUndefined
  end.

(** [v?.name] *)
Definition get_opt (v : value) (name : jstring) : value :=
  match get v name with Ok x => x | Err _ => VUndefined end.

(** [v[0]] *)
Definition first (v : value) : result value :=
  match v with
  | VUndefined | VNull => Err TypeError
  | VArr items => Ok (nth 0 items VUndefined)
  | VStr (c :: _) => Ok (VStr [c])
  | VObj fields =>
      match assoc (lit "0") fields with Some x => Ok x | None => Ok VUndefined end
  | _ => Ok VUndefined
  end.

(** [v.length === 0], for a [v] that is not [null] or [undefined]. *)
Definition length_is_zero (v : value) : bool :=
  match v with
  | VArr items => match items with [] => true | _ => false end
  | VStr s => JsString.eqb s []
  | VObj fields =>
      match assoc (lit "length") fields with
      | Some (VNum m e) => number_is_zero m e
      | _ => false
      end
  | _ => false
  end.

(** ToString, as a template literal applies it to an interpolated value.
    [number_to_string m e] is what Number::toString prints for the double
    nearest to [m * 10^e]; it is floating-point formatting and stays a
    parameter. *)
Fixpoint to_string (number_to_string : Z -> Z -> jstring) (v : value) : jstring :=
  match v with
  | VUndefined => lit "undefined"
  | VNull => lit "null"
  | VBool true => lit "true"
  | VBool false => lit "false"
  | VNum m e => number_to_string m e
  | VStr s => s
  | VArr items =>
      JsString.join (lit ",")
        (map (fun x => match x with
                       | VUndefined | VNull => []
                       | _ => to_string number_to_string x
                       end) items)
  | VObj _ => lit "[object Object]"
  end.

(** Where ToString is defined.  ToString of an object that has a member
    named [toString] of its own is a [TypeError] (the member of a decoded
    record is never a function), and so is ToString of an array that
    holds such an object.  [to_string] is what ToString gives on the
    other values, the [printable] ones. *)
Fixpoint printable (v : value) : bool :=
  match v with
  | VArr items => forallb printable items
  | VObj fields =>
      negb (existsb (fun member => JsString.eqb (fst member) (lit "toString"))
              fields)
  | _ => true
  end.

(** [v.join(sep)]: defined on arrays only, a [TypeError] elsewhere (the
    member is missing or is not a function). *)
Definition array_join (number_to_string : Z -> Z -> jstring)
  (v : value) (sep : jstring) : result jstring :=
  match v with
  | VArr items =>
      Ok (JsString.join sep
            (map (fun x => match x with
                           | VUndefined | VNull => []
                           | _ => to_string number_to_string x
                           end) items))
  | _ => Err TypeError
  end.

End JsValue.
Export JsValue.

(* ================================================================== *)
(** * JSON.parse *)
(* ================================================================== *)

(** The decoder of the run time, as a machine that reads the text one
    code unit at a time: a scanner ([mode]) that recognises the tokens of
    the JSON grammar and hands each one to a pushdown recogniser
    ([pstate]) that builds the value.  [JSON.parse] throws a
    [SyntaxError] exactly when the machine gets stuck or the text ends
    before one complete value. *)
Module Json.

Inductive token : Type :=
| TLBrace | TRBrace | TLBrack | TRBrack | TColon | TComma
| TStr (s : jstring)
| TScalar (v : value).            (* number, true, false, null *)

(** An enclosing container that waits for the value being read. *)
Inductive ctx : Type :=
| CArr (done_rev : list value)
| CObj (fields : list (jstring * value)) (key : jstring).

Inductive pstate : Type :=
| SValue (st : list ctx)                                  (* a value *)
| SArrStart (st : list ctx)                               (* a value or ] *)
| SArrNext (done_rev : list value) (st : list ctx)        (* , or ] *)
| SObjStart (st : list ctx)                               (* a key or } *)
| SObjKey (fields : list (jstring * value)) (st : list ctx)        (* a key *)
| SObjColon (fields : list (jstring * value)) (key : jstring) (st : list ctx)
| SObjNext (fields : list (jstring * value)) (st : list ctx)       (* , or } *)
| SDone (v : value).

Definition deliver (v : value) (st : list ctx) : pstate :=
  match st with
  | [] => SDone v
  | CArr done_rev :: st' => SArrNext (v :: done_rev) st'
  | CObj fields key :: st' => SObjNext (set_field key v fields) st'
  end.

Definition start_value (t : token) (st : list ctx) : option pstate :=
  match t with
  | TLBrace => Some (SObjStart st)
  | TLBrack => Some (SArrStart st)
  | TStr s => Some (deliver (VStr s) st)
  | TScalar v => Some (deliver v st)
  | _ => None
  end.

Definition pstep (p : pstate) (t : token) : option pstate :=
  match p, t with
  | SValue st, _ => start_value t st
  | SArrStart st, TRBrack => Some (deliver (VArr []) st)
  | SArrStart st, _ => start_value t (CArr [] :: st)
  | SArrNext done_rev st, TComma => Some (SValue (CArr done_rev :: st))
  | SArrNext done_rev st, TRBrack => Some (deliver (VArr (rev done_rev)) st)
  | SObjStart st, TRBrace => Some (deliver (VObj []) st)
  | SObjStart st, TStr k => Some (SObjColon [] k st)
  | SObjKey fields st, TStr k => Some (SObjColon fields k st)
  | SObjColon fields k st, TColon => Some (SValue (CObj fields k :: st))
  | SObjNext fields st, TComma => Some (SObjKey fields st)
  | SObjNext fields st, TRBrace => Some (deliver (VObj fields) st)
  | _, _ => None
  end.

(** Where the scanner is inside a number literal. *)
Inductive numstate : Type :=
| NMinus | NZero | NInt | NDot | NFrac | NExp | NExpSign | NExpDigits.

Record numacc : Type := mkNum {
  neg : bool; mant : Z; fracn : Z; eneg : bool; expv : Z }.

Definition num_value (a : numacc) : value :=
  VNum (if neg a then - mant a else mant a)
       ((if eneg a then - expv a else expv a) - fracn a)%Z.

Inductive mode : Type :=
| Idle
| InStr (acc_rev : jstring)
| InEsc (acc_rev : jstring)
| InHex (acc_rev : jstring) (seen : nat) (code : N)
| InLit (rest : jstring) (v : value)
| InNum (st : numstate) (a : numacc).

Definition is_json_space (c : N) : bool :=
  (c =? 32) || (c =? 9) || (c =? 10) || (c =? 13).

Definition is_digit (c : N) : bool := (48 <=? c) && (c <=? 57).
Definition digit (c : N) : Z := Z.of_N (c - 48).

Definition hex_value (c : N) : option N :=
  if (48 <=? c) && (c <=? 57) then Some (c - 48)
  else if (65 <=? c) && (c <=? 70) then Some (c - 55)
  else if (97 <=? c) && (c <=? 102) then Some (c - 87)
  else None.

Definition emit (p : pstate) (t : token) : option (mode * pstate) :=
  match pstep p t with
  | Some p' => Some (Idle, p')
  | None => None
  end.

Definition step_idle (p : pstate) (c : N) : option (mode * pstate) :=
  if is_json_space c then Some (Idle, p)
  else if c =? 123 then emit p TLBrace
  else if c =? 125 then emit p TRBrace
  else if c =? 91 then emit p TLBrack
  else if c =? 93 then emit p TRBrack
  else if c =? 58 then emit p TColon
  else if c =? 44 then emit p TComma
  else if c =? 34 then Some (InStr [], p)
  else if c =? 45 then Some (InNum NMinus (mkNum true 0 0 false 0), p)
  else if c =? 48 then Some (InNum NZero (mkNum false 0 0 false 0), p)
  else if is_digit c then Some (InNum NInt (mkNum false (digit c) 0 false 0), p)
  else if c =? 116 then Some (InLit (lit "rue") (VBool true), p)
  else if c =? 102 then Some (InLit (lit "alse") (VBool false), p)
  else if c =? 110 then Some (InLit (lit "ull") VNull, p)
  else None.

Definition push_digit (a : numacc) (c : N) : numacc :=
  mkNum (neg a) (mant a * 10 + digit c) (fracn a) (eneg a) (expv a).

Definition push_frac (a : numacc) (c : N) : numacc :=
  mkNum (neg a) (mant a * 10 + digit c) (fracn a + 1) (eneg a) (expv a).

Definition push_exp (a : numacc) (c : N) : numacc :=
  mkNum (neg a) (mant a) (fracn a) (eneg a) (expv a * 10 + digit c).

Definition is_e (c : N) : bool := (c =? 101) || (c =? 69).

(** The literal is over: its token goes out and [c] is read afresh. *)
Definition end_number (a : numacc) (p : pstate) (c : N) : option (mode * pstate) :=
  match pstep p (TScalar (num_value a)) with
  | Some p' => step_idle p' c
  | None => None
  end.

Definition step_number (st : numstate) (a : numacc) (p : pstate) (c : N)
  : option (mode * pstate) :=
  match st with
  | NMinus =>
      if c =? 48 then Some (InNum NZero a, p)
      else if is_digit c then Some (InNum NInt (push_digit a c), p)
      else None
  | NZero =>
      if c =? 46 then Some (InNum NDot a, p)
      else if is_e c then Some (InNum NExp a, p)
      else end_number a p c
  | NInt =>
      if is_digit c then Some (InNum NInt (push_digit a c), p)
      else if c =? 46 then Some (InNum NDot a, p)
      else if is_e c then Some (InNum NExp a, p)
      else end_number a p c
  | NDot =>
      if is_digit c then Some (InNum NFrac (push_frac a c), p) else None
  | NFrac =>
      if is_digit c then Some (InNum NFrac (push_frac a c), p)
      else if is_e c then Some (InNum NExp a, p)
      else end_number a p c
  | NExp =>
      if c =? 43 then Some (InNum NExpSign a, p)
      else if c =? 45 then
        Some (InNum NExpSign (mkNum (neg a) (mant a) (fracn a) true (expv a)), p)
      else if is_digit c then Some (InNum NExpDigits (push_exp a c), p)
      else None
  | NExpSign =>
      if is_digit c then Some (InNum NExpDigits (push_exp a c), p) else None
  | NExpDigits =>
      if is_digit c then Some (InNum NExpDigits (push_exp a c), p)
      else end_number a p c
  end.

Definition escape (c : N) : option N :=
  if c =? 34 then Some 34
  else if c =? 92 then Some 92
  else if c =? 47 then Some 47
  else if c =? 98 then Some 8
  else if c =? 102 then Some 12
  else if c =? 110 then Some 10
  else if c =? 114 then Some 13
  else if c =? 116 then Some 9
  else None.

Definition step (s : mode * pstate) (c : N) : option (mode * pstate) :=
  let (m, p) := s in
  match m with
  | Idle => step_idle p c
  | InStr acc =>
      if c =? 34 then emit p (TStr (rev acc))
      else if c =? 92 then Some (InEsc acc, p)
      else if c <? 32 then None
      else Some (InStr (c :: acc), p)
  | InEsc acc =>
      if c =? 117 then Some (InHex acc 0 0, p)
      else match escape c with
           | Some u => Some (InStr (u :: acc), p)
           | None => None
           end
  | InHex acc seen code =>
      match hex_value c with
      | Some d =>
          let code' := code * 16 + d in
          if Nat.eqb seen 3 then Some (InStr (code' :: acc), p)
          else Some (InHex acc (S seen) code', p)
      | None => None
      end
  | InLit rest v =>
      match rest with
      | r :: rest' =>
          if c =? r then
            match rest' with
            | [] => emit p (TScalar v)
            | _ => Some (InLit rest' v, p)
            end
          else None
      | [] => None
      end
  | InNum st a => step_number st a p c
  end.

Fixpoint run (s : mode * pstate) (text : jstring) : option (mode * pstate) :=
  match text with
  | [] => Some s
  | c :: text' =>
      match step s c with
      | Some s' => run s' text'
      | None => None
      end
  end.

Definition accepting (st : numstate) : bool :=
  match st with
  | NZero | NInt | NFrac | NExpDigits => true
  | _ => false
  end.

(** The end of the text: a number literal may end there, no other token. *)
Definition finish (s : mode * pstate) : option value :=
  let (m, p) := s in
  match m with
  | Idle => match p with SDone v => Some v | _ => None end
  | InNum st a =>
      if accepting st then
        match pstep p (TScalar (num_value a)) with
        | Some (SDone v) => Some v
        | _ => None
        end
      else None
  | _ => None
  end.

Definition initial : mode * pstate := (Idle, SValue []).

(** What holds of every scanner mode the machine reaches: the rest of a
    literal being matched ([rue], [alse], [ull]) has no white space. *)
Definition mode_ok (m : mode) : Prop :=
  match m with
  | InLit rest _ => forallb (fun r => negb (is_js_space r)) rest = true
  | _ => True
  end.

Definition decode (text : jstring) : option value :=
  match run initial text with
  | Some s => finish s
  | None => None
  end.

(** [JSON.parse(text)] *)
Definition parse (text : jstring) : result value :=
  match decode text with
  | Some v => Ok v
  | None => Err SyntaxError
  end.

End Json.

(* ================================================================== *)
(** * contentGenerator.ts: parseJSON *)
(* ================================================================== *)

Module Parse.

Definition fence : jstring := lit "```".

(** [s.replace(/^```(?:json)?\n?/, '')]: anchored at the start, the
    fence, then [json] when it is there, then one line feed when it is
    there; a string that does not start with the fence is unchanged. *)
Definition strip_opening (s : jstring) : jstring :=
  if startsWith s fence then
    let s1 := skipn 3 s in
    let s2 := if startsWith s1 (lit "json") then skipn 4 s1 else s1 in
    match s2 with
    | c :: s3 => if c =? nl then s3 else s2
    | [] => s2
    end
  else s.

(** [s.replace(/\n?```$/, '')]: the leftmost position from which an
    optional line feed and the fence reach the end of the string. *)
Fixpoint strip_closing (s : jstring) : jstring :=
  if JsString.eqb s (nl :: fence) || JsString.eqb s fence then []
  else match s with
       | c :: s' => c :: strip_closing s'
       | [] => []
       end.

(** The text handed to [JSON.parse]. *)
Definition cleaned (response : jstring) : jstring :=
  let c := trim response in
  if startsWith c fence then strip_closing (strip_opening c) else c.

Definition parseJSON (response : jstring) : result value :=
  Json.parse (cleaned response).

(** A payload wrapped in a fenced code block: the fence and the language
    tag on a line, the payload, the fence on a line of its own. *)
Definition fenced (tag payload : jstring) : jstring :=
  fence ++ tag ++ nl :: payload ++ nl :: fence.

End Parse.
Export Parse.

(* ================================================================== *)
(** * Asynchronous computations *)
(* ================================================================== *)

(** An [async] function over a world [S] (the network, the image cache):
    it may change the world and either resolves with a value or rejects.
    [await] is [bind]; [try]/[catch] is [catch]. *)
Module AsyncM.

Definition Async (S A : Type) : Type := S -> result A * S.

Definition ret {S A} (a : A) : Async S A := fun w => (Ok a, w).
Definition throw {S A} (e : exn) : Async S A := fun w => (Err e, w).
Definition lift {S A} (r : result A) : Async S A := fun w => (r, w).

Definition bind {S A B} (m : Async S A) (k : A -> Async S B) : Async S B :=
  fun w =>
    match m w with
    | (Ok a, w') => k a w'
    | (Err e, w') => (Err e, w')
    end.

Definition catch {S A} (m : Async S A) (handler : exn -> Async S A) : Async S A :=
  fun w =>
    match m w with
    | (Ok a, w') => (Ok a, w')
    | (Err e, w') => handler e w'
    end.

(** The same for code that does not touch the world. *)
Definition rbind {A B} (r : result A) (k : A -> result B) : result B :=
  match r with
  | Ok a => k a
  | Err e => Err e
  end.

Fixpoint map_result {A B} (f : A -> result B) (xs : list A) : result (list B) :=
  match xs with
  | [] => Ok []
  | x :: xs' =>
      rbind (f x) (fun y => rbind (map_result f xs') (fun ys => Ok (y :: ys)))
  end.

(** [parsed.map(f)]: [f] on every element of an array, in order; a
    [TypeError] when [parsed] is not an array. *)
Definition array_map {B} (f : value -> result B) (parsed : value)
  : result (list B) :=
  match parsed with
  | VArr items => map_result f items
  | _ => Err TypeError
  end.

(** [Promise.all(items.map(f))] for an async [f]: every callback is
    started, in the order of the items; the result resolves with all the
    values in that order, or rejects when a callback rejects.  Which
    rejection [Promise.all] passes on is a matter of timing (the first to
    settle); the one of the least index is reported here, and the
    statements about these flows say that the batch rejects, not with
    what. *)
Fixpoint all_map {S A B} (f : A -> Async S B) (items : list A)
  : Async S (list B) :=
  fun w =>
    match items with
    | [] => (Ok [], w)
    | x :: items' =>
        let (r, w1) := f x w in
        let (rs, w2) := all_map f items' w1 in
        (match r, rs with
         | Ok y, Ok ys => Ok (y :: ys)
         | Err e, _ => Err e
         | Ok _, Err e => Err e
         end, w2)
    end.

End AsyncM.
Export AsyncM.

Notation "x <- m ;; k" := (bind m (fun x => k))
  (at level 61, m at next level, right associativity).
Notation "x <~ r ;; k" := (rbind r (fun x => k))
  (at level 61, r at next level, right associativity).

(* ================================================================== *)
(** * services/llm: the three transports and LLMService *)
(* ================================================================== *)

Module Llm.

(** [LLMConfig], as SettingsPage writes it. *)
Record LLMConfig : Type := {
  provider : jstring;
  apiKey : jstring;
  model : option jstring }.

(** What [fetch(url, init)] is called with.  [body] is the object given to
    [JSON.stringify]. *)
Record Request : Type := {
  url : jstring;
  method : jstring;
  headers : list (jstring * jstring);
  body : value }.

(** What the code reads of a fetch response: [response.ok],
    [response.statusText] and the outcome of [await response.json()]. *)
Record Response : Type := {
  ok : bool;
  statusText : jstring;
  json : result value }.

(** The network: the requests issued so far, oldest first. *)
Definition Net := list Request.

Definition M (A : Type) : Type := Async Net A.

(** [cond || other] on an optional string: absent and empty are falsy. *)
Definition given (o : option jstring) : bool :=
  match o with
  | Some s => negb (JsString.eqb s [])
  | None => false
  end.

Definition or_default (o : option jstring) (d : jstring) : jstring :=
  match o with
  | Some s => if JsString.eqb s [] then d else s
  | None => d
  end.

Inductive Role : Type := system | user | assistant.

Definition role_name (r : Role) : jstring :=
  match r with
  | system => lit "system"
  | user => lit "user"
  | assistant => lit "assistant"
  end.

(** [{ role, content }] of [OpenAIMessage] and [AnthropicMessage]. *)
Record ChatMessage : Type := { role : Role; content : jstring }.

Definition message_value (m : ChatMessage) : value :=
  VObj [(lit "role", VStr (role_name (role m)));
        (lit "content", VStr (content m))].

Definition json_headers : jstring * jstring :=
  (lit "Content-Type", lit "application/json").

(** ** openai.ts *)

Definition OPENAI_DEFAULT_MODEL : jstring := lit "gpt-4o-mini".

Definition openai_request (messages : list ChatMessage) (config : LLMConfig)
  : Request :=
  {| url := lit "https://api.openai.com/v1/chat/completions";
     method := lit "POST";
     headers := [json_headers;
                 (lit "Authorization", lit "Bearer " ++ apiKey config)];
     body := VObj [(lit "model",
                    VStr (or_default (model config) OPENAI_DEFAULT_MODEL));
                   (lit "messages", VArr (map message_value messages));
                   (lit "temperature", VNum 7 (-1));
                   (lit "max_tokens", VNum 2000 0)] |}.

(** ** gemini.ts *)

Definition GEMINI_DEFAULT_MODEL : jstring := lit "gemini-1.5-flash".

Definition gemini_request (prompt : jstring) (config : LLMConfig) : Request :=
  {| url := lit "https://generativelanguage.googleapis.com/v1beta/models/"
            ++ or_default (model config) GEMINI_DEFAULT_MODEL
            ++ lit ":generateContent?key=" ++ apiKey config;
     method := lit "POST";
     headers := [json_headers];
     body := VObj [(lit "contents",
                    VArr [VObj [(lit "parts",
                                 VArr [VObj [(lit "text", VStr prompt)]])]]);
                   (lit "generationConfig",
                    VObj [(lit "temperature", VNum 7 (-1));
                          (lit "maxOutputTokens", VNum 2000 0)])] |}.

(** ** anthropic.ts *)

Definition ANTHROPIC_DEFAULT_MODEL : jstring := lit "claude-3-5-sonnet-20241022".

Definition anthropic_request (systemPrompt : jstring)
  (messages : list ChatMessage) (config : LLMConfig) : Request :=
  {| url := lit "https://api.anthropic.com/v1/messages";
     method := lit "POST";
     headers := [json_headers;
                 (lit "x-api-key", apiKey config);
                 (lit "anthropic-version", lit "2023-06-01");
                 (lit "anthropic-dangerous-direct-browser-access", lit "true")];
     body := VObj [(lit "model",
                    VStr (or_default (model config) ANTHROPIC_DEFAULT_MODEL));
                   (lit "max_tokens", VNum 2000 0);
                   (lit "system", VStr systemPrompt);
                   (lit "messages", VArr (map message_value messages))] |}.

Section Transports.

(** The remote side: the outcome of one [fetch], given the requests that
    came before it.  [Err] is a rejected fetch. *)
Variable fetch : Net -> Request -> result Response.

Definition do_fetch (req : Request) : M Response :=
  fun n => (fetch n req, n ++ [req]).

(** [throw new Error(`<name> API error: ${error.error?.message || response.statusText}`)]:
    the template literal applies ToString to the interpolated value
    before the [Error] is built, so a value that is not [printable]
    gives a [TypeError] in its place. *)
Definition api_error (name : jstring) (response : Response) : M value :=
  error <- lift (json response) ;;
  detail <- lift (get error (lit "error")) ;;
  let shown := or_else (get_opt detail (lit "message"))
                       (VStr (statusText response)) in
  if printable shown
  then throw (Error (name ++ lit " API error: ") shown)
  else throw TypeError.

Definition sendToOpenAI (messages : list ChatMessage) (config : LLMConfig)
  : M value :=
  response <- do_fetch (openai_request messages config) ;;
  if negb (ok response) then api_error (lit "OpenAI") response
  else
    data <- lift (json response) ;;
    choices <- lift (get data (lit "choices")) ;;
    choice <- lift (first choices) ;;
    message <- lift (get choice (lit "message")) ;;
    lift (get message (lit "content")).

Definition sendToGemini (prompt : jstring) (config : LLMConfig) : M value :=
  response <- do_fetch (gemini_request prompt config) ;;
  if negb (ok response) then api_error (lit "Gemini") response
  else
    data <- lift (json response) ;;
    candidates <- lift (get data (lit "candidates")) ;;
    if negb (truthy candidates) || length_is_zero candidates then
      throw (Error (lit "Gemini API returned no response candidates") (VStr []))
    else
      candidate <- lift (first candidates) ;;
      content <- lift (get candidate (lit "content")) ;;
      parts <- lift (get content (lit "parts")) ;;
      part <- lift (first parts) ;;
      lift (get part (lit "text")).

Definition sendToAnthropic (systemPrompt : jstring)
  (messages : list ChatMessage) (config : LLMConfig) : M value :=
  response <- do_fetch (anthropic_request systemPrompt messages config) ;;
  if negb (ok response) then api_error (lit "Anthropic") response
  else
    data <- lift (json response) ;;
    blocks <- lift (get data (lit "content")) ;;
    block <- lift (first blocks) ;;
    lift (get block (lit "text")).

(** ** index.ts: LLMService.sendMessage *)

Definition sendMessage (config : LLMConfig) (prompt : jstring)
  (systemPrompt : option jstring) : M value :=
  if JsString.eqb (provider config) (lit "openai") then
    sendToOpenAI
      (if given systemPrompt
       then [ {| role := system; content := or_default systemPrompt [] |};
              {| role := user; content := prompt |} ]
       else [ {| role := user; content := prompt |} ])
      config
  else if JsString.eqb (provider config) (lit "anthropic") then
    sendToAnthropic
      (or_default systemPrompt (lit "You are a helpful assistant."))
      [ {| role := user; content := prompt |} ]
      config
  else if JsString.eqb (provider config) (lit "gemini") then
    sendToGemini
      (if given systemPrompt
       then or_default systemPrompt [] ++ [nl; nl] ++ prompt
       else prompt)
      config
  else
    throw (Error (lit "Unknown provider: ") (VStr (provider config))).

End Transports.

End Llm.

(* ================================================================== *)
(** * The entities *)
(* ================================================================== *)

(** The objects the flows build and the pages keep.  Their members hold
    what the provider's decoded record held, so they are [value]s; a
    member that is not there reads [VUndefined].  [createdAt] and
    [timestamp] hold [new Date()], the wall clock when the object is
    built: no definition below reads them and the records leave them out. *)
Module Story.
Record t : Type := {
  id : value;
  title : value;
  description : value;
  image : value;
  imageKeywords : value;
  relatedUrls : value }.
End Story.

Module Chunk.
Record t : Type := {
  id : value;
  title : value;
  content : value;
  image : value;
  imageKeywords : value }.
End Chunk.

Module Message.
Inductive Sender : Type := user | bot.
Record t : Type := {
  id : nat;
  text : value;
  sender : Sender }.
End Message.

(* ================================================================== *)
(** * services/llm/index.ts: the prompts *)
(* ================================================================== *)

Module Prompts.
Import Llm.

Section Prompts.

Variable number_to_string : Z -> Z -> jstring.
Variable fetch : Net -> Request -> result Response.

Definition str : value -> jstring := to_string number_to_string.

(** The text of [generateChunks]: the template with the title, the
    description and the joined URLs interpolated. *)
Definition chunks_prompt (storyTitle storyDescription : value) (urls : jstring)
  : jstring :=
  qlit "You are an educational content creator. Create 5 engaging 'chunks' (bite-sized knowledge cards) for the following topic:

Topic: "
  ++ str storyTitle ++
  qlit "
Description: "
  ++ str storyDescription ++
  qlit "
Related URLs for context: "
  ++ urls ++
  qlit "

Each chunk should be educational and provide unique insights. Create exactly 5 chunks with:
- id: Number from 1 to 5
- title: Short, catchy title (max 30 characters)
- content: Educational content that teaches something valuable (100-150 characters)
- image: Keep the same image keyword as the story

The chunks should follow this progression:
1. Core Concept - Introduce the fundamental idea
2. Historical Context - Background and evolution
3. Expert Insight - What experts say about this
4. Real-World Application - Practical examples
5. Deep Dive - Advanced or fascinating aspect

IMPORTANT: Respond ONLY with valid JSON array, no markdown formatting, no code blocks. Example:
[{'id':1,'title':'Key Insight','content':'The fundamental concept...','image':'technology'}]".

Definition generateChunks (config : LLMConfig)
  (storyTitle storyDescription relatedUrls : value) : M value :=
  urls <- lift (array_join number_to_string relatedUrls (lit ", ")) ;;
  sendMessage fetch config
    (chunks_prompt storyTitle storyDescription urls) None.

(** [ChatContext] *)
Record ChatContext : Type := {
  storyTitle : value;
  storyDescription : value;
  chunks : list (value * value);          (* { title, content } *)
  previousMessages : list Message.t }.

(** [`${i + 1}. ${c.title}: ${c.content}`], for the chunk at index [i]. *)
Definition chunk_line (i : nat) (c : value * value) : jstring :=
  of_nat (i + 1) ++ lit ". " ++ str (fst c) ++ lit ": " ++ str (snd c).

(** [xs.map((x, i) => f(i, x))] *)
Fixpoint mapi_from {A B} (f : nat -> A -> B) (i : nat) (xs : list A) : list B :=
  match xs with
  | [] => []
  | x :: xs' => f i x :: mapi_from f (S i) xs'
  end.

Definition mapi {A B} (f : nat -> A -> B) (xs : list A) : list B :=
  mapi_from f 0 xs.

Definition system_prompt (context : ChatContext) : jstring :=
  qlit "You are a helpful learning assistant. The user has just finished reading about '"
  ++ str (storyTitle context) ++
  qlit "'.

Story description: "
  ++ str (storyDescription context) ++
  qlit "

The user learned these key points:
"
  ++ JsString.join [nl] (mapi chunk_line (chunks context)) ++
  qlit "

Your role is to:
1. Help the user reflect on what they learned
2. Answer questions about the topic
3. Provide additional insights when relevant
4. Encourage deeper thinking

Keep responses concise and engaging (max 150 words). Be conversational and supportive.".

(** [`${m.sender === 'user' ? 'User' : 'Assistant'}: ${m.text}`] *)
Definition history_line (m : Message.t) : jstring :=
  (match Message.sender m with
   | Message.user => lit "User"
   | Message.bot => lit "Assistant"
   end) ++ lit ": " ++ str (Message.text m).

Definition chat (config : LLMConfig) (userMessage : jstring)
  (context : ChatContext) : M value :=
  let systemPrompt := system_prompt context in
  let conversationHistory :=
    JsString.join [nl] (map history_line (previousMessages context)) in
  let fullPrompt :=
    if negb (JsString.eqb conversationHistory []) then
      systemPrompt ++ [nl; nl] ++ lit "Previous conversation:" ++ [nl]
      ++ conversationHistory ++ [nl; nl] ++ lit "User: " ++ userMessage
      ++ [nl; nl] ++ lit "Assistant:"
    else
      systemPrompt ++ [nl; nl] ++ lit "User: " ++ userMessage
      ++ [nl; nl] ++ lit "Assistant:" in
  sendMessage fetch config fullPrompt (Some systemPrompt).

End Prompts.

End Prompts.

(* ================================================================== *)
(** * contentGenerator.ts, the variant that takes the provider config *)
(* ================================================================== *)

(** [parseJSON(response)] at a call site: [response] is what the
    transport returned, and [response.trim()] is a [TypeError] unless
    that is a string. *)
Definition call_parseJSON (response : value) : result value :=
  match response with
  | VStr s => parseJSON s
  | _ => Err TypeError
  end.

Module WithConfig.
Import Llm Prompts.

Section Flows.

Variable number_to_string : Z -> Z -> jstring.
Variable fetch : Net -> Request -> result Response.

(** The callback of [parsed.map]: the story's image for every chunk. *)
Definition chunk_of_item (story : Story.t) (item : value) : result Chunk.t :=
  id <~ get item (lit "id") ;;
  title <~ get item (lit "title") ;;
  content <~ get item (lit "content") ;;
  Ok {| Chunk.id := id;
        Chunk.title := title;
        Chunk.content := content;
        Chunk.image := Story.image story;
        Chunk.imageKeywords := VUndefined |}.

(** The [catch] block logs and throws the error again. *)
Definition generateChunksFromStory (story : Story.t) (config : LLMConfig)
  : M (list Chunk.t) :=
  catch
    (response <- generateChunks number_to_string fetch config
                   (Story.title story) (Story.description story)
                   (or_else (Story.relatedUrls story) (VArr [])) ;;
     parsed <- lift (call_parseJSON response) ;;
     lift (array_map (chunk_of_item story) parsed))
    (fun error => throw error).

Definition generateChatResponse (userMessage : jstring)
  (storyTitle storyDescription : value) (chunks : list Chunk.t)
  (previousMessages : list (value * Message.Sender)) (config : LLMConfig)
  : M value :=
  catch
    (chat number_to_string fetch config userMessage
       {| storyTitle := storyTitle;
          storyDescription := storyDescription;
          chunks := map (fun c => (Chunk.title c, Chunk.content c)) chunks;
          previousMessages :=
            mapi (fun i m => {| Message.id := i;
                                Message.text := fst m;
                                Message.sender := snd m |})
                 previousMessages |})
    (fun error => throw error).

End Flows.

End WithConfig.

(* ================================================================== *)
(** * contentGenerator.ts, the variant that resolves images by keyword *)
(* ================================================================== *)

Module WithImages.

Section Flows.

(** The world of this variant: whatever the provider client and the image
    service keep (connection, cache). *)
Variable W : Type.

(** [LLMService] of this variant is not among the sources of the
    repository: its two calls are parameters, the text (or rejection) they
    produce. *)
Variable llm_generateStories : list jstring -> Async W value.
Variable llm_generateChunks : value -> value -> value -> value -> Async W value.

(** [getCachedPhotoUrl] of [./unsplash], not among the sources of the
    repository: any lookup, which may reject and may change the world. *)
Variable getCachedPhotoUrl : value -> Async W jstring.

(** Modelled from the spec: [getFallbackImage] of [./unsplash] is not
    among the sources of the repository.  The spec gives it as a
    deterministic URL derived purely from the keywords, with no network
    dependency: a function of the keywords alone.  What it does on an argument that is
    not a string is left open ([Err] is a throw). *)
Variable getFallbackImage : value -> result jstring.

Definition getImageForKeywords (keywords : value) : Async W jstring :=
  catch (getCachedPhotoUrl keywords)
        (fun error => lift (getFallbackImage keywords)).

(** [item.imageKeywords || item.image || item.title] *)
Definition story_keywords (item : value) : result value :=
  imageKeywords <~ get item (lit "imageKeywords") ;;
  image <~ get item (lit "image") ;;
  title <~ get item (lit "title") ;;
  Ok (or_else (or_else imageKeywords image) title).

Definition story_of_item (item : value) : Async W Story.t :=
  keywords <- lift (story_keywords item) ;;
  imageUrl <- getImageForKeywords keywords ;;
  lift (id <~ get item (lit "id") ;;
        title <~ get item (lit "title") ;;
        description <~ get item (lit "description") ;;
        relatedUrls <~ get item (lit "relatedUrls") ;;
        Ok {| Story.id := id;
              Story.title := title;
              Story.description := description;
              Story.image := VStr imageUrl;
              Story.imageKeywords := keywords;
              Story.relatedUrls := or_else relatedUrls (VArr []) |}).

(** [Promise.all(parsed.map(async (item) => ...))] *)
Definition all_of {B} (f : value -> Async W B) (parsed : value)
  : Async W (list B) :=
  match parsed with
  | VArr items => all_map f items
  | _ => throw TypeError
  end.

Definition generateStoriesFromHistory (urls : list jstring)
  : Async W (list Story.t) :=
  catch
    (response <- llm_generateStories urls ;;
     parsed <- lift (call_parseJSON response) ;;
     all_of story_of_item parsed)
    (fun error => throw error).

(** [item.imageKeywords || item.image || story.imageKeywords || story.title] *)
Definition chunk_keywords (story : Story.t) (item : value) : result value :=
  imageKeywords <~ get item (lit "imageKeywords") ;;
  image <~ get item (lit "image") ;;
  Ok (or_else (or_else (or_else imageKeywords image)
                       (Story.imageKeywords story))
              (Story.title story)).

Definition chunk_of_item (story : Story.t) (item : value) : Async W Chunk.t :=
  keywords <- lift (chunk_keywords story item) ;;
  imageUrl <- getImageForKeywords keywords ;;
  lift (id <~ get item (lit "id") ;;
        title <~ get item (lit "title") ;;
        content <~ get item (lit "content") ;;
        Ok {| Chunk.id := id;
              Chunk.title := title;
              Chunk.content := content;
              Chunk.image := VStr imageUrl;
              Chunk.imageKeywords := keywords |}).

Definition generateChunksFromStory (story : Story.t) : Async W (list Chunk.t) :=
  catch
    (response <- llm_generateChunks (Story.title story)
                   (Story.description story)
                   (or_else (Story.relatedUrls story) (VArr []))
                   (Story.imageKeywords story) ;;
     parsed <- lift (call_parseJSON response) ;;
     all_of (chunk_of_item story) parsed)
    (fun error => throw error).

End Flows.

End WithImages.

(* ================================================================== *)
(** * components/pages/ChatbotPage.tsx: the send handler *)
(* ================================================================== *)

Module Chatbot.
Import Llm.

Definition summary_reply (storyTitle : jstring) : jstring :=
  lit "Great question! The key takeaway from "
  ++ quote :: storyTitle
  ++ quote :: lit " is understanding how different perspectives shape our view of this topic. The chunks you read covered various aspects from historical context to future trends.".

Definition why_reply : jstring :=
  lit "That's an insightful question! This topic is important because it impacts how we think about and approach related concepts. Each chunk revealed different layers of understanding.".

Definition how_reply : jstring :=
  lit "Excellent question! Based on the chunks you've read, there are multiple approaches to this. The real-world applications we covered show practical ways this manifests in everyday life.".

Definition example_reply : jstring :=
  lit "From what you've learned, you can apply these insights in various scenarios. The expert perspectives shared some compelling examples of implementation.".

Definition default_reply (storyTitle : jstring) : jstring :=
  lit "That's a thought-provoking question about "
  ++ quote :: storyTitle
  ++ quote :: lit ". Based on the chunks you've read, this connects to the broader themes of understanding context, expert insights, and real-world applications. What specific aspect interests you most?".

Definition apology : jstring :=
  lit "Sorry, I had trouble generating a response. Please try again.".

Section Page.

Variable number_to_string : Z -> Z -> jstring.
Variable lower_table : jstring -> jstring.
Variable fetch : Net -> Request -> result Response.

(** [storageService.getApiConfig()], not among the sources of the
    repository: the stored config, or [None] for [null]. *)
Variable getApiConfig : result (option LLMConfig).

Definition generateFallbackResponse (userMessage storyTitle : jstring)
  : jstring :=
  let lowerMessage := toLowerCase lower_table userMessage in
  if includes lowerMessage (lit "summary")
     || includes lowerMessage (lit "summarize") then summary_reply storyTitle
  else if includes lowerMessage (lit "why")
          || includes lowerMessage (lit "reason") then why_reply
  else if includes lowerMessage (lit "how")
          || includes lowerMessage (lit "what") then how_reply
  else if includes lowerMessage (lit "example") then example_reply
  else default_reply storyTitle.

(** The state of the page that the handler reads and sets. *)
Record State : Type := {
  messages : list Message.t;
  input : jstring;
  isTyping : bool;
  story : option Story.t;
  chunks : list Chunk.t }.

(** The reply, inside the [try] of [handleSend]. *)
Definition respond (st : State) (s : Story.t) : M value :=
  config <- lift getApiConfig ;;
  match config with
  | Some config =>
      WithConfig.generateChatResponse number_to_string fetch
        (input st) (Story.title s) (Story.description s) (chunks st)
        (map (fun m => (Message.text m, Message.sender m)) (messages st))
        config
  | None =>
      ret (VStr (generateFallbackResponse (input st)
                   (to_string number_to_string (Story.title s))))
  end.

(** [handleSend], run to its end: the page state after the three
    [setMessages]/[setInput]/[setIsTyping] updates, and the network. *)
Definition handleSend (st : State) (net : Net) : State * Net :=
  if JsString.eqb (trim (input st)) [] || isTyping st then (st, net)
  else
    match story st with
    | None => (st, net)
    | Some s =>
        let userMessage :=
          {| Message.id := List.length (messages st) + 1;
             Message.text := VStr (input st);
             Message.sender := Message.user |} in
        let (outcome, net') := respond st s net in
        let botText :=
          match outcome with
          | Ok responseText => responseText
          | Err _ => VStr apology
          end in
        let botResponse :=
          {| Message.id := List.length (messages st) + 2;
             Message.text := botText;
             Message.sender := Message.bot |} in
        ({| messages := messages st ++ [userMessage; botResponse];
            input := [];
            isTyping := false;
            story := story st;
            chunks := chunks st |}, net')
    end.

End Page.

End Chatbot.

(* ================================================================== *)
(** * Scenarios *)
(* ================================================================== *)

(** Concrete configs, stories, provider answers and image services on
    which the flows are run below. *)
Module Scenario.
Import Llm.

(** Number::toString on the small non-negative integers the scenarios use. *)
Definition print_integer (m e : Z) : jstring := of_nat (Z.to_nat m).

Definition no_table (s : jstring) : jstring := s.

Definition openai_config : LLMConfig :=
  {| provider := lit "openai"; apiKey := lit "sk-test"; model := None |}.

Definition ai_story : Story.t :=
  {| Story.id := VNum 1 0;
     Story.title := VStr (lit "AI Revolution");
     Story.description := VStr (lit "The latest developments in AI");
     Story.image := VStr (lit "https://images.example/ai.png");
     Story.imageKeywords := VUndefined;
     Story.relatedUrls := VArr [VStr (lit "https://openai.com")] |}.

(** A successful OpenAI response whose generated text is [text]. *)
Definition openai_answer (text : jstring) : Response :=
  {| ok := true;
     statusText := lit "OK";
     json := Ok (VObj [(lit "choices",
                        VArr [VObj [(lit "message",
                                     VObj [(lit "content", VStr text)])]])]) |}.

Definition answering (text : jstring) : Net -> Request -> result Response :=
  fun _ _ => Ok (openai_answer text).

Definition offline : Net -> Request -> result Response :=
  fun _ _ => Err (Rejected (lit "Failed to fetch")).

Definition six_chunks : jstring :=
  qlit "[{'id':1,'title':'A','content':'a'},{'id':2,'title':'B','content':'b'},{'id':3,'title':'C','content':'c'},{'id':4,'title':'D','content':'d'},{'id':5,'title':'E','content':'e'},{'id':6,'title':'F','content':'f'}]".

Definition two_chunks : jstring :=
  qlit "[{'id':1,'title':'A','content':'a'},{'id':2,'title':'B','content':'b'}]".

(** Story records with a repeated id and with no id. *)
Definition three_stories : jstring :=
  qlit "[{'id':1,'title':'A','description':'a'},{'id':1,'title':'B','description':'b'},{'title':'C','description':'c'}]".

(** The provider answer of the end-to-end scenario of the specification:
    one story record inside a [json] fence. *)
Definition fenced_story : jstring :=
  fenced (lit "json")
    (qlit "[{'id':1,'title':'T','description':'D','imageKeywords':'k','relatedUrls':['https://a.example.com/x']}]").

(** An image service that is down, and a fallback that is a function of
    the keyword string. *)
Definition lookup_down (keywords : value) : Async unit jstring :=
  throw (Rejected (lit "rate limit")).

Definition fallback_url (keywords : value) : result jstring :=
  match keywords with
  | VStr k => Ok (lit "https://fallback.example/?q=" ++ k)
  | _ => Err TypeError
  end.

Definition llm_answering (text : jstring) : Async unit value :=
  ret (VStr text).

Definition deepseek_config : LLMConfig :=
  {| provider := lit "deepseek"; apiKey := lit "k"; model := None |}.

Definition anthropic_config : LLMConfig :=
  {| provider := lit "anthropic"; apiKey := lit "k"; model := None |}.

(** Provider records with no imageKeywords member. *)
Definition legacy_story_record : value :=
  VObj [(lit "id", VNum 1 0);
        (lit "title", VStr (lit "Story title"));
        (lit "image", VStr (lit "legacy"))].

Definition plain_chunk_record : value :=
  VObj [(lit "id", VNum 1 0);
        (lit "title", VStr (lit "Chunk title"));
        (lit "content", VStr (lit "c"))].

(** The user message of the chat scenario. *)
Definition why_message : jstring := lit "why does this matter".

Definition story_titled (title : jstring) : Story.t :=
  {| Story.id := VNum 1 0;
     Story.title := VStr title;
     Story.description := VStr (lit "d");
     Story.image := VStr (lit "https://images.example/1.png");
     Story.imageKeywords := VUndefined;
     Story.relatedUrls := VUndefined |}.

End Scenario.

Module ChatScenario.
Import Chatbot.

(** The chat page on the story "AI Revolution", the question typed in. *)
Definition asking_why : State :=
  {| messages := [];
     input := Scenario.why_message;
     isTyping := false;
     story := Some (Scenario.story_titled (lit "AI Revolution"));
     chunks := [] |}.

End ChatScenario.

(* ================================================================== *)
(** * encodeURIComponent *)
(* ================================================================== *)

(** The run time's [encodeURIComponent]: the unreserved code units stay,
    every other code point goes out as the percent-escaped octets of its
    UTF-8 form; a surrogate without its pair is a [URIError] ([None]). *)
Module Uri.

Definition unreserved (c : N) : bool :=
  ((65 <=? c) && (c <=? 90)) || ((97 <=? c) && (c <=? 122))
  || ((48 <=? c) && (c <=? 57))
  || (c =? 45) || (c =? 95) || (c =? 46) || (c =? 33) || (c =? 126)
  || (c =? 42) || (c =? 39) || (c =? 40) || (c =? 41).

Definition hex_digit (d : N) : N := if d <? 10 then 48 + d else 55 + d.

Definition percent (octet : N) : jstring :=
  [37; hex_digit (octet / 16); hex_digit (octet mod 16)].

Definition utf8 (cp : N) : list N :=
  if cp <? 128 then [cp]
  else if cp <? 2048 then [192 + cp / 64; 128 + cp mod 64]
  else if cp <? 65536 then
    [224 + cp / 4096; 128 + (cp / 64) mod 64; 128 + cp mod 64]
  else
    [240 + cp / 262144; 128 + (cp / 4096) mod 64;
     128 + (cp / 64) mod 64; 128 + cp mod 64].

Definition is_lead (c : N) : bool := (55296 <=? c) && (c <=? 56319).
Definition is_trail (c : N) : bool := (56320 <=? c) && (c <=? 57343).

Definition escape (cp : N) : jstring := flat_map percent (utf8 cp).

Fixpoint encodeURIComponent (s : jstring) : option jstring :=
  match s with
  | [] => Some []
  | c :: s' =>
      if unreserved c then option_map (cons c) (encodeURIComponent s')
      else if is_trail c then None
      else if is_lead c then
        match s' with
        | d :: s'' =>
            if is_trail d then
              option_map (app (escape ((c - 55296) * 1024 + (d - 56320) + 65536)))
                         (encodeURIComponent s'')
            else None
        | [] => None
        end
      else option_map (app (escape c)) (encodeURIComponent s')
  end.

(** The [URIError] of [encodeURIComponent]: thrown by the run time, not by
    the code of the repository. *)
Definition URIError : exn := Rejected (lit "URIError: URI malformed").

End Uri.

(* ================================================================== *)
(** * contentGenerator.ts, the variant that takes the provider config:
      the story flow and the mock content *)
(* ================================================================== *)

(** The texts of the mock chunks, the same in both variants. *)
Module MockText.

Definition insight_content (title : jstring) : jstring :=
  lit "Discover the fundamental concepts behind "
  ++ title ++
  lit ". This chunk explores the basics and sets the foundation for deeper understanding.".

Definition history_content (title : jstring) : jstring :=
  lit "Learn about the evolution and background of "
  ++ title ++
  lit ". Understanding the past helps illuminate the present.".

Definition expert_content (title : jstring) : jstring :=
  lit "Industry leaders share their insights on "
  ++ title ++
  lit ". Gain valuable knowledge from those at the forefront.".

Definition application_content (title : jstring) : jstring :=
  lit "See how "
  ++ title ++
  lit " manifests in everyday life. Practical examples that bring theory to reality.".

Definition deep_dive_content (title : jstring) : jstring :=
  lit "An in-depth exploration of the most fascinating aspects of "
  ++ title ++
  lit ". For those who want to go further.".


End MockText.

Module WithConfigStories.
Import Llm.

(** [generateMockStories] *)
Definition generateMockStories : list Story.t :=
  [ {| Story.id := VNum 1 0;
       Story.title := VStr (lit "AI Revolution");
       Story.description := VStr (lit "The latest developments in artificial intelligence and machine learning");
       Story.image := VStr (lit "https://images.unsplash.com/photo-1677442136019-21780ecad995?w=800");
       Story.imageKeywords := VUndefined;
       Story.relatedUrls := VArr [VStr (lit "https://openai.com"); VStr (lit "https://anthropic.com")] |};
    {| Story.id := VNum 2 0;
       Story.title := VStr (lit "Web Development Trends");
       Story.description := VStr (lit "Modern frameworks and tools shaping the future of web development");
       Story.image := VStr (lit "https://images.unsplash.com/photo-1461749280684-dccba630e2f6?w=800");
       Story.imageKeywords := VUndefined;
       Story.relatedUrls := VArr [VStr (lit "https://react.dev"); VStr (lit "https://vitejs.dev")] |};
    {| Story.id := VNum 3 0;
       Story.title := VStr (lit "Design Systems");
       Story.description := VStr (lit "Building consistent and scalable design systems for better UX");
       Story.image := VStr (lit "https://images.unsplash.com/photo-1558655146-9f40138edfeb?w=800");
       Story.imageKeywords := VUndefined;
       Story.relatedUrls := VArr [VStr (lit "https://tailwindcss.com"); VStr (lit "https://ui.shadcn.com")] |} ].

Section Flows.

Variable number_to_string : Z -> Z -> jstring.
Variable fetch : Net -> Request -> result Response.

(** [`${i + 1}. ${url}`] *)
Definition url_line (i : nat) (url : jstring) : jstring :=
  of_nat (i + 1) ++ lit ". " ++ url.

Definition stories_prompt (urls : list jstring) : jstring :=
  lit "You are a content curator. Based on the following browsing history URLs, group them into 3-5 thematic stories that represent the user's interests.

For each story, provide:
- id: A unique number (1, 2, 3, etc.)
- title: A catchy, engaging title (max 50 characters)
- description: Brief description of the theme (max 100 characters)
- image: A relevant Unsplash search term for finding an image (e.g., "
  ++ qlit "'technology', 'nature', 'cooking')
- relatedUrls: Array of URLs from the input that belong to this theme

URLs to analyze:
"
  ++ JsString.join [nl] (Prompts.mapi url_line urls) ++
  qlit "

IMPORTANT: Respond ONLY with valid JSON array, no markdown formatting, no code blocks. Example:
[{'id':1,'title':'Tech Innovations','description':'Latest in technology','image':'technology','relatedUrls':['url1','url2']}]".

(** [LLMService.generateStories] *)
Definition generateStories (config : LLMConfig) (urls : list jstring) : M value :=
  sendMessage fetch config (stories_prompt urls) None.

(** [getUnsplashImage(keyword, index)]; the default of [index] is 0. *)
Definition getUnsplashImage (keyword : value) (index : nat) : result jstring :=
  let seed := to_string number_to_string keyword ++ lit "-" ++ of_nat index in
  match Uri.encodeURIComponent (to_string number_to_string keyword) with
  | Some encoded =>
      Ok (lit "https://source.unsplash.com/800x600/?" ++ encoded
          ++ lit "&sig=" ++ seed)
  | None => Err Uri.URIError
  end.

(** The callback of [parsed.map((item, index) => ...)]. *)
Definition story_of_item (index : nat) (item : value) : result Story.t :=
  id <~ get item (lit "id") ;;
  title <~ get item (lit "title") ;;
  description <~ get item (lit "description") ;;
  image <~ get item (lit "image") ;;
  url <~ getUnsplashImage image index ;;
  relatedUrls <~ get item (lit "relatedUrls") ;;
  Ok {| Story.id := id;
        Story.title := title;
        Story.description := description;
        Story.image := VStr url;
        Story.imageKeywords := VUndefined;
        Story.relatedUrls := or_else relatedUrls (VArr []) |}.

Fixpoint mapi_result_from {A B} (f : nat -> A -> result B) (i : nat)
  (xs : list A) : result (list B) :=
  match xs with
  | [] => Ok []
  | x :: xs' =>
      y <~ f i x ;;
      ys <~ mapi_result_from f (S i) xs' ;;
      Ok (y :: ys)
  end.

(** [parsed.map((item, index) => f(index, item))] *)
Definition array_mapi {B} (f : nat -> value -> result B) (parsed : value)
  : result (list B) :=
  match parsed with
  | VArr items => mapi_result_from f 0 items
  | _ => Err TypeError
  end.

Definition generateStoriesFromHistory (urls : list jstring) (config : LLMConfig)
  : M (list Story.t) :=
  catch
    (response <- generateStories config urls ;;
     parsed <- lift (call_parseJSON response) ;;
     lift (array_mapi story_of_item parsed))
    (fun error => throw error).

(** [generateMockChunks(story)] *)
Definition generateMockChunks (story : Story.t) : list Chunk.t :=
  let title := to_string number_to_string (Story.title story) in
  [ {| Chunk.id := VNum 1 0;
       Chunk.title := VStr (lit "Key Insight #1");
       Chunk.content := VStr (MockText.insight_content title);
       Chunk.image := Story.image story;
       Chunk.imageKeywords := VUndefined |};
    {| Chunk.id := VNum 2 0;
       Chunk.title := VStr (lit "Historical Context");
       Chunk.content := VStr (MockText.history_content title);
       Chunk.image := Story.image story;
       Chunk.imageKeywords := VUndefined |};
    {| Chunk.id := VNum 3 0;
       Chunk.title := VStr (lit "Expert Perspective");
       Chunk.content := VStr (MockText.expert_content title);
       Chunk.image := Story.image story;
       Chunk.imageKeywords := VUndefined |};
    {| Chunk.id := VNum 4 0;
       Chunk.title := VStr (lit "Real-World Application");
       Chunk.content := VStr (MockText.application_content title);
       Chunk.image := Story.image story;
       Chunk.imageKeywords := VUndefined |};
    {| Chunk.id := VNum 5 0;
       Chunk.title := VStr (lit "Deep Dive");
       Chunk.content := VStr (MockText.deep_dive_content title);
       Chunk.image := Story.image story;
       Chunk.imageKeywords := VUndefined |} ].

End Flows.

End WithConfigStories.

(* ================================================================== *)
(** * contentGenerator.ts, the variant that resolves images: the mock
      content *)
(* ================================================================== *)

Module WithImagesMock.

Definition chunkKeywords : list jstring :=
  [ lit "abstract concept idea light bulb";
    lit "vintage history timeline old";
    lit "professional expert business meeting";
    lit "everyday practical real world application";
    lit "technical detail microscope close up" ].

(** [generateMockStories] *)
Definition generateMockStories : list Story.t :=
  [ {| Story.id := VNum 1 0;
       Story.title := VStr (lit "The Future of AI");
       Story.description := VStr (lit "Explore the cutting-edge developments in artificial intelligence");
       Story.image := VStr (lit "https://images.unsplash.com/photo-1677442136019-21780ecad995?w=800");
       Story.imageKeywords := VStr (lit "artificial intelligence robot futuristic");
       Story.relatedUrls := VArr [VStr (lit "https://openai.com"); VStr (lit "https://anthropic.com")] |};
    {| Story.id := VNum 2 0;
       Story.title := VStr (lit "Web Development Trends");
       Story.description := VStr (lit "Modern frameworks and tools shaping the future of web");
       Story.image := VStr (lit "https://images.unsplash.com/photo-1461749280684-dccba630e2f6?w=800");
       Story.imageKeywords := VStr (lit "coding programming web development");
       Story.relatedUrls := VArr [VStr (lit "https://react.dev"); VStr (lit "https://vitejs.dev")] |};
    {| Story.id := VNum 3 0;
       Story.title := VStr (lit "Design Systems");
       Story.description := VStr (lit "Building consistent and scalable design systems");
       Story.image := VStr (lit "https://images.unsplash.com/photo-1558655146-9f40138edfeb?w=800");
       Story.imageKeywords := VStr (lit "design ui ux interface");
       Story.relatedUrls := VArr [VStr (lit "https://tailwindcss.com"); VStr (lit "https://ui.shadcn.com")] |} ].

Section Mock.

Variable number_to_string : Z -> Z -> jstring.

(** [getFallbackImage] of [./unsplash], as in [WithImages]. *)
Variable getFallbackImage : value -> result jstring.

(** [generateMockChunks(story)]: the five fallback images are computed in
    the order of the array literal. *)
Definition generateMockChunks (story : Story.t) : result (list Chunk.t) :=
  let title := to_string number_to_string (Story.title story) in
  image1 <~ getFallbackImage (VStr (nth 0 chunkKeywords [])) ;;
  image2 <~ getFallbackImage (VStr (nth 1 chunkKeywords [])) ;;
  image3 <~ getFallbackImage (VStr (nth 2 chunkKeywords [])) ;;
  image4 <~ getFallbackImage (VStr (nth 3 chunkKeywords [])) ;;
  image5 <~ getFallbackImage (VStr (nth 4 chunkKeywords [])) ;;
  Ok [ {| Chunk.id := VNum 1 0;
          Chunk.title := VStr (lit "Key Insight #1");
          Chunk.content := VStr (MockText.insight_content title);
          Chunk.image := VStr image1;
          Chunk.imageKeywords := VStr (nth 0 chunkKeywords []) |};
       {| Chunk.id := VNum 2 0;
          Chunk.title := VStr (lit "Historical Context");
          Chunk.content := VStr (MockText.history_content title);
          Chunk.image := VStr image2;
          Chunk.imageKeywords := VStr (nth 1 chunkKeywords []) |};
       {| Chunk.id := VNum 3 0;
          Chunk.title := VStr (lit "Expert Perspective");
          Chunk.content := VStr (MockText.expert_content title);
          Chunk.image := VStr image3;
          Chunk.imageKeywords := VStr (nth 2 chunkKeywords []) |};
       {| Chunk.id := VNum 4 0;
          Chunk.title := VStr (lit "Real-World Application");
          Chunk.content := VStr (MockText.application_content title);
          Chunk.image := VStr image4;
          Chunk.imageKeywords := VStr (nth 3 chunkKeywords []) |};
       {| Chunk.id := VNum 5 0;
          Chunk.title := VStr (lit "Deep Dive");
          Chunk.content := VStr (MockText.deep_dive_content title);
          Chunk.image := VStr image5;
          Chunk.imageKeywords := VStr (nth 4 chunkKeywords []) |} ].

End Mock.

End WithImagesMock.

(* ================================================================== *)
(** * The pages: what a handler leaves behind *)
(* ================================================================== *)

(** [storageService] is not among the sources of the repository, and
    [navigate] and [setTimeout] belong to the run time: a handler is
    modelled up to the calls it makes to them, recorded in the order they
    are made. *)
Module Effects.

Inductive StorageCall : Type :=
| SetApiConfig (config : Llm.LLMConfig)
| SetBrowsingHistory (urls : list jstring)
| ClearBrowsingHistory
| SetStories (stories : list Story.t)
| SetHasStarted (started : bool)
| SetCurrentStory (story : Story.t)
| SetCurrentChunks (chunks : list Chunk.t).

Inductive Effect : Type :=
| Store (call : StorageCall)
| Navigate (path : jstring)
| SetTimeout (ms : N).

(** What a page shows in its error box: a text of the code, or
    [err instanceof Error ? err.message : otherwise] for a caught [err]. *)
Inductive Banner : Type :=
| Text (s : jstring)
| Caught (err : exn) (otherwise : jstring).

End Effects.
Export Effects.

(* ================================================================== *)
(** * SettingsPage.tsx and AddHistoryPage.tsx: the URL list *)
(* ================================================================== *)

(** The three handlers of the URL list are the same code in both pages. *)
Module UrlForm.

Record t : Type := {
  urlInput : jstring;
  urls : list jstring;
  error : Banner }.

(** [s.split(/[\n,]/)]: the pieces between the separators, in order; a
    string without separator is its only piece. *)
Fixpoint split_from (is_sep : N -> bool) (piece_rev : jstring) (s : jstring)
  : list jstring :=
  match s with
  | [] => [rev piece_rev]
  | c :: s' =>
      if is_sep c then rev piece_rev :: split_from is_sep [] s'
      else split_from is_sep (c :: piece_rev) s'
  end.

Definition is_separator (c : N) : bool := (c =? 10) || (c =? 44).

Definition split (s : jstring) : list jstring := split_from is_separator [] s.

(** [url && url.startsWith('http')] *)
Definition acceptable (url : jstring) : bool :=
  negb (JsString.eqb url []) && startsWith url (lit "http").

Definition parse_urls (input : jstring) : list jstring :=
  filter acceptable (map trim (split input)).

Fixpoint mem (x : jstring) (l : list jstring) : bool :=
  match l with
  | [] => false
  | y :: l' => JsString.eqb x y || mem x l'
  end.

(** [[...new Set(l)]]: the first occurrence of every string, in order. *)
Fixpoint unique_from (seen : list jstring) (l : list jstring) : list jstring :=
  match l with
  | [] => []
  | x :: l' =>
      if mem x seen then unique_from seen l'
      else x :: unique_from (x :: seen) l'
  end.

Definition unique (l : list jstring) : list jstring := unique_from [] l.

Definition handleAddUrl (st : t) : t * list Effect :=
  if JsString.eqb (trim (urlInput st)) [] then (st, [])
  else
    let newUrls := parse_urls (urlInput st) in
    match newUrls with
    | [] =>
        ({| urlInput := urlInput st;
            urls := urls st;
            error := Text (lit "Please enter valid URLs (starting with http:// or https://)") |},
         [])
    | _ =>
        let updatedUrls := unique (urls st ++ newUrls) in
        ({| urlInput := []; urls := updatedUrls; error := Text [] |},
         [Store (SetBrowsingHistory updatedUrls)])
    end.

Definition handleRemoveUrl (urlToRemove : jstring) (st : t) : t * list Effect :=
  let updatedUrls :=
    filter (fun url => negb (JsString.eqb url urlToRemove)) (urls st) in
  ({| urlInput := urlInput st; urls := updatedUrls; error := error st |},
   [Store (SetBrowsingHistory updatedUrls)]).

Definition handleClearUrls (st : t) : t * list Effect :=
  ({| urlInput := urlInput st; urls := []; error := error st |},
   [Store ClearBrowsingHistory]).

End UrlForm.

(* ================================================================== *)
(** * SettingsPage.tsx: the config and the generation *)
(* ================================================================== *)

Module Settings.
Import Llm.

Record ConfigForm : Type := {
  provider : jstring;
  apiKey : jstring;
  error : Banner;
  success : jstring }.

Section Page.

(** [DEFAULT_MODELS] of [@/types], not among the sources of the
    repository: the model of a provider, [None] where the table has no
    entry. *)
Variable DEFAULT_MODELS : jstring -> option jstring.

Variable number_to_string : Z -> Z -> jstring.
Variable fetch : Net -> Request -> result Response.

(** [handleSaveConfig]; the timer set at its end empties [success] three
    seconds later. *)
Definition handleSaveConfig (st : ConfigForm) : ConfigForm * list Effect :=
  if JsString.eqb (trim (apiKey st)) [] then
    ({| provider := provider st; apiKey := apiKey st;
        error := Text (lit "Please enter an API key");
        success := success st |}, [])
  else
    let config := {| Llm.provider := provider st;
                     Llm.apiKey := trim (apiKey st);
                     Llm.model := DEFAULT_MODELS (provider st) |} in
    ({| provider := provider st; apiKey := apiKey st;
        error := Text [];
        success := lit "API configuration saved!" |},
     [Store (SetApiConfig config); SetTimeout 3000]).

Record Generation : Type := {
  urls : list jstring;
  isGenerating : bool;
  generationError : Banner }.

(** [handleGenerateStories], run to its end.  [stored] is what
    [storageService.getApiConfig()] returns. *)
Definition handleGenerateStories (stored : option LLMConfig) (st : Generation)
  (net : Net) : Generation * list Effect * Net :=
  match stored with
  | None =>
      ({| urls := urls st; isGenerating := isGenerating st;
          generationError := Text (lit "Please configure your API key first") |},
       [], net)
  | Some config =>
      match urls st with
      | [] =>
          ({| urls := urls st; isGenerating := isGenerating st;
              generationError := Text (lit "Please add some URLs first") |},
           [], net)
      | _ =>
          match WithConfigStories.generateStoriesFromHistory
                  number_to_string fetch (urls st) config net with
          | (Ok stories, net') =>
              ({| urls := urls st; isGenerating := false;
                  generationError := Text [] |},
               [Store (SetStories stories); Store (SetHasStarted true);
                Navigate (lit "/stories")], net')
          | (Err err, net') =>
              ({| urls := urls st; isGenerating := false;
                  generationError :=
                    Caught err (lit "Failed to generate stories") |},
               [], net')
          end
      end
  end.

End Page.

End Settings.

(* ================================================================== *)
(** * StoriesPage.tsx: opening a story *)
(* ================================================================== *)

Module StoriesPage.
Import Llm.

Record State : Type := {
  selectedStory : option Story.t;
  isGeneratingChunks : bool;
  error : Banner }.

Section Page.

Variable number_to_string : Z -> Z -> jstring.
Variable fetch : Net -> Request -> result Response.

(** [storageService.getApiConfig()], read inside the [try]. *)
Variable getApiConfig : result (option LLMConfig).

(** The chunks, inside the [try] of [handleStoryClick]. *)
Definition chunks_for (story : Story.t) : M (list Chunk.t) :=
  config <- lift getApiConfig ;;
  match config with
  | Some config =>
      WithConfig.generateChunksFromStory number_to_string fetch story config
  | None =>
      ret (WithConfigStories.generateMockChunks number_to_string story)
  end.

(** [handleStoryClick(story)], run to its end. *)
Definition handleStoryClick (story : Story.t) (st : State) (net : Net)
  : State * list Effect * Net :=
  match chunks_for story net with
  | (Ok chunks, net') =>
      ({| selectedStory := Some story;
          isGeneratingChunks := false;
          error := Text [] |},
       [Store (SetCurrentStory story); Store (SetCurrentChunks chunks);
        Navigate (lit "/chunks")], net')
  | (Err err, net') =>
      ({| selectedStory := None;
          isGeneratingChunks := false;
          error := Caught err (lit "Failed to generate chunks") |},
       [], net')
  end.

End Page.

End StoriesPage.

(* ================================================================== *)
(** * AddHistoryPage.tsx: the generation *)
(* ================================================================== *)

Module AddHistory.

Section Page.

Variable W : Type.
Variable llm_generateStories : list jstring -> Async W value.
Variable getCachedPhotoUrl : value -> Async W jstring.
Variable getFallbackImage : value -> result jstring.

(** [handleGenerateStories], run to its end. *)
Definition handleGenerateStories (st : Settings.Generation) (w : W)
  : Settings.Generation * list Effect * W :=
  match Settings.urls st with
  | [] =>
      ({| Settings.urls := Settings.urls st;
          Settings.isGenerating := Settings.isGenerating st;
          Settings.generationError := Text (lit "Please add some URLs first") |},
       [], w)
  | _ =>
      match WithImages.generateStoriesFromHistory W llm_generateStories
              getCachedPhotoUrl getFallbackImage (Settings.urls st) w with
      | (Ok stories, w') =>
          ({| Settings.urls := Settings.urls st;
              Settings.isGenerating := false;
              Settings.generationError := Text [] |},
           [Store (SetStories stories); Store (SetHasStarted true);
            Navigate (lit "/stories")], w')
      | (Err err, w') =>
          ({| Settings.urls := Settings.urls st;
              Settings.isGenerating := false;
              Settings.generationError :=
                Caught err (lit "Failed to generate stories") |},
           [], w')
      end
  end.

End Page.

End AddHistory.

(* ================================================================== *)
(** * Where the prompts are defined *)
(* ================================================================== *)

(** A chat context all of whose interpolated values are [printable]:
    the templates of [chat] apply ToString to each of them. *)
Module Printable.

Definition context_printable (context : Prompts.ChatContext) : bool :=
  printable (Prompts.storyTitle context)
  && printable (Prompts.storyDescription context)
  && forallb (fun c => printable (fst c) && printable (snd c))
       (Prompts.chunks context)
  && forallb (fun m => printable (Message.text m))
       (Prompts.previousMessages context).

(** The number that a string of decimal digits writes after the number
    [a]. *)
Definition digits_value (a : N) (digits : jstring) : N :=
  fold_left (fun acc c => acc * 10 + (c - 48)) digits a.

End Printable.
Export Printable.

(* ================================================================== *)
(** * More scenarios *)
(* ================================================================== *)

Module Cases.
Import Llm.

(** A remote side that answers every request with [r]. *)
Definition replying (r : Response) : Net -> Request -> result Response :=
  fun _ _ => Ok r.

Definition rate_limited : Response :=
  {| ok := false;
     statusText := lit "Too Many Requests";
     json := Ok (VObj [(lit "error",
                        VObj [(lit "message", VStr (lit "Rate limit reached"))])]) |}.

(** An error body whose [message] is an object with a [toString] member
    of its own. *)
Definition odd_message : value :=
  VObj [(lit "toString", VStr (lit "x"))].

Definition unprintable_error : Response :=
  {| ok := false;
     statusText := lit "Bad Request";
     json := Ok (VObj [(lit "error", VObj [(lit "message", odd_message)])]) |}.

Definition no_candidates : Response :=
  {| ok := true;
     statusText := lit "OK";
     json := Ok (VObj [(lit "candidates", VArr [])]) |}.

Definition gemini_config : LLMConfig :=
  {| provider := lit "gemini"; apiKey := lit "k"; model := None |}.

(** A story whose [relatedUrls] is a string. *)
Definition story_with_text_urls : Story.t :=
  {| Story.id := VNum 1 0;
     Story.title := VStr (lit "T");
     Story.description := VStr (lit "D");
     Story.image := VStr (lit "https://images.example/1.png");
     Story.imageKeywords := VUndefined;
     Story.relatedUrls := VStr (lit "https://a.example.com") |}.

Definition chat_context : Prompts.ChatContext :=
  {| Prompts.storyTitle := VStr (lit "AI Revolution");
     Prompts.storyDescription := VStr (lit "d");
     Prompts.chunks := [(VStr (lit "A"), VStr (lit "a"))];
     Prompts.previousMessages := [] |}.

(** The chat page with a blank input. *)
Definition blank_chat : Chatbot.State :=
  {| Chatbot.messages := [];
     Chatbot.input := lit "   ";
     Chatbot.isTyping := false;
     Chatbot.story := Some (Scenario.story_titled (lit "AI Revolution"));
     Chatbot.chunks := [] |}.

(** The URL list with one entry, and an input that holds a new URL, a
    text that is no URL and the entry again. *)
Definition url_form : UrlForm.t :=
  {| UrlForm.urlInput :=
       lit " https://b.example.com , notes" ++ [nl] ++ lit "https://a.example.com";
     UrlForm.urls := [lit "https://a.example.com"];
     UrlForm.error := Text [] |}.

Definition url_form_single : UrlForm.t :=
  {| UrlForm.urlInput := lit "https://b.example.com";
     UrlForm.urls := [lit "https://a.example.com"];
     UrlForm.error := Text [] |}.

Definition config_form : Settings.ConfigForm :=
  {| Settings.provider := lit "openai";
     Settings.apiKey := lit "  sk-test ";
     Settings.error := Text [];
     Settings.success := [] |}.

Definition default_models (provider : jstring) : option jstring :=
  if JsString.eqb provider (lit "openai") then Some (lit "gpt-4o-mini")
  else None.

Definition generation : Settings.Generation :=
  {| Settings.urls := [lit "https://a.example.com/x"];
     Settings.isGenerating := false;
     Settings.generationError := Text [] |}.

(** A story record whose image keyword is the escape of a lead surrogate
    alone. *)
Definition surrogate_story : jstring :=
  qlit "[{'id':1,'title':'A','description':'a','image':'\ud83d'}]".

Definition null_entry : jstring := qlit "[{'id':1,'title':'A'},null]".

End Cases.

(* ================================================================== *)
(** * Facts about strings and the decoder *)
(* ================================================================== *)

Lemma jstring_eqb_eq (a b : jstring) : JsString.eqb a b = true <-> a = b.
Proof.
  revert b; induction a as [|x a IH]; intros [|y b]; simpl;
    try (split; [discriminate | congruence]); try tauto.
  rewrite andb_true_iff, N.eqb_eq, IH.
  split; [intros [-> ->]; reflexivity | intros H; inversion H; auto].
Qed.

Lemma jstring_eqb_neq (a b : jstring) : a <> b -> JsString.eqb a b = false.
Proof.
  intros H. destruct (JsString.eqb a b) eqn:E; [|reflexivity].
  apply jstring_eqb_eq in E. contradiction.
Qed.

Lemma startsWith_app (p s : jstring) : startsWith (p ++ s) p = true.
Proof.
  induction p as [|c p IH]; simpl; [reflexivity|].
  rewrite N.eqb_refl, IH. reflexivity.
Qed.

Lemma trimStart_keeps (c : N) (s : jstring) :
  is_js_space c = false -> trimStart (c :: s) = c :: s.
Proof. intros H; simpl; rewrite H; reflexivity. Qed.

Lemma trimStart_spaces (ws s : jstring) :
  forallb is_js_space ws = true -> trimStart (ws ++ s) = trimStart s.
Proof.
  induction ws as [|c ws IH]; simpl; [reflexivity|].
  rewrite andb_true_iff. intros [-> H]. auto.
Qed.

Lemma trimEnd_keeps (s : jstring) (c : N) :
  is_js_space c = false -> trimEnd (s ++ [c]) = s ++ [c].
Proof.
  intros H. unfold trimEnd. rewrite rev_app_distr. simpl.
  rewrite H. simpl. rewrite rev_involutive. reflexivity.
Qed.

Lemma trimEnd_space (s : jstring) (c : N) :
  is_js_space c = true -> trimEnd (s ++ [c]) = trimEnd s.
Proof.
  intros H. unfold trimEnd. rewrite rev_app_distr. simpl.
  rewrite H. reflexivity.
Qed.

Lemma trimEnd_spaces (s ws : jstring) :
  forallb is_js_space ws = true -> trimEnd (s ++ ws) = trimEnd s.
Proof.
  induction ws as [|c ws IH] using rev_ind; intros H.
  - rewrite app_nil_r. reflexivity.
  - rewrite forallb_app in H. simpl in H.
    apply andb_true_iff in H as [Hws Hc]. rewrite andb_true_r in Hc.
    rewrite app_assoc, trimEnd_space by assumption. auto.
Qed.

(** ** The closing fence *)

Lemma strip_closing_fenced (p : jstring) :
  strip_closing (p ++ nl :: fence) = p.
Proof.
  induction p as [|c p IH].
  - reflexivity.
  - cbn [app strip_closing].
    assert (L : forall q : jstring, (List.length q <= 4)%nat ->
                JsString.eqb (c :: p ++ nl :: fence) q = false).
    { intros q Hq. apply jstring_eqb_neq. intros E.
      apply (f_equal (@List.length N)) in E.
      simpl in E. rewrite length_app in E. simpl in E. lia. }
    rewrite (L (nl :: fence)), (L fence) by (simpl; lia).
    simpl. rewrite IH. reflexivity.
Qed.

(** ** Fenced payloads *)

Lemma trim_fenced (ws1 ws2 tag p : jstring) :
  forallb is_js_space ws1 = true -> forallb is_js_space ws2 = true ->
  trim (ws1 ++ fenced tag p ++ ws2) = fenced tag p.
Proof.
  intros H1 H2. unfold trim.
  rewrite trimStart_spaces by assumption.
  assert (E : fenced tag p ++ ws2
              = 96 :: (skipn 1 (fenced tag p) ++ ws2)) by reflexivity.
  rewrite E, trimStart_keeps by reflexivity.
  rewrite <- E, trimEnd_spaces by assumption.
  unfold fenced.
  replace (fence ++ tag ++ nl :: p ++ nl :: fence)
    with ((fence ++ tag ++ nl :: p ++ nl :: lit "``") ++ [96]).
  - apply trimEnd_keeps. reflexivity.
  - rewrite <- !app_assoc. simpl. rewrite <- !app_assoc. reflexivity.
Qed.

Lemma startsWith_before_line_feed (prefix tag rest : jstring) :
  ~ In nl prefix ->
  startsWith (tag ++ nl :: rest) prefix = startsWith tag prefix.
Proof.
  revert tag; induction prefix as [|x prefix IH]; intros tag Hx;
    [reflexivity|].
  destruct tag as [|c tag]; cbn [app startsWith].
  - destruct (N.eqb_spec nl x) as [E|]; [|reflexivity].
    exfalso. apply Hx. left. symmetry. exact E.
  - rewrite IH; [reflexivity|]. intros H. apply Hx. right. exact H.
Qed.

(** What [cleaned] leaves of a fenced block whose tag goes on after
    what the opening pattern takes of it. *)
Lemma cleaned_fenced_kept (ws1 ws2 tag rest p : jstring) (taken : jstring) :
  forallb is_js_space ws1 = true -> forallb is_js_space ws2 = true ->
  (taken = [] /\ startsWith tag (lit "json") = false
   \/ taken = lit "json") ->
  tag = taken ++ rest ->
  (exists x rest', rest = x :: rest' /\ x <> nl) ->
  cleaned (ws1 ++ fenced tag p ++ ws2) = rest ++ nl :: p.
Proof.
  intros H1 H2 Htaken -> (x & rest' & -> & Hx). unfold cleaned.
  rewrite trim_fenced by assumption.
  assert (F : startsWith (fenced (taken ++ x :: rest') p) fence = true)
    by (apply startsWith_app).
  rewrite F.
  assert (S : strip_opening (fenced (taken ++ x :: rest') p)
              = ((x :: rest') ++ nl :: p) ++ nl :: fence).
  { unfold strip_opening. rewrite F.
    destruct Htaken as [[-> J] | ->].
    - cbn [app] in J |- *.
      change (skipn 3 (fenced (x :: rest') p))
        with ((x :: rest') ++ nl :: p ++ nl :: fence).
      cbv zeta.
      rewrite startsWith_before_line_feed, J
        by (vm_compute; intros [H|[H|[H|[H|[]]]]]; discriminate).
      cbn [app]. destruct (N.eqb_spec x nl) as [E|_]; [contradiction|].
      rewrite <- app_assoc. reflexivity.
    - change (skipn 3 (fenced (lit "json" ++ x :: rest') p))
        with (lit "json" ++ (x :: rest' ++ nl :: p ++ nl :: fence)).
      cbv zeta. rewrite startsWith_app.
      change (skipn 4 (lit "json" ++ (x :: rest' ++ nl :: p ++ nl :: fence)))
        with (x :: rest' ++ nl :: p ++ nl :: fence).
      cbn [app]. destruct (N.eqb_spec x nl) as [E|_]; [contradiction|].
      rewrite <- app_assoc. reflexivity. }
  rewrite S. apply strip_closing_fenced.
Qed.

Lemma cleaned_fenced (ws1 ws2 tag p : jstring) :
  forallb is_js_space ws1 = true -> forallb is_js_space ws2 = true ->
  tag = [] \/ tag = lit "json" ->
  cleaned (ws1 ++ fenced tag p ++ ws2) = p.
Proof.
  intros H1 H2 Htag. unfold cleaned.
  rewrite trim_fenced by assumption.
  assert (S : strip_opening (fenced tag p) = p ++ nl :: fence)
    by (destruct Htag as [-> | ->]; reflexivity).
  assert (F : startsWith (fenced tag p) fence = true)
    by (apply startsWith_app).
  rewrite F, S. apply strip_closing_fenced.
Qed.

(** ** The decoder and white space *)

Lemma is_js_space_In (c : N) : is_js_space c = true -> In c js_spaces.
Proof.
  unfold is_js_space.
  rewrite !orb_true_iff, !andb_true_iff, !N.eqb_eq, !N.leb_le.
  intros H. unfold js_spaces. simpl.
  assert (c = 9 \/ c = 10 \/ c = 11 \/ c = 12 \/ c = 13 \/ c = 32 \/ c = 160
          \/ c = 5760 \/ c = 8192 \/ c = 8193 \/ c = 8194 \/ c = 8195
          \/ c = 8196 \/ c = 8197 \/ c = 8198 \/ c = 8199 \/ c = 8200
          \/ c = 8201 \/ c = 8202 \/ c = 8232 \/ c = 8233 \/ c = 8239
          \/ c = 8287 \/ c = 12288 \/ c = 65279) by lia.
  intuition auto.
Qed.

Ltac each_space H :=
  apply is_js_space_In in H; unfold js_spaces in H; simpl in H;
  repeat (destruct H as [<- | H]); try contradiction.

Lemma run_app (s : Json.mode * Json.pstate) (x y : jstring) :
  Json.run s (x ++ y)
  = match Json.run s x with Some s' => Json.run s' y | None => None end.
Proof.
  revert s; induction x as [|c x IH]; intros s; simpl; [reflexivity|].
  destruct (Json.step s c); auto.
Qed.

Lemma step_idle_space (p : Json.pstate) (c : N) :
  is_js_space c = true ->
  Json.step_idle p c = Some (Json.Idle, p) \/ Json.step_idle p c = None.
Proof. intros H. each_space H; auto. Qed.

Lemma step_idle_mode_ok (p p' : Json.pstate) (m' : Json.mode) (c : N) :
  Json.step_idle p c = Some (m', p') -> Json.mode_ok m'.
Proof.
  unfold Json.step_idle, Json.emit.
  repeat match goal with
         | |- context [if ?b then _ else _] => destruct b
         | |- context [match Json.pstep ?q ?t with _ => _ end] =>
             destruct (Json.pstep q t)
         end;
    intros E; inversion E; subst; simpl; auto.
Qed.

Lemma step_mode_ok (m m' : Json.mode) (p p' : Json.pstate) (c : N) :
  Json.mode_ok m -> Json.step (m, p) c = Some (m', p') -> Json.mode_ok m'.
Proof.
  intros Hm. destruct m as [|acc|acc|acc seen code|rest v|st a]; simpl.
  - apply step_idle_mode_ok.
  - unfold Json.emit.
    repeat match goal with
           | |- context [if ?b then _ else _] => destruct b
           | |- context [match Json.pstep ?q ?t with _ => _ end] =>
               destruct (Json.pstep q t)
           end; intros E; inversion E; subst; simpl; auto.
  - destruct (c =? 117); [intros E; inversion E; subst; exact I|].
    destruct (Json.escape c); intros E; inversion E; subst; exact I.
  - destruct (Json.hex_value c); [|discriminate].
    destruct (Nat.eqb seen 3); intros E; inversion E; subst; exact I.
  - destruct rest as [|r rest]; [discriminate|].
    simpl in Hm. apply andb_true_iff in Hm as [_ Hm].
    destruct (c =? r); [|discriminate].
    destruct rest as [|r' rest].
    + unfold Json.emit. destruct (Json.pstep p _); intros E; inversion E; subst; exact I.
    + intros E; inversion E; subst. exact Hm.
  - unfold Json.step_number, Json.end_number.
    destruct st;
      repeat match goal with
             | |- context [if ?b then _ else _] => destruct b
             end;
      try (intros E; inversion E; subst; exact I);
      destruct (Json.pstep p _); try discriminate; apply step_idle_mode_ok.
Qed.

Lemma run_mode_ok (text : jstring) (m m' : Json.mode) (p p' : Json.pstate) :
  Json.mode_ok m -> Json.run (m, p) text = Some (m', p') -> Json.mode_ok m'.
Proof.
  revert m p; induction text as [|c text IH]; intros m p Hm; cbn [Json.run].
  - intros E; inversion E; subst; exact Hm.
  - destruct (Json.step (m, p) c) as [[m1 p1]|] eqn:E; [|discriminate].
    apply IH. eapply step_mode_ok; eauto.
Qed.

(** A white space after the text changes nothing of a successful decoding. *)
Lemma step_space_finish (m : Json.mode) (p : Json.pstate) (c : N)
  (s' : Json.mode * Json.pstate) (v : value) :
  Json.mode_ok m -> is_js_space c = true ->
  Json.step (m, p) c = Some s' -> Json.finish s' = Some v ->
  Json.finish (m, p) = Some v.
Proof.
  intros Hm Hc. destruct m as [|acc|acc|acc seen code|rest v0|st a].
  - simpl. destruct (step_idle_space p c Hc) as [-> | ->];
      [intros E; inversion E; subst; auto | discriminate].
  - each_space Hc; simpl; try discriminate;
      intros E; inversion E; subst; discriminate.
  - each_space Hc; simpl; discriminate.
  - each_space Hc; simpl; discriminate.
  - simpl. destruct rest as [|r rest]; [discriminate|].
    simpl in Hm. apply andb_true_iff in Hm as [Hr _].
    destruct (N.eqb_spec c r) as [->|]; [|discriminate].
    rewrite Hc in Hr. discriminate.
  - destruct st; each_space Hc; simpl; try discriminate;
      unfold Json.end_number; destruct (Json.pstep p _) as [p1|];
      try discriminate; simpl;
      intros E; inversion E; subst; simpl; destruct p1; auto; discriminate.
Qed.

Lemma decode_drop_last (x : jstring) (c : N) (v : value) :
  is_js_space c = true ->
  Json.decode (x ++ [c]) = Some v -> Json.decode x = Some v.
Proof.
  intros Hc. unfold Json.decode. rewrite run_app.
  destruct (Json.run Json.initial x) as [[m p]|] eqn:R; [|discriminate].
  cbn [Json.run]. destruct (Json.step (m, p) c) as [s'|] eqn:E; [|discriminate].
  intros F. eapply step_space_finish; eauto.
  eapply run_mode_ok; [|exact R]. exact I.
Qed.

Lemma decode_drop_first (c : N) (x : jstring) (v : value) :
  is_js_space c = true ->
  Json.decode (c :: x) = Some v -> Json.decode x = Some v.
Proof.
  intros Hc. unfold Json.decode. simpl.
  destruct (step_idle_space (Json.SValue []) c Hc) as [-> | ->];
    [auto | discriminate].
Qed.

Lemma decode_trimStart (x : jstring) (v : value) :
  Json.decode x = Some v -> Json.decode (trimStart x) = Some v.
Proof.
  induction x as [|c x IH]; simpl; [auto|].
  destruct (is_js_space c) eqn:Hc; [|auto].
  intros D. apply IH. eapply decode_drop_first; eauto.
Qed.

Lemma decode_trimEnd (x : jstring) (v : value) :
  Json.decode x = Some v -> Json.decode (trimEnd x) = Some v.
Proof.
  induction x as [|c x IH] using rev_ind; [auto|].
  destruct (is_js_space c) eqn:Hc.
  - rewrite trimEnd_space by assumption.
    intros D. apply IH. eapply decode_drop_last; eauto.
  - rewrite trimEnd_keeps by assumption. auto.
Qed.

Lemma decode_not_fenced (x : jstring) (v : value) :
  Json.decode x = Some v -> startsWith x fence = false.
Proof.
  destruct x as [|c x]; [reflexivity|].
  simpl. destruct (N.eqb_spec c 96) as [->|]; [|reflexivity].
  discriminate.
Qed.

(** A text that decodes is decoded by [parseJSON] as it is. *)
Lemma parseJSON_plain (x : jstring) (v : value) :
  Json.parse x = Ok v -> parseJSON x = Ok v.
Proof.
  unfold parseJSON, Json.parse, cleaned.
  destruct (Json.decode x) as [v'|] eqn:D; [|discriminate].
  intros E; inversion E; subst.
  apply decode_trimStart, decode_trimEnd in D. fold (trim x) in D.
  rewrite (decode_not_fenced _ _ D), D. reflexivity.
Qed.

(* ================================================================== *)
(** * parseJSON *)
(* ================================================================== *)

(** C4, as stated, fails: the language tag [js] of a fenced block is
    not removed with the fence.  The payload [[1]] decodes, the same
    payload fenced with the tag [js] is a [SyntaxError]. *)
Lemma parseJSON_other_tag_fails :
  Json.parse (qlit "[1]") = Ok (VArr [VNum 1 0])
  /\ parseJSON (fenced (lit "js") (qlit "[1]")) = Err SyntaxError.
Proof. split; vm_compute; reflexivity. Qed.

(** C4, amended: for a fenced block with no language tag or with the tag
    [json], with any white space around the block, [parseJSON] yields what
    [JSON.parse] yields on the payload, and for a payload that decodes that
    is also what [parseJSON] yields on the payload itself.  Of any other
    tag the opening pattern takes a leading [json] and nothing more: the
    rest of the tag stays in front of the payload, and [parseJSON] yields
    what [JSON.parse] yields on that rest, a line feed and the payload. *)
Theorem parseJSON_fenced (ws1 ws2 tag p : jstring) :
  forallb is_js_space ws1 = true -> forallb is_js_space ws2 = true ->
  (tag = [] \/ tag = lit "json" ->
   parseJSON (ws1 ++ fenced tag p ++ ws2) = Json.parse p
   /\ (forall v, Json.parse p = Ok v ->
         parseJSON (ws1 ++ fenced tag p ++ ws2) = parseJSON p))
  /\ (forall c rest, c <> nl ->
      (tag = c :: rest /\ startsWith tag (lit "json") = false)
      \/ tag = lit "json" ++ c :: rest ->
      parseJSON (ws1 ++ fenced tag p ++ ws2)
      = Json.parse (c :: rest ++ nl :: p)).
Proof.
  intros H1 H2. split.
  - intros Htag.
    assert (E : parseJSON (ws1 ++ fenced tag p ++ ws2) = Json.parse p).
    { unfold parseJSON. rewrite cleaned_fenced by assumption. reflexivity. }
    split; [exact E|].
    intros v Hv. rewrite E, Hv. symmetry. apply parseJSON_plain. exact Hv.
  - intros c rest Hc Htag. unfold parseJSON.
    destruct Htag as [[E J] | E].
    + rewrite (cleaned_fenced_kept ws1 ws2 tag (c :: rest) p []); eauto.
    + rewrite (cleaned_fenced_kept ws1 ws2 tag (c :: rest) p (lit "json"));
        eauto.
Qed.

Lemma parseJSON_fenced_witness :
  (parseJSON ([32] ++ fenced (lit "json") (qlit "[{'id':1}]") ++ [nl])
   = Json.parse (qlit "[{'id':1}]")
   /\ (forall v, Json.parse (qlit "[{'id':1}]") = Ok v ->
         parseJSON ([32] ++ fenced (lit "json") (qlit "[{'id':1}]") ++ [nl])
         = parseJSON (qlit "[{'id':1}]")))
  /\ parseJSON ([32] ++ fenced (lit "js") (qlit "[1]") ++ [nl])
     = Json.parse (lit "js" ++ nl :: qlit "[1]")
  /\ parseJSON ([32] ++ fenced (lit "json ") (qlit "[1]") ++ [nl])
     = Json.parse (lit " " ++ nl :: qlit "[1]").
Proof.
  split; [|split].
  - apply (parseJSON_fenced [32] [nl] (lit "json") (qlit "[{'id':1}]"));
      [reflexivity | reflexivity | right; reflexivity].
  - apply (parseJSON_fenced [32] [nl] (lit "js") (qlit "[1]")
             eq_refl eq_refl).
    + discriminate.
    + left. split; reflexivity.
  - apply (parseJSON_fenced [32] [nl] (lit "json ") (qlit "[1]")
             eq_refl eq_refl).
    + discriminate.
    + right. reflexivity.
Defined.

(** C6, as stated, fails: a text that decodes is never rejected for its
    shape.  An object where an array is expected, and an array whose
    record has none of the required fields, are both returned. *)
Lemma parseJSON_returns_any_shape :
  parseJSON (qlit "{'title':'T'}") = Ok (VObj [(lit "title", VStr (lit "T"))])
  /\ parseJSON (qlit "[{}]") = Ok (VArr [VObj []]).
Proof. split; vm_compute; reflexivity. Qed.

(** C6, amended: [parseJSON] fails exactly when the fence-stripped text
    does not decode as JSON, and then with the decoder's [SyntaxError];
    a text that decodes is returned as decoded, whatever its shape: every
    value that [JSON.parse] gives for the response is what [parseJSON]
    returns for it. *)
Theorem parseJSON_fails_iff_undecodable (response : jstring) :
  (parseJSON response = Err SyntaxError
   <-> Json.decode (cleaned response) = None)
  /\ (forall e, parseJSON response = Err e -> e = SyntaxError)
  /\ (forall v, Json.decode (cleaned response) = Some v
                <-> parseJSON response = Ok v)
  /\ (forall v, Json.parse response = Ok v -> parseJSON response = Ok v).
Proof.
  split; [|split; [|split]]; try apply parseJSON_plain;
    unfold parseJSON, Json.parse;
    destruct (Json.decode (cleaned response)) as [v|];
    repeat split; intros; congruence.
Qed.

(* ================================================================== *)
(** * The provider gateway and the transports *)
(* ================================================================== *)

Section Gateway.
Import Llm.

Variable fetch : Net -> Request -> result Response.

Lemma api_error_log (name : jstring) (r : Response) (n : Net) :
  snd (api_error name r n) = n.
Proof.
  unfold api_error, bind, lift, throw.
  destruct (json r) as [e|]; simpl; [|reflexivity].
  destruct (get e _); simpl; [|reflexivity].
  destruct (printable _); reflexivity.
Qed.

Ltac log_steps :=
  repeat match goal with
         | |- context [match ?r with Ok _ => _ | Err _ => _ end] =>
             destruct r; simpl
         | |- context [if ?b then _ else _] => destruct b; simpl
         end; try reflexivity.

Lemma sendToOpenAI_log (messages : list ChatMessage) (config : LLMConfig)
  (n : Net) :
  snd (sendToOpenAI fetch messages config n)
  = n ++ [openai_request messages config].
Proof.
  unfold sendToOpenAI, bind, do_fetch.
  destruct (fetch n _) as [r|]; [|reflexivity].
  destruct (ok r); simpl; [|apply api_error_log].
  unfold lift. log_steps.
Qed.

Lemma sendToGemini_log (prompt : jstring) (config : LLMConfig) (n : Net) :
  snd (sendToGemini fetch prompt config n)
  = n ++ [gemini_request prompt config].
Proof.
  unfold sendToGemini, bind, do_fetch.
  destruct (fetch n _) as [r|]; [|reflexivity].
  destruct (ok r); simpl; [|apply api_error_log].
  unfold lift, throw. log_steps.
Qed.

Lemma sendToAnthropic_log (systemPrompt : jstring)
  (messages : list ChatMessage) (config : LLMConfig) (n : Net) :
  snd (sendToAnthropic fetch systemPrompt messages config n)
  = n ++ [anthropic_request systemPrompt messages config].
Proof.
  unfold sendToAnthropic, bind, do_fetch.
  destruct (fetch n _) as [r|]; [|reflexivity].
  destruct (ok r); simpl; [|apply api_error_log].
  unfold lift. log_steps.
Qed.

(** C3: with a provider identifier other than [openai], [anthropic] and
    [gemini], [sendMessage] rejects with the unknown-provider error and the
    network is as it was: no request is issued. *)
Theorem sendMessage_unknown_provider (config : LLMConfig) (prompt : jstring)
  (systemPrompt : option jstring) (n : Net) :
  ~ In (provider config) [lit "openai"; lit "anthropic"; lit "gemini"] ->
  sendMessage fetch config prompt systemPrompt n
  = (Err (Error (lit "Unknown provider: ") (VStr (provider config))), n).
Proof.
  intros H. unfold sendMessage.
  rewrite !jstring_eqb_neq; [reflexivity | | |];
    intros E; apply H; rewrite E; simpl; auto.
Qed.

(** C7, amended: every request of the OpenAI and of the Gemini transport
    carries temperature 0.7 and a maximum of 2000 output tokens, whatever
    the config; every request of the Anthropic transport carries the
    maximum of 2000 tokens and no temperature member. *)
Theorem transports_fixed_parameters (config : LLMConfig) (n : Net) :
  (forall messages,
      let req := openai_request messages config in
      snd (sendToOpenAI fetch messages config n) = n ++ [req]
      /\ get (body req) (lit "temperature") = Ok (VNum 7 (-1))
      /\ get (body req) (lit "max_tokens") = Ok (VNum 2000 0))
  /\ (forall prompt,
      let req := gemini_request prompt config in
      snd (sendToGemini fetch prompt config n) = n ++ [req]
      /\ get (body req) (lit "generationConfig")
         = Ok (VObj [(lit "temperature", VNum 7 (-1));
                     (lit "maxOutputTokens", VNum 2000 0)]))
  /\ (forall systemPrompt messages,
      let req := anthropic_request systemPrompt messages config in
      snd (sendToAnthropic fetch systemPrompt messages config n) = n ++ [req]
      /\ get (body req) (lit "max_tokens") = Ok (VNum 2000 0)
      /\ get (body req) (lit "temperature") = Ok VUndefined).
Proof.
  split; [|split]; intros; subst req.
  - split; [apply sendToOpenAI_log | split; reflexivity].
  - split; [apply sendToGemini_log | reflexivity].
  - split; [apply sendToAnthropic_log | split; reflexivity].
Qed.

End Gateway.

(** A config that names a provider outside the closed set. *)
Lemma sendMessage_unknown_provider_witness :
  Llm.sendMessage Scenario.offline Scenario.deepseek_config (lit "hello") None []
  = (Err (Error (lit "Unknown provider: ") (VStr (lit "deepseek"))), []).
Proof.
  apply (sendMessage_unknown_provider Scenario.offline
           Scenario.deepseek_config (lit "hello") None []).
  vm_compute. intros [H | [H | [H | []]]]; discriminate H.
Defined.

(** C7, as stated, fails: the body of an Anthropic request has no
    temperature. *)
Lemma anthropic_request_has_no_temperature :
  snd (Llm.sendMessage Scenario.offline Scenario.anthropic_config
         (lit "hello") None [])
  = [Llm.anthropic_request (lit "You are a helpful assistant.")
       [ {| Llm.role := Llm.user; Llm.content := lit "hello" |} ]
       Scenario.anthropic_config]
  /\ get (Llm.body
            (Llm.anthropic_request (lit "You are a helpful assistant.")
               [ {| Llm.role := Llm.user; Llm.content := lit "hello" |} ]
               Scenario.anthropic_config))
         (lit "temperature") = Ok VUndefined.
Proof. repeat split. Qed.

(* ================================================================== *)
(** * The flows *)
(* ================================================================== *)

Lemma map_result_Forall2 {A B} (f : A -> result B) (xs : list A) (ys : list B) :
  map_result f xs = Ok ys -> Forall2 (fun x y => f x = Ok y) xs ys.
Proof.
  revert ys; induction xs as [|x xs IH]; simpl; intros ys.
  - intros E; inversion E; constructor.
  - unfold rbind at 1. destruct (f x) as [y|] eqn:Fx; [|discriminate].
    unfold rbind. destruct (map_result f xs) as [ys'|]; [|discriminate].
    intros E; inversion E; subst. constructor; auto.
Qed.

Lemma all_map_Forall2 {S A B} (f : A -> Async S B) (items : list A)
  (w w' : S) (ys : list B) :
  all_map f items w = (Ok ys, w') ->
  Forall2 (fun x y => exists w1 w2, f x w1 = (Ok y, w2)) items ys.
Proof.
  revert w ys; induction items as [|x items IH]; simpl; intros w ys.
  - intros E; inversion E; constructor.
  - destruct (f x w) as [r w1] eqn:Fx.
    destruct (all_map f items w1) as [rs w2] eqn:Rest.
    destruct r as [y|]; [|discriminate].
    destruct rs as [ys'|]; [|discriminate].
    intros E; inversion E; subst. constructor; eauto.
Qed.

Lemma all_map_resolves {S A B} (f : A -> Async S B) (items : list A) (w : S) :
  Forall (fun x => forall w1, exists y w2, f x w1 = (Ok y, w2)) items ->
  exists ys w', all_map f items w = (Ok ys, w')
                /\ List.length ys = List.length items.
Proof.
  intros H; revert w; induction H as [|x items Hx _ IH]; intros w; simpl.
  - eauto.
  - destruct (Hx w) as (y & w1 & ->).
    destruct (IH w1) as (ys & w2 & -> & L).
    exists (y :: ys), w2. simpl. auto.
Qed.

Lemma call_parseJSON_inv (response v : value) :
  call_parseJSON response = Ok v ->
  exists text, response = VStr text /\ parseJSON text = Ok v.
Proof. destruct response; simpl; try discriminate. eauto. Qed.

Lemma array_map_inv {B} (f : value -> result B) (parsed : value) (ys : list B) :
  array_map f parsed = Ok ys ->
  exists items, parsed = VArr items /\ Forall2 (fun x y => f x = Ok y) items ys.
Proof.
  destruct parsed; simpl; try discriminate.
  intros H. eexists; split; [reflexivity|]. apply map_result_Forall2, H.
Qed.

(** ** The variant with the provider config *)

Lemma chunk_of_item_fields (story : Story.t) (item : value) (c : Chunk.t) :
  WithConfig.chunk_of_item story item = Ok c ->
  get item (lit "id") = Ok (Chunk.id c)
  /\ get item (lit "title") = Ok (Chunk.title c)
  /\ get item (lit "content") = Ok (Chunk.content c)
  /\ Chunk.image c = Story.image story.
Proof.
  unfold WithConfig.chunk_of_item, rbind.
  destruct (get item (lit "id")); [|discriminate].
  destruct (get item (lit "title")); [|discriminate].
  destruct (get item (lit "content")); [|discriminate].
  intros E; inversion E; subst; simpl. auto.
Qed.

Lemma generateChunksFromStory_inv (number_to_string : Z -> Z -> jstring)
  (fetch : Llm.Net -> Llm.Request -> result Llm.Response)
  (story : Story.t) (config : Llm.LLMConfig) (net net' : Llm.Net)
  (chunks : list Chunk.t) :
  WithConfig.generateChunksFromStory number_to_string fetch story config net
  = (Ok chunks, net') ->
  exists text items,
    Prompts.generateChunks number_to_string fetch config
      (Story.title story) (Story.description story)
      (or_else (Story.relatedUrls story) (VArr [])) net
    = (Ok (VStr text), net')
    /\ parseJSON text = Ok (VArr items)
    /\ Forall2 (fun item c => WithConfig.chunk_of_item story item = Ok c)
         items chunks.
Proof.
  unfold WithConfig.generateChunksFromStory, catch, bind, lift, throw.
  destruct (Prompts.generateChunks _ _ _ _ _ _ net) as [[response|] n1];
    [|discriminate].
  destruct (call_parseJSON response) as [parsed|] eqn:P; [|discriminate].
  destruct (array_map _ parsed) as [ys|] eqn:A; [|discriminate].
  intros E; inversion E; subst.
  apply call_parseJSON_inv in P as (text & -> & P).
  apply array_map_inv in A as (items & -> & A).
  eauto.
Qed.

(** C10: in the flow that takes the config, every chunk of the returned
    list has the input story's image as its image. *)
Theorem chunks_share_story_image (number_to_string : Z -> Z -> jstring)
  (fetch : Llm.Net -> Llm.Request -> result Llm.Response)
  (story : Story.t) (config : Llm.LLMConfig) (net net' : Llm.Net)
  (chunks : list Chunk.t) :
  WithConfig.generateChunksFromStory number_to_string fetch story config net
  = (Ok chunks, net') ->
  Forall (fun c => Chunk.image c = Story.image story) chunks.
Proof.
  intros H. apply generateChunksFromStory_inv in H as (text & items & _ & _ & F).
  induction F as [|item c items chunks Hc _ IH]; constructor; auto.
  apply chunk_of_item_fields in Hc. tauto.
Qed.

Lemma chunks_share_story_image_witness :
  exists chunks net',
    WithConfig.generateChunksFromStory Scenario.print_integer
      (Scenario.answering Scenario.two_chunks)
      Scenario.ai_story Scenario.openai_config [] = (Ok chunks, net')
    /\ List.length chunks = 2%nat
    /\ Forall (fun c => Chunk.image c = VStr (lit "https://images.example/ai.png"))
         chunks.
Proof.
  eexists. eexists. split; [vm_compute; reflexivity|].
  split; [reflexivity|].
  eapply (chunks_share_story_image Scenario.print_integer
            (Scenario.answering Scenario.two_chunks)
            Scenario.ai_story Scenario.openai_config [] _ _).
  vm_compute. reflexivity.
Defined.

(** C2, as stated, fails: nothing truncates.  With a provider that
    answers six chunk records, the flow returns six chunks. *)
Lemma six_records_give_six_chunks :
  match fst (WithConfig.generateChunksFromStory Scenario.print_integer
               (Scenario.answering Scenario.six_chunks)
               Scenario.ai_story Scenario.openai_config []) with
  | Ok chunks =>
      map Chunk.id chunks
      = [VNum 1 0; VNum 2 0; VNum 3 0; VNum 4 0; VNum 5 0; VNum 6 0]
  | Err _ => False
  end.
Proof. vm_compute. reflexivity. Qed.

(** ** The variant that resolves images *)

Section ImageFlows.

Variable W : Type.
Variable llm_generateStories : list jstring -> Async W value.
Variable llm_generateChunks : value -> value -> value -> value -> Async W value.
Variable getCachedPhotoUrl : value -> Async W jstring.
Variable getFallbackImage : value -> result jstring.

Let getImageForKeywords :=
  WithImages.getImageForKeywords W getCachedPhotoUrl getFallbackImage.
Let story_of_item :=
  WithImages.story_of_item W getCachedPhotoUrl getFallbackImage.
Let chunk_of_item :=
  WithImages.chunk_of_item W getCachedPhotoUrl getFallbackImage.
Let generateStoriesFromHistory :=
  WithImages.generateStoriesFromHistory W llm_generateStories
    getCachedPhotoUrl getFallbackImage.
Let generateChunksFromStory :=
  WithImages.generateChunksFromStory W llm_generateChunks
    getCachedPhotoUrl getFallbackImage.

Lemma story_keywords_get (item keywords : value) :
  WithImages.story_keywords item = Ok keywords ->
  forall name, get item name = Ok (get_opt item name).
Proof.
  unfold WithImages.story_keywords, rbind, get_opt.
  intros H name. destruct item; try discriminate; simpl;
    try reflexivity. destruct (assoc name fields); reflexivity.
Qed.

Lemma chunk_keywords_get (story : Story.t) (item keywords : value) :
  WithImages.chunk_keywords story item = Ok keywords ->
  forall name, get item name = Ok (get_opt item name).
Proof.
  unfold WithImages.chunk_keywords, rbind, get_opt.
  intros H name. destruct item; try discriminate; simpl;
    try reflexivity. destruct (assoc name fields); reflexivity.
Qed.

Lemma story_of_item_fields (item : value) (w w' : W) (s : Story.t) :
  story_of_item item w = (Ok s, w') ->
  WithImages.story_keywords item = Ok (Story.imageKeywords s)
  /\ Story.id s = get_opt item (lit "id")
  /\ Story.title s = get_opt item (lit "title")
  /\ Story.description s = get_opt item (lit "description")
  /\ exists url, Story.image s = VStr url
                 /\ getImageForKeywords (Story.imageKeywords s) w = (Ok url, w').
Proof.
  unfold story_of_item, WithImages.story_of_item, bind, lift.
  destruct (WithImages.story_keywords item) as [keywords|] eqn:K;
    [|discriminate].
  fold getImageForKeywords.
  destruct (getImageForKeywords keywords w) as [[url|] w1] eqn:G;
    [|discriminate].
  rewrite !(story_keywords_get _ _ K). unfold rbind.
  intros E; inversion E; subst; simpl. eauto 10.
Qed.

Lemma chunk_of_item_image_fields (story : Story.t) (item : value)
  (w w' : W) (c : Chunk.t) :
  chunk_of_item story item w = (Ok c, w') ->
  WithImages.chunk_keywords story item = Ok (Chunk.imageKeywords c)
  /\ Chunk.id c = get_opt item (lit "id")
  /\ Chunk.title c = get_opt item (lit "title")
  /\ Chunk.content c = get_opt item (lit "content")
  /\ exists url, Chunk.image c = VStr url
                 /\ getImageForKeywords (Chunk.imageKeywords c) w = (Ok url, w').
Proof.
  unfold chunk_of_item, WithImages.chunk_of_item, bind, lift.
  destruct (WithImages.chunk_keywords story item) as [keywords|] eqn:K;
    [|discriminate].
  fold getImageForKeywords.
  destruct (getImageForKeywords keywords w) as [[url|] w1] eqn:G;
    [|discriminate].
  rewrite !(chunk_keywords_get _ _ _ K). unfold rbind.
  intros E; inversion E; subst; simpl. eauto 10.
Qed.

Lemma all_of_inv {B} (f : value -> Async W B) (parsed : value) (w w' : W)
  (ys : list B) :
  WithImages.all_of W f parsed w = (Ok ys, w') ->
  exists items, parsed = VArr items
    /\ Forall2 (fun x y => exists w1 w2, f x w1 = (Ok y, w2)) items ys.
Proof.
  destruct parsed; simpl; try discriminate.
  intros H. eexists; split; [reflexivity|]. eapply all_map_Forall2, H.
Qed.

Lemma generateStoriesFromHistory_inv (urls : list jstring) (w w' : W)
  (stories : list Story.t) :
  generateStoriesFromHistory urls w = (Ok stories, w') ->
  exists text items w1,
    llm_generateStories urls w = (Ok (VStr text), w1)
    /\ parseJSON text = Ok (VArr items)
    /\ Forall2 (fun item s => exists w2 w3, story_of_item item w2 = (Ok s, w3))
         items stories.
Proof.
  unfold generateStoriesFromHistory, WithImages.generateStoriesFromHistory,
    catch, bind, lift, throw.
  destruct (llm_generateStories urls w) as [[response|] w1]; [|discriminate].
  destruct (call_parseJSON response) as [parsed|] eqn:P; [|discriminate].
  destruct (WithImages.all_of _ _ parsed w1) as [[ys|] w2] eqn:A;
    [|discriminate].
  intros E; inversion E; subst.
  apply call_parseJSON_inv in P as (text & -> & P).
  apply all_of_inv in A as (items & -> & A).
  eauto 10.
Qed.

Lemma generateChunksFromStory_images_inv (story : Story.t) (w w' : W)
  (chunks : list Chunk.t) :
  generateChunksFromStory story w = (Ok chunks, w') ->
  exists text items w1,
    llm_generateChunks (Story.title story) (Story.description story)
      (or_else (Story.relatedUrls story) (VArr []))
      (Story.imageKeywords story) w = (Ok (VStr text), w1)
    /\ parseJSON text = Ok (VArr items)
    /\ Forall2 (fun item c =>
                  exists w2 w3, chunk_of_item story item w2 = (Ok c, w3))
         items chunks.
Proof.
  unfold generateChunksFromStory, WithImages.generateChunksFromStory,
    catch, bind, lift, throw.
  destruct (llm_generateChunks _ _ _ _ w) as [[response|] w1]; [|discriminate].
  destruct (call_parseJSON response) as [parsed|] eqn:P; [|discriminate].
  destruct (WithImages.all_of _ _ parsed w1) as [[ys|] w2] eqn:A;
    [|discriminate].
  intros E; inversion E; subst.
  apply call_parseJSON_inv in P as (text & -> & P).
  apply all_of_inv in A as (items & -> & A).
  eauto 10.
Qed.

End ImageFlows.

Lemma Forall2_map_eq {A B C} (f : A -> C) (g : B -> C) (R : A -> B -> Prop)
  (xs : list A) (ys : list B) :
  (forall x y, R x y -> g y = f x) ->
  Forall2 R xs ys -> map g ys = map f xs.
Proof.
  intros H F; induction F; simpl; [reflexivity|].
  f_equal; auto.
Qed.

Lemma get_opt_of_get (item v : value) (name : jstring) :
  get item name = Ok v -> get_opt item name = v.
Proof. unfold get_opt. intros ->. reflexivity. Qed.

Section ImageClaims.

Variable W : Type.
Variable llm_generateStories : list jstring -> Async W value.
Variable llm_generateChunks : value -> value -> value -> value -> Async W value.
Variable getCachedPhotoUrl : value -> Async W jstring.
Variable getFallbackImage : value -> result jstring.

Lemma getImageForKeywords_resolves (k : jstring) (w : W) :
  (exists u, getFallbackImage (VStr k) = Ok u) ->
  exists url w',
    WithImages.getImageForKeywords W getCachedPhotoUrl getFallbackImage
      (VStr k) w = (Ok url, w')
    /\ (forall e w1, getCachedPhotoUrl (VStr k) w = (Err e, w1) ->
          getFallbackImage (VStr k) = Ok url).
Proof.
  intros [u Hu]. unfold WithImages.getImageForKeywords, catch, lift.
  destruct (getCachedPhotoUrl (VStr k) w) as [[url|e] w1].
  - exists url, w1. split; [reflexivity|]. intros; discriminate.
  - exists u, w1. rewrite Hu. split; [reflexivity|]. intros; reflexivity.
Qed.

Lemma story_of_item_resolves (item : value) (k : jstring) (w : W) :
  (exists u, getFallbackImage (VStr k) = Ok u) ->
  WithImages.story_keywords item = Ok (VStr k) ->
  exists s w',
    WithImages.story_of_item W getCachedPhotoUrl getFallbackImage item w
    = (Ok s, w').
Proof.
  intros Hu K. unfold WithImages.story_of_item, bind, lift. rewrite K.
  destruct (getImageForKeywords_resolves k w Hu) as (url & w' & -> & _).
  rewrite !(story_keywords_get _ _ K). unfold rbind. eauto.
Qed.

(** C1: with a fallback that is defined on every keyword string, image
    resolution resolves with a URL for every keyword string and every
    behaviour of the lookup; when the lookup rejects, the URL is the
    fallback of the keywords, the same whenever and however the lookup
    failed.  So the story flow resolves, with one story per record,
    whenever the provider answers an array of records with string
    keywords, whatever the lookups do. *)
Theorem image_resolution_never_fails :
  (forall k, exists u, getFallbackImage (VStr k) = Ok u) ->
  (forall k w, exists url w',
      WithImages.getImageForKeywords W getCachedPhotoUrl getFallbackImage
        (VStr k) w = (Ok url, w')
      /\ (forall e w1, getCachedPhotoUrl (VStr k) w = (Err e, w1) ->
            getFallbackImage (VStr k) = Ok url))
  /\ (forall k w1 w2 e1 e2 w1' w2',
      getCachedPhotoUrl (VStr k) w1 = (Err e1, w1') ->
      getCachedPhotoUrl (VStr k) w2 = (Err e2, w2') ->
      fst (WithImages.getImageForKeywords W getCachedPhotoUrl getFallbackImage
             (VStr k) w1)
      = fst (WithImages.getImageForKeywords W getCachedPhotoUrl
               getFallbackImage (VStr k) w2))
  /\ (forall urls w text w1 items,
      llm_generateStories urls w = (Ok (VStr text), w1) ->
      parseJSON text = Ok (VArr items) ->
      Forall (fun item => exists k, WithImages.story_keywords item = Ok (VStr k))
        items ->
      exists stories w',
        WithImages.generateStoriesFromHistory W llm_generateStories
          getCachedPhotoUrl getFallbackImage urls w = (Ok stories, w')
        /\ List.length stories = List.length items).
Proof.
  intros Hfb. split; [|split].
  - intros k w. apply getImageForKeywords_resolves, Hfb.
  - intros k w1 w2 e1 e2 w1' w2' L1 L2.
    unfold WithImages.getImageForKeywords, catch, lift.
    rewrite L1, L2. reflexivity.
  - intros urls w text w1 items L P F.
    unfold WithImages.generateStoriesFromHistory, catch, bind, lift.
    rewrite L. simpl. rewrite P. simpl.
    destruct (all_map_resolves
                (WithImages.story_of_item W getCachedPhotoUrl getFallbackImage)
                items w1) as (stories & w' & -> & Len).
    + eapply Forall_impl; [|exact F].
      intros item [k K] w2. eapply story_of_item_resolves; eauto.
    + eauto.
Qed.

(** C9, amended: the flows build one entity per record and copy the id of
    the record as it is: a record without id gives an entity whose id is
    [undefined], equal ids stay equal, and no fallback id is assigned. *)
Theorem ids_copied_from_records :
  (forall urls w w' stories,
      WithImages.generateStoriesFromHistory W llm_generateStories
        getCachedPhotoUrl getFallbackImage urls w = (Ok stories, w') ->
      exists text items w1,
        llm_generateStories urls w = (Ok (VStr text), w1)
        /\ parseJSON text = Ok (VArr items)
        /\ map Story.id stories
           = map (fun item => get_opt item (lit "id")) items)
  /\ (forall story w w' chunks,
      WithImages.generateChunksFromStory W llm_generateChunks
        getCachedPhotoUrl getFallbackImage story w = (Ok chunks, w') ->
      exists text items w1,
        llm_generateChunks (Story.title story) (Story.description story)
          (or_else (Story.relatedUrls story) (VArr []))
          (Story.imageKeywords story) w = (Ok (VStr text), w1)
        /\ parseJSON text = Ok (VArr items)
        /\ map Chunk.id chunks
           = map (fun item => get_opt item (lit "id")) items).
Proof.
  split.
  - intros urls w w' stories H.
    apply generateStoriesFromHistory_inv in H as (text & items & w1 & L & P & F).
    exists text, items, w1. repeat split; auto.
    eapply Forall2_map_eq; [|exact F].
    intros item s (w2 & w3 & Hs). apply story_of_item_fields in Hs. tauto.
  - intros story w w' chunks H.
    apply generateChunksFromStory_images_inv in H
      as (text & items & w1 & L & P & F).
    exists text, items, w1. repeat split; auto.
    eapply Forall2_map_eq; [|exact F].
    intros item c (w2 & w3 & Hc). apply chunk_of_item_image_fields in Hc. tauto.
Qed.

(** C2, amended: both chunk flows return one chunk per record of the
    provider's array, in the order of the records, with the title and the
    content of the record: five chunks exactly when the provider answered
    five records; nothing is truncated and nothing is made up. *)
Theorem chunks_follow_records :
  (forall number_to_string fetch story config net net' chunks,
      WithConfig.generateChunksFromStory number_to_string fetch story config net
      = (Ok chunks, net') ->
      exists text items,
        Prompts.generateChunks number_to_string fetch config
          (Story.title story) (Story.description story)
          (or_else (Story.relatedUrls story) (VArr [])) net
        = (Ok (VStr text), net')
        /\ parseJSON text = Ok (VArr items)
        /\ List.length chunks = List.length items
        /\ map Chunk.title chunks
           = map (fun item => get_opt item (lit "title")) items
        /\ map Chunk.content chunks
           = map (fun item => get_opt item (lit "content")) items)
  /\ (forall story w w' chunks,
      WithImages.generateChunksFromStory W llm_generateChunks
        getCachedPhotoUrl getFallbackImage story w = (Ok chunks, w') ->
      exists text items w1,
        llm_generateChunks (Story.title story) (Story.description story)
          (or_else (Story.relatedUrls story) (VArr []))
          (Story.imageKeywords story) w = (Ok (VStr text), w1)
        /\ parseJSON text = Ok (VArr items)
        /\ List.length chunks = List.length items
        /\ map Chunk.title chunks
           = map (fun item => get_opt item (lit "title")) items
        /\ map Chunk.content chunks
           = map (fun item => get_opt item (lit "content")) items).
Proof.
  split.
  - intros nts fetch story config net net' chunks H.
    apply generateChunksFromStory_inv in H as (text & items & L & P & F).
    exists text, items. repeat split; auto.
    + symmetry. eapply Forall2_length, F.
    + eapply Forall2_map_eq; [|exact F].
      intros item c Hc. apply chunk_of_item_fields in Hc.
      symmetry. apply get_opt_of_get. tauto.
    + eapply Forall2_map_eq; [|exact F].
      intros item c Hc. apply chunk_of_item_fields in Hc.
      symmetry. apply get_opt_of_get. tauto.
  - intros story w w' chunks H.
    apply generateChunksFromStory_images_inv in H
      as (text & items & w1 & L & P & F).
    exists text, items, w1. repeat split; auto.
    + symmetry. eapply Forall2_length, F.
    + eapply Forall2_map_eq; [|exact F].
      intros item c (w2 & w3 & Hc). apply chunk_of_item_image_fields in Hc. tauto.
    + eapply Forall2_map_eq; [|exact F].
      intros item c (w2 & w3 & Hc). apply chunk_of_item_image_fields in Hc. tauto.
Qed.

(** C8, amended: for a record with no imageKeywords member, the keywords
    of a story are the record's legacy image member or else its own title,
    and the keywords of a chunk are the record's legacy image member, or
    else the keywords of the story, or else the title of the story; the
    chunk's own title is not used. *)
Theorem keywords_without_imageKeywords (story : Story.t) (item : value) :
  get item (lit "imageKeywords") = Ok VUndefined ->
  WithImages.story_keywords item
  = Ok (or_else (get_opt item (lit "image")) (get_opt item (lit "title")))
  /\ WithImages.chunk_keywords story item
     = Ok (or_else (or_else (get_opt item (lit "image"))
                            (Story.imageKeywords story))
                   (Story.title story))
  /\ (forall w w' s,
        WithImages.story_of_item W getCachedPhotoUrl getFallbackImage item w
        = (Ok s, w') ->
        Story.imageKeywords s
        = or_else (get_opt item (lit "image")) (Story.title s))
  /\ (forall w w' c,
        WithImages.chunk_of_item W getCachedPhotoUrl getFallbackImage
          story item w = (Ok c, w') ->
        Chunk.imageKeywords c
        = or_else (or_else (get_opt item (lit "image"))
                           (Story.imageKeywords story))
                  (Story.title story)).
Proof.
  intros H.
  assert (G : forall name, get item name = Ok (get_opt item name)).
  { intros name. unfold get_opt.
    destruct item; try discriminate; simpl; try reflexivity.
    destruct (assoc name fields); reflexivity. }
  assert (S : WithImages.story_keywords item
              = Ok (or_else (get_opt item (lit "image"))
                            (get_opt item (lit "title")))).
  { unfold WithImages.story_keywords. rewrite H. unfold rbind at 1.
    rewrite (G (lit "image")), (G (lit "title")). reflexivity. }
  assert (C : WithImages.chunk_keywords story item
              = Ok (or_else (or_else (get_opt item (lit "image"))
                                     (Story.imageKeywords story))
                            (Story.title story))).
  { unfold WithImages.chunk_keywords. rewrite H. unfold rbind at 1.
    rewrite (G (lit "image")). reflexivity. }
  repeat split; auto.
  - intros w w' s Hs. apply story_of_item_fields in Hs as (K & _ & T & _).
    rewrite S in K. inversion K. rewrite T. reflexivity.
  - intros w w' c Hc. apply chunk_of_item_image_fields in Hc as (K & _).
    rewrite C in K. inversion K. reflexivity.
Qed.

End ImageClaims.

(** ** The flows on the scenarios *)

(** The image service is down and the provider answers three story
    records: every image is the fallback and the flow resolves. *)
Lemma image_resolution_never_fails_witness :
  (exists w',
      WithImages.getImageForKeywords unit Scenario.lookup_down
        Scenario.fallback_url (VStr (lit "robot")) tt
      = (Ok (lit "https://fallback.example/?q=robot"), w'))
  /\ (exists stories w',
        WithImages.generateStoriesFromHistory unit
          (fun _ => Scenario.llm_answering Scenario.three_stories)
          Scenario.lookup_down Scenario.fallback_url
          [lit "https://a.example.com/x"] tt = (Ok stories, w')
        /\ List.length stories = 3%nat).
Proof.
  destruct (image_resolution_never_fails unit
              (fun _ => Scenario.llm_answering Scenario.three_stories)
              Scenario.lookup_down Scenario.fallback_url) as (H1 & _ & H2).
  - intros k. eexists. reflexivity.
  - split.
    + destruct (H1 (lit "robot") tt) as (url & w' & E & F).
      exists w'. rewrite E.
      specialize (F (Rejected (lit "rate limit")) tt eq_refl).
      inversion F. reflexivity.
    + edestruct (H2 [lit "https://a.example.com/x"] tt Scenario.three_stories tt)
        as (stories & w' & E & L).
      * reflexivity.
      * vm_compute. reflexivity.
      * repeat constructor; eexists; vm_compute; reflexivity.
      * exists stories, w'. split; [exact E | rewrite L; reflexivity].
Defined.

(** C9, as stated, fails: two records with the id 1 and a record with no
    id give stories whose ids are 1, 1 and [undefined]. *)
Lemma repeated_and_missing_ids_are_kept :
  match fst (WithImages.generateStoriesFromHistory unit
               (fun _ => Scenario.llm_answering Scenario.three_stories)
               Scenario.lookup_down Scenario.fallback_url
               [lit "https://a.example.com/x"] tt) with
  | Ok stories => map Story.id stories = [VNum 1 0; VNum 1 0; VUndefined]
  | Err _ => False
  end.
Proof. vm_compute. reflexivity. Qed.

Lemma ids_copied_from_records_witness :
  (exists stories w',
      WithImages.generateStoriesFromHistory unit
        (fun _ => Scenario.llm_answering Scenario.three_stories)
        Scenario.lookup_down Scenario.fallback_url [] tt = (Ok stories, w')
      /\ exists text items w1,
           Scenario.llm_answering Scenario.three_stories tt = (Ok (VStr text), w1)
           /\ parseJSON text = Ok (VArr items)
           /\ map Story.id stories
              = map (fun item => get_opt item (lit "id")) items)
  /\ (exists chunks w',
      WithImages.generateChunksFromStory unit
        (fun _ _ _ _ => Scenario.llm_answering Scenario.two_chunks)
        Scenario.lookup_down Scenario.fallback_url Scenario.ai_story tt
      = (Ok chunks, w')
      /\ exists text items w1,
           Scenario.llm_answering Scenario.two_chunks tt = (Ok (VStr text), w1)
           /\ parseJSON text = Ok (VArr items)
           /\ map Chunk.id chunks
              = map (fun item => get_opt item (lit "id")) items).
Proof.
  pose proof (ids_copied_from_records unit
                (fun _ => Scenario.llm_answering Scenario.three_stories)
                (fun _ _ _ _ => Scenario.llm_answering Scenario.two_chunks)
                Scenario.lookup_down Scenario.fallback_url) as [H1 H2].
  split.
  - eexists. eexists. split; [vm_compute; reflexivity|].
    eapply (H1 [] tt). vm_compute. reflexivity.
  - eexists. eexists. split; [vm_compute; reflexivity|].
    eapply (H2 Scenario.ai_story tt). vm_compute. reflexivity.
Defined.

Lemma chunks_follow_records_witness :
  (exists chunks net',
      WithConfig.generateChunksFromStory Scenario.print_integer
        (Scenario.answering Scenario.two_chunks)
        Scenario.ai_story Scenario.openai_config [] = (Ok chunks, net')
      /\ exists text items,
           Prompts.generateChunks Scenario.print_integer
             (Scenario.answering Scenario.two_chunks) Scenario.openai_config
             (Story.title Scenario.ai_story)
             (Story.description Scenario.ai_story)
             (or_else (Story.relatedUrls Scenario.ai_story) (VArr [])) []
           = (Ok (VStr text), net')
           /\ parseJSON text = Ok (VArr items)
           /\ List.length chunks = List.length items
           /\ map Chunk.title chunks
              = map (fun item => get_opt item (lit "title")) items
           /\ map Chunk.content chunks
              = map (fun item => get_opt item (lit "content")) items)
  /\ (exists chunks w',
      WithImages.generateChunksFromStory unit
        (fun _ _ _ _ => Scenario.llm_answering Scenario.six_chunks)
        Scenario.lookup_down Scenario.fallback_url Scenario.ai_story tt
      = (Ok chunks, w')
      /\ List.length chunks = 6%nat).
Proof.
  pose proof (chunks_follow_records unit
                (fun _ _ _ _ => Scenario.llm_answering Scenario.six_chunks)
                Scenario.lookup_down Scenario.fallback_url) as [H1 _].
  split.
  - eexists. eexists. split; [vm_compute; reflexivity|].
    edestruct (H1 Scenario.print_integer (Scenario.answering Scenario.two_chunks)
                 Scenario.ai_story Scenario.openai_config [])
      as (text & items & G & P & Len & T & C).
    + vm_compute. reflexivity.
    + exists text, items. repeat split; assumption.
  - eexists. eexists. split; [vm_compute; reflexivity|]. reflexivity.
Defined.

(** C8, as stated, fails.  A story record with a legacy image member and
    no imageKeywords takes the image member, not its title; a chunk
    record with neither takes the title of the story, not its own. *)
Lemma keywords_are_not_the_own_title :
  get Scenario.legacy_story_record (lit "imageKeywords") = Ok VUndefined
  /\ WithImages.story_keywords Scenario.legacy_story_record
     = Ok (VStr (lit "legacy"))
  /\ get Scenario.plain_chunk_record (lit "imageKeywords") = Ok VUndefined
  /\ get Scenario.plain_chunk_record (lit "title")
     = Ok (VStr (lit "Chunk title"))
  /\ WithImages.chunk_keywords Scenario.ai_story Scenario.plain_chunk_record
     = Ok (VStr (lit "AI Revolution")).
Proof. repeat split. Qed.

Lemma keywords_without_imageKeywords_witness :
  WithImages.story_keywords Scenario.plain_chunk_record
  = Ok (VStr (lit "Chunk title"))
  /\ WithImages.chunk_keywords Scenario.ai_story Scenario.plain_chunk_record
     = Ok (VStr (lit "AI Revolution")).
Proof.
  destruct (keywords_without_imageKeywords unit Scenario.lookup_down
              Scenario.fallback_url Scenario.ai_story
              Scenario.plain_chunk_record)
    as (S & C & _).
  - reflexivity.
  - split; [rewrite S | rewrite C]; reflexivity.
Defined.

(* ================================================================== *)
(** * The chat handler *)
(* ================================================================== *)

Section Chat.
Import Llm Chatbot.

Variable number_to_string : Z -> Z -> jstring.
Variable lower_table : jstring -> jstring.
Variable fetch : Net -> Request -> result Response.

Lemma fallback_for_why (storyTitle : jstring) :
  generateFallbackResponse lower_table Scenario.why_message storyTitle = why_reply.
Proof. reflexivity. Qed.

(** C5, amended: with no provider configured, the message "why does this
    matter" is answered with the fixed, non-empty "why" reply, the same
    for every story (the story title is not part of it), and the network
    is as it was: no request is issued. *)
Theorem chat_why_without_provider (st : State) (s : Story.t) (net : Net) :
  story st = Some s ->
  isTyping st = false ->
  input st = Scenario.why_message ->
  handleSend number_to_string lower_table fetch (Ok None) st net
  = ({| messages :=
          messages st
          ++ [ {| Message.id := List.length (messages st) + 1;
                  Message.text := VStr Scenario.why_message;
                  Message.sender := Message.user |};
               {| Message.id := List.length (messages st) + 2;
                  Message.text := VStr why_reply;
                  Message.sender := Message.bot |} ];
        input := [];
        isTyping := false;
        story := Some s;
        chunks := chunks st |}, net)
  /\ why_reply <> [].
Proof.
  intros Hs Ht Hi. split; [|discriminate].
  unfold handleSend, respond, bind, lift, ret.
  rewrite Hs, Ht, Hi. rewrite fallback_for_why. reflexivity.
Qed.

End Chat.

Lemma chat_why_without_provider_witness :
  map Message.text
    (Chatbot.messages
       (fst (Chatbot.handleSend Scenario.print_integer Scenario.no_table
               Scenario.offline (Ok None) ChatScenario.asking_why [])))
  = [VStr Scenario.why_message; VStr Chatbot.why_reply]
  /\ snd (Chatbot.handleSend Scenario.print_integer Scenario.no_table
            Scenario.offline (Ok None) ChatScenario.asking_why []) = [].
Proof.
  destruct (chat_why_without_provider Scenario.print_integer Scenario.no_table
              Scenario.offline ChatScenario.asking_why
              (Scenario.story_titled (lit "AI Revolution")) [])
    as [E _]; try reflexivity.
  rewrite E. split; reflexivity.
Defined.

(** C5, as stated, fails: for the story titled "AI Revolution" the reply
    to "why does this matter" does not contain the title. *)
Lemma why_reply_omits_the_title :
  map Message.text
    (Chatbot.messages
       (fst (Chatbot.handleSend Scenario.print_integer Scenario.no_table
               Scenario.offline (Ok None) ChatScenario.asking_why [])))
  = [VStr Scenario.why_message; VStr Chatbot.why_reply]
  /\ includes Chatbot.why_reply (lit "AI Revolution") = false.
Proof. split; vm_compute; reflexivity. Qed.

Lemma parseJSON_fails_iff_undecodable_witness :
  parseJSON (qlit "[{'id':1,") = Err SyntaxError
  /\ parseJSON (qlit "{'id':1}") = Ok (VObj [(lit "id", VNum 1 0)]).
Proof.
  destruct (parseJSON_fails_iff_undecodable (qlit "[{'id':1,")) as (F & _).
  destruct (parseJSON_fails_iff_undecodable (qlit "{'id':1}")) as (_ & _ & _ & R).
  split; [apply F | apply R]; vm_compute; reflexivity.
Defined.

(* ================================================================== *)
(** * The flows on whole scenarios *)
(* ================================================================== *)

(** The end-to-end scenario of the specification: the fenced answer gives
    one story, with the fields of its record and the image resolved for
    the keywords [k]. *)
Example stories_from_fenced_answer :
  fst (WithImages.generateStoriesFromHistory unit
         (fun _ => Scenario.llm_answering Scenario.fenced_story)
         Scenario.lookup_down Scenario.fallback_url
         [lit "https://a.example.com/x"; lit "https://b.example.com/y"] tt)
  = Ok [ {| Story.id := VNum 1 0;
            Story.title := VStr (lit "T");
            Story.description := VStr (lit "D");
            Story.image := VStr (lit "https://fallback.example/?q=k");
            Story.imageKeywords := VStr (lit "k");
            Story.relatedUrls := VArr [VStr (lit "https://a.example.com/x")] |} ].
Proof. vm_compute. reflexivity. Qed.

(** With a provider configured and the network down, the chat handler
    issues one request and answers with the apology. *)
Example chat_apologises_when_offline :
  map Message.text
    (Chatbot.messages
       (fst (Chatbot.handleSend Scenario.print_integer Scenario.no_table
               Scenario.offline (Ok (Some Scenario.openai_config))
               ChatScenario.asking_why [])))
  = [VStr Scenario.why_message; VStr Chatbot.apology]
  /\ List.length
       (snd (Chatbot.handleSend Scenario.print_integer Scenario.no_table
               Scenario.offline (Ok (Some Scenario.openai_config))
               ChatScenario.asking_why [])) = 1%nat.
Proof. split; vm_compute; reflexivity. Qed.

(** A response that is not an array makes the flow reject where it maps
    over the records, not in [parseJSON]. *)
Example object_answer_rejects_at_map :
  fst (WithConfig.generateChunksFromStory Scenario.print_integer
         (Scenario.answering (qlit "{'chunks':[]}"))
         Scenario.ai_story Scenario.openai_config [])
  = Err TypeError.
Proof. vm_compute. reflexivity. Qed.

(* ================================================================== *)
(** * More on the gateway and the transports *)
(* ================================================================== *)

Section GatewayMore.
Import Llm.

Variable fetch : Net -> Request -> result Response.

Lemma sendMessage_unknown_log (config : LLMConfig) (prompt : jstring)
  (systemPrompt : option jstring) (n : Net) :
  JsString.eqb (provider config) (lit "openai") = false ->
  JsString.eqb (provider config) (lit "anthropic") = false ->
  JsString.eqb (provider config) (lit "gemini") = false ->
  sendMessage fetch config prompt systemPrompt n
  = (Err (Error (lit "Unknown provider: ") (VStr (provider config))), n).
Proof. intros H1 H2 H3. unfold sendMessage. rewrite H1, H2, H3. reflexivity. Qed.

Lemma sendMessage_log_bound (config : LLMConfig) (prompt : jstring)
  (systemPrompt : option jstring) (n : Net) :
  exists issued,
    snd (sendMessage fetch config prompt systemPrompt n) = n ++ issued
    /\ (List.length issued <= 1)%nat.
Proof.
  unfold sendMessage.
  destruct (JsString.eqb (provider config) (lit "openai"));
    [eexists [_]; rewrite sendToOpenAI_log; auto|].
  destruct (JsString.eqb (provider config) (lit "anthropic"));
    [eexists [_]; rewrite sendToAnthropic_log; auto|].
  destruct (JsString.eqb (provider config) (lit "gemini"));
    [eexists [_]; rewrite sendToGemini_log; auto|].
  exists []. simpl. rewrite app_nil_r. auto.
Qed.

(** X1: whatever the provider, the prompt and the remote side do,
    [sendMessage] issues at most one request: none for an unknown
    provider, otherwise exactly one, to the endpoint of the configured
    provider.  Nothing is retried. *)
Theorem sendMessage_issues_at_most_one_request (config : LLMConfig)
  (prompt : jstring) (systemPrompt : option jstring) (n : Net) :
  exists issued,
    snd (sendMessage fetch config prompt systemPrompt n) = n ++ issued
    /\ match issued with
       | [] => ~ In (provider config)
                  [lit "openai"; lit "anthropic"; lit "gemini"]
       | [req] =>
           method req = lit "POST"
           /\ ((provider config = lit "openai"
                /\ url req = lit "https://api.openai.com/v1/chat/completions")
               \/ (provider config = lit "anthropic"
                   /\ url req = lit "https://api.anthropic.com/v1/messages")
               \/ (provider config = lit "gemini"
                   /\ startsWith (url req)
                        (lit "https://generativelanguage.googleapis.com/v1beta/models/")
                      = true))
       | _ => False
       end.
Proof.
  unfold sendMessage.
  destruct (JsString.eqb (provider config) (lit "openai")) eqn:E1.
  { eexists [_]. rewrite sendToOpenAI_log. split; [reflexivity|].
    apply jstring_eqb_eq in E1. split; [reflexivity|]. left. split; auto. }
  destruct (JsString.eqb (provider config) (lit "anthropic")) eqn:E2.
  { eexists [_]. rewrite sendToAnthropic_log. split; [reflexivity|].
    apply jstring_eqb_eq in E2. split; [reflexivity|].
    right; left. split; auto. }
  destruct (JsString.eqb (provider config) (lit "gemini")) eqn:E3.
  { eexists [_]. rewrite sendToGemini_log. split; [reflexivity|].
    apply jstring_eqb_eq in E3. split; [reflexivity|].
    right; right. split; [assumption|].
    unfold gemini_request. cbn [url]. apply startsWith_app. }
  exists []. split; [simpl; rewrite app_nil_r; reflexivity|].
  intros [H | [H | [H | []]]]; symmetry in H; apply jstring_eqb_eq in H;
    congruence.
Qed.

(** The outcome of a transport on a response that is not ok. *)
Lemma api_error_outcome (name : jstring) (r : Response) (n : Net)
  (payload detail : value) :
  json r = Ok payload -> get payload (lit "error") = Ok detail ->
  api_error name r n
  = (Err (let shown := or_else (get_opt detail (lit "message"))
                               (VStr (statusText r)) in
          if printable shown
          then Error (name ++ lit " API error: ") shown
          else TypeError), n).
Proof.
  intros J D. unfold api_error, bind, lift, throw. rewrite J, D. simpl.
  destruct (printable _); reflexivity.
Qed.

Lemma api_error_rejects (name : jstring) (r : Response) (n : Net) :
  exists e, api_error name r n = (Err e, n).
Proof.
  unfold api_error, bind, lift, throw.
  destruct (json r) as [payload|e]; [|eauto].
  destruct (get payload (lit "error")); simpl; [|eauto].
  destruct (printable _); eauto.
Qed.

Lemma sendToOpenAI_not_ok (r : Response) (messages : list ChatMessage)
  (config : LLMConfig) (n : Net) :
  fetch n (openai_request messages config) = Ok r -> ok r = false ->
  sendToOpenAI fetch messages config n
  = api_error (lit "OpenAI") r (n ++ [openai_request messages config]).
Proof. intros F K. unfold sendToOpenAI, bind, do_fetch. rewrite F, K. reflexivity. Qed.

Lemma sendToAnthropic_not_ok (r : Response) (systemPrompt : jstring)
  (messages : list ChatMessage) (config : LLMConfig) (n : Net) :
  fetch n (anthropic_request systemPrompt messages config) = Ok r ->
  ok r = false ->
  sendToAnthropic fetch systemPrompt messages config n
  = api_error (lit "Anthropic") r
      (n ++ [anthropic_request systemPrompt messages config]).
Proof. intros F K. unfold sendToAnthropic, bind, do_fetch. rewrite F, K. reflexivity. Qed.

Lemma sendToGemini_not_ok (r : Response) (prompt : jstring)
  (config : LLMConfig) (n : Net) :
  fetch n (gemini_request prompt config) = Ok r -> ok r = false ->
  sendToGemini fetch prompt config n
  = api_error (lit "Gemini") r (n ++ [gemini_request prompt config]).
Proof. intros F K. unfold sendToGemini, bind, do_fetch. rewrite F, K. reflexivity. Qed.

(** X2: on a response that is not ok, none of the three transports
    returns a text: each rejects.  When the body of the response decodes
    to a value that is not null, the value shown in the message is the
    provider's own [error.message] when that is truthy and the status
    text of the response otherwise; the transport rejects with the error
    "<Provider> API error: " and that value when ToString is defined on
    it, and with the [TypeError] of the template literal when it is
    not. *)
Theorem transports_reject_on_error_status (r : Response) :
  (forall n req, fetch n req = Ok r) ->
  ok r = false ->
  forall config n,
    (forall messages, exists e,
        fst (sendToOpenAI fetch messages config n) = Err e)
    /\ (forall systemPrompt messages, exists e,
        fst (sendToAnthropic fetch systemPrompt messages config n) = Err e)
    /\ (forall prompt, exists e,
        fst (sendToGemini fetch prompt config n) = Err e)
    /\ (forall payload detail,
        json r = Ok payload -> get payload (lit "error") = Ok detail ->
        let shown := or_else (get_opt detail (lit "message"))
                             (VStr (statusText r)) in
        (forall messages,
            fst (sendToOpenAI fetch messages config n)
            = Err (if printable shown
                   then Error (lit "OpenAI API error: ") shown
                   else TypeError))
        /\ (forall systemPrompt messages,
            fst (sendToAnthropic fetch systemPrompt messages config n)
            = Err (if printable shown
                   then Error (lit "Anthropic API error: ") shown
                   else TypeError))
        /\ (forall prompt,
            fst (sendToGemini fetch prompt config n)
            = Err (if printable shown
                   then Error (lit "Gemini API error: ") shown
                   else TypeError))).
Proof.
  intros F K config n.
  split; [|split; [|split]].
  - intros messages. rewrite (sendToOpenAI_not_ok r) by auto.
    destruct (api_error_rejects (lit "OpenAI") r
                (n ++ [openai_request messages config])) as [e ->]. exists e. reflexivity.
  - intros systemPrompt messages. rewrite (sendToAnthropic_not_ok r) by auto.
    destruct (api_error_rejects (lit "Anthropic") r
                (n ++ [anthropic_request systemPrompt messages config]))
      as [e ->]. exists e. reflexivity.
  - intros prompt. rewrite (sendToGemini_not_ok r) by auto.
    destruct (api_error_rejects (lit "Gemini") r
                (n ++ [gemini_request prompt config])) as [e ->]. exists e. reflexivity.
  - intros payload detail J D shown. split; [|split]; intros.
    + rewrite (sendToOpenAI_not_ok r) by auto.
      rewrite (api_error_outcome _ _ _ _ _ J D). reflexivity.
    + rewrite (sendToAnthropic_not_ok r) by auto.
      rewrite (api_error_outcome _ _ _ _ _ J D). reflexivity.
    + rewrite (sendToGemini_not_ok r) by auto.
      rewrite (api_error_outcome _ _ _ _ _ J D). reflexivity.
Qed.

(** X3: an ok Gemini response whose [candidates] member is missing, is
    falsy or has length zero is rejected with the error "Gemini API
    returned no response candidates", not with a [TypeError]. *)
Theorem gemini_without_candidates (r : Response) (data candidates : value)
  (prompt : jstring) (config : LLMConfig) (n : Net) :
  fetch n (gemini_request prompt config) = Ok r ->
  ok r = true ->
  json r = Ok data ->
  get data (lit "candidates") = Ok candidates ->
  truthy candidates = false \/ length_is_zero candidates = true ->
  sendToGemini fetch prompt config n
  = (Err (Error (lit "Gemini API returned no response candidates") (VStr [])),
     n ++ [gemini_request prompt config]).
Proof.
  intros F K J C Z. unfold sendToGemini, bind, do_fetch, lift, throw.
  rewrite F, K, J, C. simpl.
  destruct Z as [-> | ->]; [reflexivity | rewrite orb_true_r; reflexivity].
Qed.

End GatewayMore.

(* ================================================================== *)
(** * More on the chunk flow that takes the config *)
(* ================================================================== *)

Section ChunkFlowMore.
Import Llm.

Variable number_to_string : Z -> Z -> jstring.
Variable fetch : Net -> Request -> result Response.

Lemma map_result_resolves {A B} (f : A -> result B) (xs : list A) :
  Forall (fun x => exists y, f x = Ok y) xs ->
  exists ys, map_result f xs = Ok ys /\ List.length ys = List.length xs.
Proof.
  induction 1 as [|x xs [y Hy] _ [ys [IH L]]]; simpl.
  - eauto.
  - rewrite Hy. simpl. rewrite IH. simpl. exists (y :: ys). simpl. auto.
Qed.

Lemma map_result_rejects {A B} (f : A -> result B) (xs : list A) (x : A) :
  In x xs -> (exists e, f x = Err e) ->
  exists e, map_result f xs = Err e.
Proof.
  intros I [e He]. induction xs as [|y xs IH]; [contradiction|].
  simpl. destruct I as [-> | I].
  - rewrite He. simpl. eauto.
  - destruct (f y) as [b|e']; simpl; [|eauto].
    destruct (IH I) as [e2 ->]. simpl. eauto.
Qed.

Lemma chunk_of_item_resolves (story : Story.t) (item : value) :
  item <> VNull -> item <> VUndefined ->
  exists c, WithConfig.chunk_of_item story item = Ok c.
Proof.
  intros N U. unfold WithConfig.chunk_of_item.
  destruct item; try congruence; simpl; eauto.
  destruct (assoc (lit "id") fields), (assoc (lit "title") fields),
    (assoc (lit "content") fields); simpl; eauto.
Qed.

Lemma generateChunksFromStory_unfold (story : Story.t) (config : LLMConfig)
  (net : Net) :
  WithConfig.generateChunksFromStory number_to_string fetch story config net
  = match Prompts.generateChunks number_to_string fetch config
            (Story.title story) (Story.description story)
            (or_else (Story.relatedUrls story) (VArr [])) net with
    | (Ok response, net') =>
        (parsed <~ call_parseJSON response ;;
         array_map (WithConfig.chunk_of_item story) parsed, net')
    | (Err e, net') => (Err e, net')
    end.
Proof.
  unfold WithConfig.generateChunksFromStory, catch, bind, lift, throw.
  destruct (Prompts.generateChunks _ _ _ _ _ _ net) as [[response|e] n1];
    [|reflexivity].
  destruct (call_parseJSON response) as [parsed|e]; simpl; [|reflexivity].
  destruct (array_map _ parsed); reflexivity.
Qed.

(** X4: once the provider has answered with a text, the chunk flow
    resolves exactly when the text decodes to an array without null
    entries, and then with one chunk per entry; a text that decodes to
    anything but an array, or to an array with a null entry, makes the
    flow reject with a [TypeError], and a text that does not decode with
    a [SyntaxError].  The rejection of the provider call itself reaches
    the caller unchanged. *)
Theorem chunk_flow_outcomes (story : Story.t) (config : LLMConfig)
  (net net' : Net) :
  (forall e,
      Prompts.generateChunks number_to_string fetch config
        (Story.title story) (Story.description story)
        (or_else (Story.relatedUrls story) (VArr [])) net = (Err e, net') ->
      WithConfig.generateChunksFromStory number_to_string fetch story config net
      = (Err e, net'))
  /\ (forall text,
      Prompts.generateChunks number_to_string fetch config
        (Story.title story) (Story.description story)
        (or_else (Story.relatedUrls story) (VArr [])) net
      = (Ok (VStr text), net') ->
      match parseJSON text with
      | Err _ =>
          WithConfig.generateChunksFromStory number_to_string fetch
            story config net = (Err SyntaxError, net')
      | Ok (VArr items) =>
          if existsb (fun item => match item with
                                  | VNull | VUndefined => true
                                  | _ => false
                                  end) items
          then WithConfig.generateChunksFromStory number_to_string fetch
                 story config net = (Err TypeError, net')
          else exists chunks,
                 WithConfig.generateChunksFromStory number_to_string fetch
                   story config net = (Ok chunks, net')
                 /\ List.length chunks = List.length items
      | Ok _ =>
          WithConfig.generateChunksFromStory number_to_string fetch
            story config net = (Err TypeError, net')
      end).
Proof.
  split.
  - intros e H. rewrite generateChunksFromStory_unfold, H. reflexivity.
  - intros text H. rewrite generateChunksFromStory_unfold, H.
    cbn [call_parseJSON].
    destruct (parseJSON text) as [v|e] eqn:P.
    + destruct v; try reflexivity.
      destruct (existsb _ items) eqn:X.
      * apply existsb_exists in X as (item & I & B).
        destruct (map_result_rejects (WithConfig.chunk_of_item story)
                    items item I) as [e He].
        { destruct item; try discriminate; exists TypeError; reflexivity. }
        cbn [rbind array_map]. rewrite He.
        assert (e = TypeError); [|subst; reflexivity].
        clear - He. revert e He.
        induction items as [|x items IH]; simpl; [discriminate|].
        intros e. unfold WithConfig.chunk_of_item at 1.
        destruct x; simpl; try (intros E; inversion E; reflexivity);
          try (destruct (map_result _ items); simpl;
               [discriminate | intros E; inversion E; subst; eauto]).
        destruct (assoc (lit "id") fields), (assoc (lit "title") fields),
          (assoc (lit "content") fields); simpl;
          destruct (map_result _ items); simpl;
          try discriminate; intros E; inversion E; subst; eauto.
      * destruct (map_result_resolves (WithConfig.chunk_of_item story) items)
          as (chunks & M & L).
        { apply Forall_forall. intros item I.
          apply chunk_of_item_resolves; intros ->;
            (assert (existsb (fun item => match item with
                                          | VNull | VUndefined => true
                                          | _ => false
                                          end) items = true)
              by (apply existsb_exists; eexists; split; [exact I|reflexivity]));
            congruence. }
        exists chunks. cbn [rbind array_map]. rewrite M. auto.
    + unfold parseJSON, Json.parse in P.
      destruct (Json.decode (cleaned text)); inversion P. reflexivity.
Qed.

(** X5: a story whose [relatedUrls] is truthy and not an array makes the
    chunk flow reject with a [TypeError] while the prompt is built: no
    request is issued. *)
Theorem chunk_flow_rejects_bad_relatedUrls (story : Story.t)
  (config : LLMConfig) (net : Net) :
  truthy (Story.relatedUrls story) = true ->
  (forall items, Story.relatedUrls story <> VArr items) ->
  WithConfig.generateChunksFromStory number_to_string fetch story config net
  = (Err TypeError, net).
Proof.
  intros T A. rewrite generateChunksFromStory_unfold.
  unfold Prompts.generateChunks, bind, lift, or_else. rewrite T.
  destruct (Story.relatedUrls story); try reflexivity.
  exfalso. eapply A. reflexivity.
Qed.


End ChunkFlowMore.

(* ================================================================== *)
(** * More on the chat *)
(* ================================================================== *)

Lemma includes_startsWith (s t : jstring) :
  startsWith s t = true -> includes s t = true.
Proof. intros H. destruct s; simpl; rewrite H; reflexivity. Qed.

Lemma includes_app_middle (a t b : jstring) : includes (a ++ t ++ b) t = true.
Proof.
  induction a as [|c a IH].
  - cbn [app]. apply includes_startsWith, startsWith_app.
  - simpl. rewrite IH. apply orb_true_r.
Qed.

Section ChatMore.
Import Llm Chatbot.

Variable number_to_string : Z -> Z -> jstring.
Variable lower_table : jstring -> jstring.
Variable fetch : Net -> Request -> result Response.

Lemma system_prompt_nonempty (context : Prompts.ChatContext) :
  JsString.eqb (Prompts.system_prompt number_to_string context) [] = false.
Proof. reflexivity. Qed.

(** X6: in the chat flow with the provider [openai] and a context of
    printable values, the one request carries two messages: the system prompt as the system message, and a
    user message that starts with the same system prompt and ends with
    the user's text and the cue "Assistant:"; with no previous message
    nothing stands between the two. *)
Theorem chat_openai_messages (config : LLMConfig) (userMessage : jstring)
  (context : Prompts.ChatContext) (net : Net) :
  provider config = lit "openai" ->
  context_printable context = true ->
  exists history,
    snd (Prompts.chat number_to_string fetch config userMessage context net)
    = net ++ [openai_request
                [ {| role := system;
                     content := Prompts.system_prompt number_to_string context |};
                  {| role := user;
                     content :=
                       Prompts.system_prompt number_to_string context
                       ++ [nl; nl] ++ history ++ lit "User: " ++ userMessage
                       ++ [nl; nl] ++ lit "Assistant:" |} ]
                config]
    /\ (Prompts.previousMessages context = [] -> history = []).
Proof.
  intros P _. unfold Prompts.chat, sendMessage. rewrite P.
  change (JsString.eqb (lit "openai") (lit "openai")) with true. cbv iota.
  unfold given, or_default. rewrite system_prompt_nonempty. cbn [negb].
  rewrite sendToOpenAI_log.
  destruct (JsString.eqb
              (JsString.join [nl]
                 (map (Prompts.history_line number_to_string)
                    (Prompts.previousMessages context))) []) eqn:E; cbn [negb].
  - exists []. split; [reflexivity | auto].
  - exists (lit "Previous conversation:" ++ [nl]
            ++ JsString.join [nl]
                 (map (Prompts.history_line number_to_string)
                    (Prompts.previousMessages context)) ++ [nl; nl]).
    split.
    + rewrite <- !app_assoc. reflexivity.
    + intros H. rewrite H in E. discriminate.
Qed.

Lemma respond_log_bound (st : State) (s : Story.t)
  (getApiConfig : result (option LLMConfig)) (net : Net) :
  exists issued,
    snd (respond number_to_string lower_table fetch getApiConfig st s net)
    = net ++ issued
    /\ (List.length issued <= 1)%nat.
Proof.
  unfold respond, bind, lift, ret.
  destruct getApiConfig as [[config|]|e];
    try (exists []; rewrite app_nil_r; simpl; auto; fail).
  unfold WithConfig.generateChatResponse, catch, throw, Prompts.chat.
  match goal with
  | |- context [sendMessage fetch config ?p ?sp net] =>
      destruct (sendMessage_log_bound fetch config p sp net)
        as (issued & S & B);
      destruct (sendMessage fetch config p sp net) as [[r|e] n1]
  end; simpl in *; eauto.
Qed.

Lemma handleSend_runs (st : State) (s : Story.t)
  (getApiConfig : result (option LLMConfig)) (net : Net) :
  JsString.eqb (trim (input st)) [] = false ->
  isTyping st = false ->
  story st = Some s ->
  handleSend number_to_string lower_table fetch getApiConfig st net
  = ({| messages :=
          messages st
          ++ [ {| Message.id := List.length (messages st) + 1;
                  Message.text := VStr (input st);
                  Message.sender := Message.user |};
               {| Message.id := List.length (messages st) + 2;
                  Message.text :=
                    match fst (respond number_to_string lower_table fetch
                                 getApiConfig st s net) with
                    | Ok responseText => responseText
                    | Err _ => VStr apology
                    end;
                  Message.sender := Message.bot |} ];
        input := [];
        isTyping := false;
        story := story st;
        chunks := chunks st |},
      snd (respond number_to_string lower_table fetch getApiConfig st s net)).
Proof.
  intros I T S. unfold handleSend. rewrite I, T, S. cbn [orb].
  destruct (respond _ _ _ _ st s net) as [outcome net']. reflexivity.
Qed.

(** X7: [handleSend] does nothing at all when the input is blank, when a
    reply is pending or when there is no story: the state is unchanged and
    no request is issued. *)
Theorem handleSend_does_nothing (st : State)
  (getApiConfig : result (option LLMConfig)) (net : Net) :
  trim (input st) = [] \/ isTyping st = true \/ story st = None ->
  handleSend number_to_string lower_table fetch getApiConfig st net = (st, net).
Proof.
  intros [H | [H | H]]; unfold handleSend.
  - rewrite H. reflexivity.
  - rewrite H, orb_true_r. reflexivity.
  - rewrite H. destruct (_ || _); reflexivity.
Qed.

(** X8: when it runs, [handleSend] never fails: it appends the user's
    text and then exactly one bot message, empties the input, and issues
    at most one request; whenever reading the config or the provider call
    fails, the bot message is the apology. *)
Theorem handleSend_always_answers (st : State) (s : Story.t)
  (getApiConfig : result (option LLMConfig)) (net : Net) :
  trim (input st) <> [] ->
  isTyping st = false ->
  story st = Some s ->
  exists botText issued,
    handleSend number_to_string lower_table fetch getApiConfig st net
    = ({| messages :=
            messages st
            ++ [ {| Message.id := List.length (messages st) + 1;
                    Message.text := VStr (input st);
                    Message.sender := Message.user |};
                 {| Message.id := List.length (messages st) + 2;
                    Message.text := botText;
                    Message.sender := Message.bot |} ];
          input := [];
          isTyping := false;
          story := story st;
          chunks := chunks st |}, net ++ issued)
    /\ (List.length issued <= 1)%nat
    /\ (forall e,
          fst (respond number_to_string lower_table fetch getApiConfig st s net)
          = Err e -> botText = VStr apology).
Proof.
  intros I T S.
  rewrite handleSend_runs with (s := s);
    [| apply jstring_eqb_neq; assumption | assumption | assumption].
  destruct (respond_log_bound st s getApiConfig net) as (issued & L & B).
  rewrite L. eexists. exists issued. split; [reflexivity|].
  split; [assumption|]. intros e E. rewrite E. reflexivity.
Qed.

(** X9: [handleSend] keeps the message ids in step with the positions:
    if the ids of the messages are 1, 2, ..., n, they are 1, 2, ..., n+2
    afterwards (or still 1, ..., n when the handler did nothing). *)
Theorem handleSend_keeps_ids_consecutive (st : State)
  (getApiConfig : result (option LLMConfig)) (net : Net) :
  map Message.id (messages st) = seq 1 (List.length (messages st)) ->
  let st' := fst (handleSend number_to_string lower_table fetch
                    getApiConfig st net) in
  map Message.id (messages st') = seq 1 (List.length (messages st')).
Proof.
  intros H st'. subst st'.
  destruct (JsString.eqb (trim (input st)) []) eqn:I;
    [unfold handleSend; rewrite I; exact H|].
  destruct (isTyping st) eqn:T;
    [unfold handleSend; rewrite I, T; exact H|].
  destruct (story st) as [s|] eqn:Hs.
  - rewrite handleSend_runs with (s := s) by assumption.
    cbn [fst messages]. rewrite map_app, length_app, seq_app, H.
    cbn [map Message.id List.length seq]. f_equal.
    rewrite Nat.add_1_r. replace (List.length (messages st) + 2)%nat
      with (S (S (List.length (messages st)))) by lia. reflexivity.
  - unfold handleSend. rewrite I, T, Hs. exact H.
Qed.

End ChatMore.

Section FallbackMore.
Import Chatbot.

Variable lower_table : jstring -> jstring.

Lemma toLowerCase_ascii (m : jstring) :
  forallb is_ascii m = true -> toLowerCase lower_table m = map lower_ascii m.
Proof. intros H. unfold toLowerCase. rewrite H. reflexivity. Qed.

(** X10: the canned reply is never empty, and it names the story (it
    contains the title) whenever the lower-cased message has none of the
    words why, reason, how, what and example. *)
Theorem fallback_reply_names_the_story (userMessage storyTitle : jstring) :
  generateFallbackResponse lower_table userMessage storyTitle <> []
  /\ (let lowerMessage := toLowerCase lower_table userMessage in
      includes lowerMessage (lit "why") = false ->
      includes lowerMessage (lit "reason") = false ->
      includes lowerMessage (lit "how") = false ->
      includes lowerMessage (lit "what") = false ->
      includes lowerMessage (lit "example") = false ->
      includes (generateFallbackResponse lower_table userMessage storyTitle)
        storyTitle = true).
Proof.
  split.
  - unfold generateFallbackResponse.
    repeat match goal with
           | |- context [if ?b then _ else _] => destruct b
           end; discriminate.
  - intros lowerMessage W R H A E. unfold generateFallbackResponse.
    fold lowerMessage. rewrite W, R, H, A, E. cbn [orb].
    destruct (_ || _).
    + unfold summary_reply.
      change (quote :: storyTitle ++ ?b) with ([quote] ++ storyTitle ++ b).
      rewrite app_assoc. apply includes_app_middle.
    + unfold default_reply.
      change (quote :: storyTitle ++ ?b) with ([quote] ++ storyTitle ++ b).
      rewrite app_assoc. apply includes_app_middle.
Qed.

(** X11: on messages of ASCII code units the canned reply does not depend
    on the case of the letters: two messages that differ only by case get
    the same reply. *)
Theorem fallback_reply_ignores_case (m m' storyTitle : jstring) :
  forallb is_ascii m = true ->
  forallb is_ascii m' = true ->
  map lower_ascii m = map lower_ascii m' ->
  generateFallbackResponse lower_table m storyTitle
  = generateFallbackResponse lower_table m' storyTitle.
Proof.
  intros A A' E. unfold generateFallbackResponse.
  rewrite !toLowerCase_ascii by assumption. rewrite E. reflexivity.
Qed.

End FallbackMore.

Lemma fallback_reply_names_the_story_witness :
  includes
    (Chatbot.generateFallbackResponse Scenario.no_table
       (lit "Tell me more") (lit "AI Revolution"))
    (lit "AI Revolution") = true.
Proof.
  apply (fallback_reply_names_the_story Scenario.no_table
           (lit "Tell me more") (lit "AI Revolution")); reflexivity.
Defined.

Lemma fallback_reply_ignores_case_witness :
  Chatbot.generateFallbackResponse Scenario.no_table
    (lit "WHY does it matter") (lit "T")
  = Chatbot.generateFallbackResponse Scenario.no_table
      (lit "why DOES it Matter") (lit "T").
Proof.
  apply (fallback_reply_ignores_case Scenario.no_table); reflexivity.
Defined.

(* ================================================================== *)
(** * The URL list *)
(* ================================================================== *)

(** ** trim *)

Lemma trimStart_head (s : jstring) :
  trimStart s = []
  \/ exists c r, trimStart s = c :: r /\ is_js_space c = false.
Proof.
  induction s as [|c s IH]; simpl; [auto|].
  destruct (is_js_space c) eqn:E; [exact IH|]. right. eauto.
Qed.

Lemma trimStart_idem (s : jstring) : trimStart (trimStart s) = trimStart s.
Proof.
  destruct (trimStart_head s) as [-> | (c & r & -> & H)]; [reflexivity|].
  apply trimStart_keeps, H.
Qed.

Lemma trimStart_all_spaces (s : jstring) :
  trimStart s = [] <-> forallb is_js_space s = true.
Proof.
  induction s as [|c s IH]; simpl; [tauto|].
  destruct (is_js_space c); simpl; [exact IH|]. split; discriminate.
Qed.

Lemma trimStart_snoc (l : jstring) (c : N) :
  is_js_space c = false -> trimStart (l ++ [c]) = trimStart l ++ [c].
Proof.
  intros H. induction l as [|x l IH]; simpl; [rewrite H; reflexivity|].
  destruct (is_js_space x); [exact IH | reflexivity].
Qed.

Lemma trimEnd_cons (c : N) (r : jstring) :
  is_js_space c = false -> trimEnd (c :: r) = c :: trimEnd r.
Proof.
  intros H. unfold trimEnd. simpl.
  rewrite trimStart_snoc by assumption. rewrite rev_app_distr. reflexivity.
Qed.

Lemma trimEnd_idem (s : jstring) : trimEnd (trimEnd s) = trimEnd s.
Proof.
  unfold trimEnd. rewrite rev_involutive, trimStart_idem. reflexivity.
Qed.

Lemma trim_idem (s : jstring) : trim (trim s) = trim s.
Proof.
  unfold trim.
  destruct (trimStart_head s) as [-> | (c & r & -> & H)]; [reflexivity|].
  rewrite trimEnd_cons by assumption.
  rewrite trimStart_keeps by assumption.
  rewrite trimEnd_cons by assumption.
  rewrite trimEnd_idem. reflexivity.
Qed.

Lemma trim_all_spaces (s : jstring) :
  forallb is_js_space s = true -> trim s = [].
Proof.
  intros H. unfold trim. apply trimStart_all_spaces in H. rewrite H.
  reflexivity.
Qed.

Lemma trim_nil_all_spaces (s : jstring) :
  trim s = [] -> forallb is_js_space s = true.
Proof.
  unfold trim.
  destruct (trimStart_head s) as [E | (c & r & E & H)].
  - intros _. apply trimStart_all_spaces, E.
  - rewrite E, trimEnd_cons by assumption. discriminate.
Qed.

(** ** split *)

Lemma forallb_rev_eq {A} (P : A -> bool) (l : list A) :
  forallb P (rev l) = forallb P l.
Proof.
  induction l as [|x l IH]; simpl; [reflexivity|].
  rewrite forallb_app, IH. simpl. rewrite andb_true_r. apply andb_comm.
Qed.

Lemma split_from_pieces (P : N -> bool) (sep : N -> bool)
  (acc s : jstring) :
  forallb P acc = true -> forallb P s = true ->
  Forall (fun piece => forallb P piece = true)
    (UrlForm.split_from sep acc s).
Proof.
  revert acc; induction s as [|c s IH]; intros acc Ha Hs; simpl in *.
  - constructor; [|constructor].
    rewrite forallb_rev_eq. exact Ha.
  - apply andb_true_iff in Hs as [Hc Hs].
    destruct (sep c).
    + constructor; [rewrite forallb_rev_eq; exact Ha|]. apply IH; auto.
    + apply IH; auto. simpl. rewrite Hc, Ha. reflexivity.
Qed.

Lemma split_from_no_separator (sep : N -> bool) (acc s : jstring) :
  forallb (fun c => negb (sep c)) s = true ->
  UrlForm.split_from sep acc s = [rev acc ++ s].
Proof.
  revert acc; induction s as [|c s IH]; intros acc H; simpl in *.
  - rewrite app_nil_r. reflexivity.
  - apply andb_true_iff in H as [Hc H].
    destruct (sep c); [discriminate|].
    rewrite IH by assumption. simpl. rewrite <- app_assoc. reflexivity.
Qed.

Lemma parse_urls_blank (input : jstring) :
  trim input = [] -> UrlForm.parse_urls input = [].
Proof.
  intros H. apply trim_nil_all_spaces in H.
  unfold UrlForm.parse_urls, UrlForm.split.
  pose proof (split_from_pieces is_js_space UrlForm.is_separator [] input
                eq_refl H) as F.
  induction F as [|piece pieces Hp _ IH]; simpl; [reflexivity|].
  rewrite (trim_all_spaces _ Hp). simpl. exact IH.
Qed.

Lemma parse_urls_clean (input u : jstring) :
  In u (UrlForm.parse_urls input) ->
  u <> [] /\ startsWith u (lit "http") = true /\ trim u = u.
Proof.
  unfold UrlForm.parse_urls. intros H.
  apply filter_In in H as [H A].
  apply in_map_iff in H as (piece & <- & _).
  unfold UrlForm.acceptable in A. apply andb_true_iff in A as [A1 A2].
  repeat split; [|assumption|apply trim_idem].
  intros E. rewrite E in A1. discriminate.
Qed.

(** ** The set *)

Lemma mem_In (x : jstring) (l : list jstring) :
  UrlForm.mem x l = true <-> In x l.
Proof.
  induction l as [|y l IH]; simpl; [split; [discriminate | tauto]|].
  rewrite orb_true_iff, jstring_eqb_eq, IH. split; intros [H | H]; auto.
Qed.

Lemma mem_not_In (x : jstring) (l : list jstring) :
  UrlForm.mem x l = false <-> ~ In x l.
Proof.
  rewrite <- mem_In. destruct (UrlForm.mem x l); split; congruence.
Qed.

Lemma unique_from_In (seen l : list jstring) (x : jstring) :
  In x (UrlForm.unique_from seen l) <-> In x l /\ ~ In x seen.
Proof.
  revert seen; induction l as [|y l IH]; intros seen; simpl; [tauto|].
  destruct (UrlForm.mem y seen) eqn:M.
  - apply mem_In in M. rewrite IH. split.
    + intros [H1 H2]. auto.
    + intros [[-> | H1] H2]; [contradiction | auto].
  - apply mem_not_In in M. simpl. rewrite IH. simpl. split.
    + intros [<- | [H1 H2]]; [auto | split; auto].
    + intros [[<- | H1] H2]; [auto|].
      destruct (list_eq_dec N.eq_dec y x) as [<- | D]; [auto|].
      right. split; [assumption|]. intros [E | E]; auto.
Qed.

Lemma unique_from_NoDup (seen l : list jstring) :
  NoDup (UrlForm.unique_from seen l).
Proof.
  revert seen; induction l as [|y l IH]; intros seen; simpl; [constructor|].
  destruct (UrlForm.mem y seen); [apply IH|].
  constructor; [|apply IH].
  rewrite unique_from_In. simpl. intros [_ H]. apply H. auto.
Qed.

Lemma unique_from_covered (seen l : list jstring) :
  (forall x, In x l -> In x seen) -> UrlForm.unique_from seen l = [].
Proof.
  induction l as [|y l IH]; intros H; simpl; [reflexivity|].
  assert (M : UrlForm.mem y seen = true) by (apply mem_In, H; simpl; auto).
  rewrite M. apply IH. intros x Hx. apply H. simpl. auto.
Qed.

Lemma unique_from_app (seen l n : list jstring) :
  NoDup l -> (forall x, In x l -> ~ In x seen) ->
  UrlForm.unique_from seen (l ++ n)
  = l ++ UrlForm.unique_from (rev l ++ seen) n.
Proof.
  revert seen; induction l as [|y l IH]; intros seen D S; simpl;
    [reflexivity|].
  inversion D as [|? ? Hy D']; subst.
  assert (M : UrlForm.mem y seen = false)
    by (apply mem_not_In, S; simpl; auto).
  rewrite M. f_equal. rewrite IH.
  - rewrite <- app_assoc. reflexivity.
  - assumption.
  - intros x Hx [<- | H]; [contradiction|]. apply (S x); simpl; auto.
Qed.

Section UrlList.
Import UrlForm.

Lemma handleAddUrl_accepts (st : t) :
  parse_urls (urlInput st) <> [] ->
  handleAddUrl st
  = ({| urlInput := [];
        urls := unique (urls st ++ parse_urls (urlInput st));
        error := Text [] |},
     [Store (SetBrowsingHistory
               (unique (urls st ++ parse_urls (urlInput st))))]).
Proof.
  intros H. unfold handleAddUrl.
  destruct (JsString.eqb (trim (urlInput st)) []) eqn:B.
  - apply jstring_eqb_eq, parse_urls_blank in B. contradiction.
  - destruct (parse_urls (urlInput st)); [contradiction | reflexivity].
Qed.

Lemma handleAddUrl_refuses (st : t) :
  parse_urls (urlInput st) = [] ->
  urls (fst (handleAddUrl st)) = urls st /\ snd (handleAddUrl st) = [].
Proof.
  intros H. unfold handleAddUrl.
  destruct (JsString.eqb (trim (urlInput st)) []); [auto|].
  rewrite H. auto.
Qed.

(** X12: when the input holds an acceptable URL, [handleAddUrl] leaves a
    list without duplicates that holds exactly the old entries and the
    acceptable URLs of the input, each of these added entries non-empty,
    starting with "http" and free of white space at both ends; the input
    box is emptied and the same list is written to the storage. *)
Theorem handleAddUrl_adds (st : t) :
  parse_urls (urlInput st) <> [] ->
  let st' := fst (handleAddUrl st) in
  NoDup (urls st')
  /\ (forall u, In u (urls st')
                <-> In u (urls st) \/ In u (parse_urls (urlInput st)))
  /\ (forall u, In u (urls st') -> ~ In u (urls st) ->
                u <> [] /\ startsWith u (lit "http") = true /\ trim u = u)
  /\ urlInput st' = []
  /\ snd (handleAddUrl st) = [Store (SetBrowsingHistory (urls st'))].
Proof.
  intros H st'. subst st'. rewrite (handleAddUrl_accepts st H). cbn [fst snd urls urlInput].
  assert (M : forall u, In u (unique (urls st ++ parse_urls (urlInput st)))
                        <-> In u (urls st) \/ In u (parse_urls (urlInput st))).
  { intros u. unfold unique. rewrite unique_from_In, in_app_iff. simpl. tauto. }
  repeat split.
  - apply unique_from_NoDup.
  - apply M.
  - apply M.
  - apply M in H0 as [H0 | H0]; [contradiction|].
    apply (parse_urls_clean _ _ H0).
  - apply M in H0 as [H0 | H0]; [contradiction|].
    apply (parse_urls_clean _ _ H0).
  - apply M in H0 as [H0 | H0]; [contradiction|].
    apply (parse_urls_clean _ _ H0).
Qed.

(** X13: [handleAddUrl] never drops or reorders an entry: when the list
    has no duplicates, the new list starts with the old one, and nothing
    at all is added or stored when the input holds no acceptable URL. *)
Theorem handleAddUrl_extends (st : t) :
  NoDup (urls st) ->
  (exists added, urls (fst (handleAddUrl st)) = urls st ++ added)
  /\ (parse_urls (urlInput st) = [] ->
      urls (fst (handleAddUrl st)) = urls st /\ snd (handleAddUrl st) = []).
Proof.
  intros D. split; [|apply handleAddUrl_refuses].
  destruct (parse_urls (urlInput st)) eqn:P.
  - exists []. rewrite app_nil_r. apply handleAddUrl_refuses, P.
  - rewrite handleAddUrl_accepts by (rewrite P; discriminate).
    cbn [fst urls]. unfold unique. rewrite unique_from_app; [eauto | assumption|].
    intros x _ [].
Qed.

(** X14: submitting the same input again changes nothing: the list after
    the second [handleAddUrl] is the list after the first. *)
Theorem handleAddUrl_idempotent (st : t) :
  let st1 := fst (handleAddUrl st) in
  urls (fst (handleAddUrl {| urlInput := urlInput st;
                             urls := urls st1;
                             error := error st1 |}))
  = urls st1.
Proof.
  intros st1. subst st1.
  destruct (parse_urls (urlInput st)) eqn:P.
  - destruct (handleAddUrl_refuses st P) as [E _]. rewrite E.
    exact (proj1 (handleAddUrl_refuses
                    {| urlInput := urlInput st; urls := urls st;
                       error := error (fst (handleAddUrl st)) |} P)).
  - assert (Hn : parse_urls (urlInput st) <> []) by (rewrite P; discriminate).
    rewrite (handleAddUrl_accepts st Hn). cbn [fst urls error].
    rewrite handleAddUrl_accepts by exact Hn. cbn [fst urls urlInput].
    unfold unique at 1. rewrite unique_from_app.
    + rewrite app_nil_r.
      rewrite unique_from_covered; [apply app_nil_r|].
      intros x Hx. apply in_rev. rewrite rev_involutive.
      unfold unique. apply unique_from_In. split; [|tauto].
      apply in_or_app. right. exact Hx.
    + apply unique_from_NoDup.
    + intros x _ [].
Qed.

Lemma filter_all {A} (f : A -> bool) (l : list A) :
  (forall x, In x l -> f x = true) -> filter f l = l.
Proof.
  induction l as [|y l IH]; intros H; simpl; [reflexivity|].
  rewrite (H y) by (simpl; auto). f_equal. apply IH.
  intros x Hx. apply H. simpl. auto.
Qed.

(** X15: [handleRemoveUrl] removes every occurrence of the URL and
    nothing else, keeps the order of the rest, keeps a list without
    duplicates such, leaves the list as it is when the URL is not in it,
    and writes the list it leaves to the storage. *)
Theorem handleRemoveUrl_removes (u : jstring) (st : t) :
  let st' := fst (handleRemoveUrl u st) in
  ~ In u (urls st')
  /\ (forall v, v <> u -> (In v (urls st') <-> In v (urls st)))
  /\ (NoDup (urls st) -> NoDup (urls st'))
  /\ (~ In u (urls st) -> urls st' = urls st)
  /\ (forall a b, urls st = a ++ b ->
        urls st' = urls (fst (handleRemoveUrl u
                                {| urlInput := urlInput st; urls := a;
                                   error := error st |}))
                   ++ urls (fst (handleRemoveUrl u
                                   {| urlInput := urlInput st; urls := b;
                                      error := error st |})))
  /\ snd (handleRemoveUrl u st) = [Store (SetBrowsingHistory (urls st'))].
Proof.
  intros st'. subst st'. unfold handleRemoveUrl. cbn [fst snd urls].
  split; [|split; [|split; [|split; [|split]]]].
  - intros H. apply filter_In in H as [_ H].
    assert (E : JsString.eqb u u = true) by (apply jstring_eqb_eq; reflexivity).
    rewrite E in H. discriminate.
  - intros v D. rewrite filter_In. split; [tauto|].
    intros H. split; [assumption|].
    rewrite jstring_eqb_neq by assumption. reflexivity.
  - apply NoDup_filter.
  - intros H. apply filter_all. intros x Hx.
    rewrite jstring_eqb_neq; [reflexivity|]. intros ->. contradiction.
  - intros a b ->. apply filter_app.
  - reflexivity.
Qed.

End UrlList.

Section UrlRoundTrip.
Import UrlForm.

Lemma parse_urls_single (u : jstring) :
  u <> [] -> startsWith u (lit "http") = true -> trim u = u ->
  forallb (fun c => negb (is_separator c)) u = true ->
  parse_urls u = [u].
Proof.
  intros N H T S. unfold parse_urls, split.
  rewrite split_from_no_separator by assumption. simpl. rewrite T.
  unfold acceptable. rewrite H.
  rewrite (jstring_eqb_neq u []) by assumption. reflexivity.
Qed.

(** X16: removing undoes adding: for a list without duplicates and a
    single acceptable URL that is not in it (no separator, no white space
    around), [handleAddUrl] on that input followed by [handleRemoveUrl] of
    the URL gives back the list. *)
Theorem handleRemoveUrl_undoes_handleAddUrl (st : t) (u : jstring) :
  NoDup (urls st) -> ~ In u (urls st) ->
  urlInput st = u ->
  u <> [] -> startsWith u (lit "http") = true -> trim u = u ->
  forallb (fun c => negb (is_separator c)) u = true ->
  In u (urls (fst (handleAddUrl st)))
  /\ urls (fst (handleRemoveUrl u (fst (handleAddUrl st)))) = urls st.
Proof.
  intros D I E N H T S.
  assert (P : parse_urls (urlInput st) = [u])
    by (rewrite E; apply parse_urls_single; assumption).
  rewrite handleAddUrl_accepts by (rewrite P; discriminate).
  rewrite P. cbn [fst urls]. unfold handleRemoveUrl. cbn [fst urls].
  unfold unique. rewrite unique_from_app; [|assumption | intros x _ []].
  rewrite app_nil_r. cbn [unique_from].
  assert (M : mem u (rev (urls st)) = false).
  { apply mem_not_In. rewrite <- in_rev. exact I. }
  rewrite M. split; [apply in_or_app; right; simpl; auto|].
  rewrite filter_app. simpl.
  assert (R : JsString.eqb u u = true) by (apply jstring_eqb_eq; reflexivity).
  rewrite R. simpl. rewrite app_nil_r.
  apply filter_all. intros x Hx.
  rewrite jstring_eqb_neq; [reflexivity|]. intros ->. contradiction.
Qed.

End UrlRoundTrip.

Section MockFacts.

Variable number_to_string : Z -> Z -> jstring.

Lemma mock_chunks_facts (story : Story.t) :
  let chunks := WithConfigStories.generateMockChunks number_to_string story in
  map Chunk.id chunks = [VNum 1 0; VNum 2 0; VNum 3 0; VNum 4 0; VNum 5 0]
  /\ Forall (fun c => Chunk.image c = Story.image story) chunks
  /\ Forall (fun c => exists text,
               Chunk.content c = VStr text
               /\ includes text
                    (to_string number_to_string (Story.title story)) = true)
       chunks.
Proof.
  unfold WithConfigStories.generateMockChunks. cbv zeta.
  split; [reflexivity|]. split; [repeat constructor|].
  repeat constructor; eexists; (split; [reflexivity|]);
    apply includes_app_middle.
Qed.

End MockFacts.

(* ================================================================== *)
(** * The story flow that takes the config *)
(* ================================================================== *)

(** ** Decimal digits *)

Lemma digits_fuel_spec (fuel : nat) (n : N) (acc : jstring) :
  (N.to_nat n < fuel)%nat ->
  exists digits,
    digits_fuel fuel n acc = digits ++ acc
    /\ Forall (fun c => 48 <= c <= 57) digits
    /\ forall a, digits_value a digits = a * 10 ^ N.of_nat (List.length digits) + n.
Proof.
  revert n acc; induction fuel as [|fuel IH]; intros n acc Hf; [lia|].
  cbn [digits_fuel].
  assert (Hm : n mod 10 < 10) by (apply N.mod_lt; lia).
  assert (DM : n = 10 * (n / 10) + n mod 10) by (apply N.div_mod; lia).
  set (q := n / 10) in *. set (d := n mod 10) in *.
  destruct (N.eqb_spec q 0) as [Z | NZ].
  - exists [48 + d]. split; [reflexivity|]. split.
    + constructor; [clearbody d; lia | constructor].
    + intros a. unfold digits_value. cbn [fold_left List.length].
      change (N.of_nat 1) with 1. rewrite N.pow_1_r.
      clearbody q d. lia.
  - destruct (IH q ((48 + d) :: acc)) as (ds & E & F & V).
    { clearbody q d. lia. }
    exists (ds ++ [48 + d]). split; [|split].
    + rewrite E, <- app_assoc. reflexivity.
    + apply Forall_app. split; [assumption|].
      constructor; [clearbody d; lia | constructor].
    + intros a. unfold digits_value in *. rewrite fold_left_app, V.
      cbn [fold_left]. rewrite length_app. cbn [List.length].
      rewrite Nat.add_1_r, Nat2N.inj_succ, N.pow_succ_r by lia.
      clearbody q d. lia.
Qed.

Lemma of_nat_digits (n : nat) :
  Forall (fun c => 48 <= c <= 57) (of_nat n)
  /\ digits_value 0 (of_nat n) = N.of_nat n.
Proof.
  unfold of_nat.
  destruct (digits_fuel_spec (S n) (N.of_nat n) []) as (d & E & F & V);
    [lia|].
  rewrite E, app_nil_r. split; [assumption|]. rewrite V. lia.
Qed.

Lemma of_nat_injective (i j : nat) : of_nat i = of_nat j -> i = j.
Proof.
  intros E. apply Nat2N.inj.
  rewrite <- (proj2 (of_nat_digits i)), <- (proj2 (of_nat_digits j)), E.
  reflexivity.
Qed.

Lemma first_occurrence {A} (x : A) (l1 l2 r1 r2 : list A) :
  ~ In x l1 -> ~ In x l2 -> l1 ++ x :: r1 = l2 ++ x :: r2 -> l1 = l2.
Proof.
  revert l2; induction l1 as [|a l1 IH]; intros [|b l2] H1 H2 E; simpl in *.
  - reflexivity.
  - inversion E; subst. exfalso. apply H2. auto.
  - inversion E; subst. exfalso. apply H1. auto.
  - inversion E; subst. f_equal. apply (IH l2); auto.
Qed.

Lemma suffix_after_dash (p1 p2 : jstring) (i j : nat) :
  p1 ++ lit "-" ++ of_nat i = p2 ++ lit "-" ++ of_nat j -> i = j.
Proof.
  intros E. apply of_nat_injective.
  apply (f_equal (@rev N)) in E.
  rewrite !rev_app_distr in E. simpl in E. rewrite <- !app_assoc in E.
  simpl in E.
  apply first_occurrence in E.
  - rewrite <- (rev_involutive (of_nat i)), E. apply rev_involutive.
  - rewrite <- in_rev. intros I.
    pose proof (proj1 (of_nat_digits i)) as F.
    rewrite Forall_forall in F. specialize (F _ I). lia.
  - rewrite <- in_rev. intros I.
    pose proof (proj1 (of_nat_digits j)) as F.
    rewrite Forall_forall in F. specialize (F _ I). lia.
Qed.

Section StoryFlow.
Import Llm.

Variable number_to_string : Z -> Z -> jstring.
Variable fetch : Net -> Request -> result Response.

Lemma getUnsplashImage_index (k1 k2 : value) (i j : nat) (u : jstring) :
  WithConfigStories.getUnsplashImage number_to_string k1 i = Ok u ->
  WithConfigStories.getUnsplashImage number_to_string k2 j = Ok u ->
  i = j.
Proof.
  unfold WithConfigStories.getUnsplashImage.
  destruct (Uri.encodeURIComponent (to_string number_to_string k1)) as [e1|];
    [|discriminate].
  destruct (Uri.encodeURIComponent (to_string number_to_string k2)) as [e2|];
    [|discriminate].
  cbv zeta. intros E1 E2.
  apply (suffix_after_dash
           (lit "https://source.unsplash.com/800x600/?" ++ e1 ++ lit "&sig="
            ++ to_string number_to_string k1)
           (lit "https://source.unsplash.com/800x600/?" ++ e2 ++ lit "&sig="
            ++ to_string number_to_string k2)).
  rewrite <- !app_assoc. congruence.
Qed.

Lemma story_of_item_image (i : nat) (item : value) (s : Story.t) :
  WithConfigStories.story_of_item number_to_string i item = Ok s ->
  exists u,
    Story.image s = VStr u
    /\ WithConfigStories.getUnsplashImage number_to_string
         (get_opt item (lit "image")) i = Ok u
    /\ Story.id s = get_opt item (lit "id")
    /\ Story.relatedUrls s
       = or_else (get_opt item (lit "relatedUrls")) (VArr []).
Proof.
  unfold WithConfigStories.story_of_item, rbind, get_opt.
  destruct (get item (lit "id")) as [id|]; [|discriminate].
  destruct (get item (lit "title")) as [title|]; [|discriminate].
  destruct (get item (lit "description")) as [description|]; [|discriminate].
  destruct (get item (lit "image")) as [image|]; [|discriminate].
  destruct (WithConfigStories.getUnsplashImage _ image i) as [u|] eqn:G;
    [|discriminate].
  destruct (get item (lit "relatedUrls")) as [related|]; [|discriminate].
  intros E; inversion E; subst; simpl. eauto.
Qed.

Lemma mapi_result_from_nth {A B} (f : nat -> A -> result B) (i : nat)
  (xs : list A) (ys : list B) :
  WithConfigStories.mapi_result_from f i xs = Ok ys ->
  List.length ys = List.length xs
  /\ forall p y, nth_error ys p = Some y ->
       exists x, nth_error xs p = Some x /\ f (i + p)%nat x = Ok y.
Proof.
  revert i ys; induction xs as [|x xs IH]; intros i ys; simpl.
  - intros E; inversion E; subst. split; [reflexivity|].
    intros [|p] y; discriminate.
  - unfold rbind at 1. destruct (f i x) as [y0|] eqn:F; [|discriminate].
    unfold rbind.
    destruct (WithConfigStories.mapi_result_from f (S i) xs) as [ys'|] eqn:R;
      [|discriminate].
    intros E; inversion E; subst.
    destruct (IH _ _ R) as [L N]. split; [simpl; congruence|].
    intros [|p] y; simpl.
    + intros Y; inversion Y; subst. exists x.
      rewrite Nat.add_0_r. auto.
    + intros Y. destruct (N _ _ Y) as (x' & X & Fx). exists x'.
      rewrite Nat.add_succ_r. auto.
Qed.

Lemma mapi_result_from_rejects {A B} (f : nat -> A -> result B) (i : nat)
  (xs : list A) (x : A) :
  In x xs -> (forall j, exists e, f j x = Err e) ->
  exists e, WithConfigStories.mapi_result_from f i xs = Err e.
Proof.
  intros I H. revert i; induction xs as [|y xs IH]; intros i; [contradiction|].
  simpl. destruct I as [-> | I].
  - destruct (H i) as [e ->]. simpl. eauto.
  - destruct (f i y); simpl; [|eauto].
    destruct (IH I (S i)) as [e ->]. simpl. eauto.
Qed.

Lemma generateStoriesFromHistory_unfold (urls : list jstring)
  (config : LLMConfig) (net : Net) :
  WithConfigStories.generateStoriesFromHistory number_to_string fetch
    urls config net
  = match WithConfigStories.generateStories fetch config urls net with
    | (Ok response, net') =>
        (parsed <~ call_parseJSON response ;;
         WithConfigStories.array_mapi
           (WithConfigStories.story_of_item number_to_string) parsed, net')
    | (Err e, net') => (Err e, net')
    end.
Proof.
  unfold WithConfigStories.generateStoriesFromHistory, catch, bind, lift, throw.
  destruct (WithConfigStories.generateStories _ _ _ net) as [[response|e] n1];
    [|reflexivity].
  destruct (call_parseJSON response) as [parsed|e]; simpl; [|reflexivity].
  destruct (WithConfigStories.array_mapi _ parsed); reflexivity.
Qed.

Lemma generateStoriesFromHistory_config_inv (urls : list jstring)
  (config : LLMConfig) (net net' : Net) (stories : list Story.t) :
  WithConfigStories.generateStoriesFromHistory number_to_string fetch
    urls config net = (Ok stories, net') ->
  exists text items,
    WithConfigStories.generateStories fetch config urls net
    = (Ok (VStr text), net')
    /\ parseJSON text = Ok (VArr items)
    /\ WithConfigStories.mapi_result_from
         (WithConfigStories.story_of_item number_to_string) 0 items
       = Ok stories.
Proof.
  rewrite generateStoriesFromHistory_unfold.
  destruct (WithConfigStories.generateStories _ _ _ net) as [[response|e] n1];
    [|discriminate].
  destruct response; try discriminate. cbn [call_parseJSON rbind].
  destruct (parseJSON s) as [parsed|] eqn:P; [|discriminate].
  destruct parsed; try discriminate. cbn [WithConfigStories.array_mapi].
  intros E. inversion E; subst. eauto.
Qed.

(** X17: the stories of one batch get pairwise different image URLs,
    whatever their keywords: the position of the record is part of the
    URL. *)
Theorem story_images_are_distinct (urls : list jstring) (config : LLMConfig)
  (net net' : Net) (stories : list Story.t) :
  WithConfigStories.generateStoriesFromHistory number_to_string fetch
    urls config net = (Ok stories, net') ->
  NoDup (map Story.image stories).
Proof.
  intros H.
  apply generateStoriesFromHistory_config_inv in H
    as (text & items & _ & _ & M).
  apply mapi_result_from_nth in M as [_ M].
  apply NoDup_nth_error. intros p q Hp E.
  rewrite length_map in Hp.
  rewrite !nth_error_map in E.
  destruct (nth_error stories p) as [sp|] eqn:Sp;
    [|apply nth_error_None in Sp; lia].
  destruct (nth_error stories q) as [sq|] eqn:Sq; [|discriminate].
  simpl in E. inversion E as [I].
  destruct (M _ _ Sp) as (xp & _ & Fp). destruct (M _ _ Sq) as (xq & _ & Fq).
  apply story_of_item_image in Fp as (up & Ip & Gp & _).
  apply story_of_item_image in Fq as (uq & Iq & Gq & _).
  rewrite Ip, Iq in I. inversion I; subst.
  apply (getUnsplashImage_index _ _ _ _ _ Gp Gq).
Qed.

(** X18: one record whose image keyword holds a surrogate without its
    pair makes the whole story flow reject: [encodeURIComponent] throws
    and no story of the batch is returned. *)
Theorem story_flow_rejects_unpaired_surrogate (urls : list jstring)
  (config : LLMConfig) (net net' : Net) (text : jstring)
  (items : list value) (item : value) (keyword : jstring) :
  WithConfigStories.generateStories fetch config urls net
  = (Ok (VStr text), net') ->
  parseJSON text = Ok (VArr items) ->
  In item items ->
  get item (lit "image") = Ok (VStr keyword) ->
  Uri.encodeURIComponent keyword = None ->
  exists e,
    WithConfigStories.generateStoriesFromHistory number_to_string fetch
      urls config net = (Err e, net').
Proof.
  intros G P I K U. rewrite generateStoriesFromHistory_unfold, G.
  cbn [call_parseJSON rbind]. rewrite P.
  cbn [WithConfigStories.array_mapi rbind].
  destruct (mapi_result_from_rejects
              (WithConfigStories.story_of_item number_to_string) 0 items item I)
    as [e ->]; [|eauto].
  intros j. unfold WithConfigStories.story_of_item, rbind.
  destruct (get item (lit "id")); [|eauto].
  destruct (get item (lit "title")); [|eauto].
  destruct (get item (lit "description")); [|eauto].
  rewrite K. unfold WithConfigStories.getUnsplashImage.
  cbn [to_string]. rewrite U. eauto.
Qed.

(** X19: a record with no image member gets the image URL of the keyword
    text "undefined": this variant has no fallback to the title. *)
Theorem story_without_image_member (index : nat) (item : value) (s : Story.t) :
  get item (lit "image") = Ok VUndefined ->
  WithConfigStories.story_of_item number_to_string index item = Ok s ->
  Story.image s
  = VStr (lit "https://source.unsplash.com/800x600/?undefined&sig=undefined-"
          ++ of_nat index).
Proof.
  intros I H. apply story_of_item_image in H as (u & -> & G & _).
  unfold get_opt in G. rewrite I in G.
  unfold WithConfigStories.getUnsplashImage in G. simpl in G.
  inversion G. reflexivity.
Qed.

End StoryFlow.

(* ================================================================== *)
(** * More on the flows that resolve images *)
(* ================================================================== *)


Lemma all_map_rejects {S A B} (f : A -> Async S B) (items : list A) (x : A)
  (w : S) :
  In x items -> (forall w1, exists e w2, f x w1 = (Err e, w2)) ->
  exists e w', all_map f items w = (Err e, w').
Proof.
  intros I H. revert w; induction items as [|y items IH]; intros w;
    [contradiction|].
  simpl. destruct (f y w) as [r w1] eqn:F.
  destruct I as [-> | I].
  - destruct (H w) as (e & w2 & E). rewrite E in F. inversion F; subst.
    destruct (all_map f items w1) as [rs w3]. eauto.
  - destruct (IH I w1) as (e & w3 & ->).
    destruct r; eauto.
Qed.

Section ImageFlowsMore.

Variable W : Type.
Variable llm_generateStories : list jstring -> Async W value.
Variable llm_generateChunks : value -> value -> value -> value -> Async W value.
Variable getCachedPhotoUrl : value -> Async W jstring.
Variable getFallbackImage : value -> result jstring.

Lemma getImageForKeywords_source (keywords : value) (w w' : W) (u : jstring) :
  WithImages.getImageForKeywords W getCachedPhotoUrl getFallbackImage
    keywords w = (Ok u, w') ->
  getCachedPhotoUrl keywords w = (Ok u, w')
  \/ (exists e, getCachedPhotoUrl keywords w = (Err e, w')
                /\ getFallbackImage keywords = Ok u).
Proof.
  unfold WithImages.getImageForKeywords, catch, lift.
  destruct (getCachedPhotoUrl keywords w) as [[url|e] w1].
  - intros E; inversion E; subst. auto.
  - intros E; inversion E; subst. right. eauto.
Qed.

(** X20: every image of a resolved batch is either what the lookup
    answered for the keywords of its entity, or, where the lookup
    rejected, the fallback of these keywords; it is nothing else. *)
Theorem images_come_from_lookup_or_fallback :
  (forall urls w w' stories,
      WithImages.generateStoriesFromHistory W llm_generateStories
        getCachedPhotoUrl getFallbackImage urls w = (Ok stories, w') ->
      Forall (fun s => exists u w1 w2,
                Story.image s = VStr u
                /\ (getCachedPhotoUrl (Story.imageKeywords s) w1 = (Ok u, w2)
                    \/ (exists e,
                          getCachedPhotoUrl (Story.imageKeywords s) w1
                          = (Err e, w2)
                          /\ getFallbackImage (Story.imageKeywords s) = Ok u)))
        stories)
  /\ (forall story w w' chunks,
      WithImages.generateChunksFromStory W llm_generateChunks
        getCachedPhotoUrl getFallbackImage story w = (Ok chunks, w') ->
      Forall (fun c => exists u w1 w2,
                Chunk.image c = VStr u
                /\ (getCachedPhotoUrl (Chunk.imageKeywords c) w1 = (Ok u, w2)
                    \/ (exists e,
                          getCachedPhotoUrl (Chunk.imageKeywords c) w1
                          = (Err e, w2)
                          /\ getFallbackImage (Chunk.imageKeywords c) = Ok u)))
        chunks).
Proof.
  split.
  - intros urls w w' stories H.
    apply generateStoriesFromHistory_inv in H as (text & items & w1 & _ & _ & F).
    induction F as [|item s items stories (w2 & w3 & Hs) _ IH]; constructor;
      [|exact IH].
    apply story_of_item_fields in Hs as (_ & _ & _ & _ & u & I & G).
    exists u, w2, w3. split; [exact I|].
    apply getImageForKeywords_source, G.
  - intros story w w' chunks H.
    apply generateChunksFromStory_images_inv in H
      as (text & items & w1 & _ & _ & F).
    induction F as [|item c items chunks (w2 & w3 & Hc) _ IH]; constructor;
      [|exact IH].
    apply chunk_of_item_image_fields in Hc as (_ & _ & _ & _ & u & I & G).
    exists u, w2, w3. split; [exact I|].
    apply getImageForKeywords_source, G.
Qed.

(** X21: a null entry in the provider's array is not absorbed: it makes
    the whole batch reject, in the story flow and in the chunk flow,
    whatever the image service does. *)
Theorem null_record_rejects_the_batch :
  (forall urls w text w1 items,
      llm_generateStories urls w = (Ok (VStr text), w1) ->
      parseJSON text = Ok (VArr items) ->
      In VNull items ->
      exists e w',
        WithImages.generateStoriesFromHistory W llm_generateStories
          getCachedPhotoUrl getFallbackImage urls w = (Err e, w'))
  /\ (forall story w text w1 items,
      llm_generateChunks (Story.title story) (Story.description story)
        (or_else (Story.relatedUrls story) (VArr []))
        (Story.imageKeywords story) w = (Ok (VStr text), w1) ->
      parseJSON text = Ok (VArr items) ->
      In VNull items ->
      exists e w',
        WithImages.generateChunksFromStory W llm_generateChunks
          getCachedPhotoUrl getFallbackImage story w = (Err e, w')).
Proof.
  split.
  - intros urls w text w1 items L P I.
    unfold WithImages.generateStoriesFromHistory, catch, bind, lift, throw.
    rewrite L. cbn [call_parseJSON]. rewrite P. cbn [WithImages.all_of].
    destruct (all_map_rejects
                (WithImages.story_of_item W getCachedPhotoUrl getFallbackImage)
                items VNull w1 I) as (e & w' & ->); [|eauto].
    intros w2. exists TypeError, w2. reflexivity.
  - intros story w text w1 items L P I.
    unfold WithImages.generateChunksFromStory, catch, bind, lift, throw.
    rewrite L. cbn [call_parseJSON]. rewrite P. cbn [WithImages.all_of].
    destruct (all_map_rejects
                (WithImages.chunk_of_item W getCachedPhotoUrl getFallbackImage
                   story)
                items VNull w1 I) as (e & w' & ->); [|eauto].
    intros w2. exists TypeError, w2. reflexivity.
Qed.



End ImageFlowsMore.

(* ================================================================== *)
(** * The mock content *)
(* ================================================================== *)

Section MockMore.

Variable number_to_string : Z -> Z -> jstring.

(** X23: the mock chunks of the variant that resolves images: when the
    fallback is defined on every keyword string and the title of the
    story is printable, there are five of them,
    with the ids 1 to 5, the five fixed keyword strings (the same for
    every story) and the fallback image of each; each content names the
    title of the story. *)
Theorem mock_chunks_with_fallback_images
  (getFallbackImage : value -> result jstring) (story : Story.t) :
  (forall k, exists u, getFallbackImage (VStr k) = Ok u) ->
  printable (Story.title story) = true ->
  exists chunks,
    WithImagesMock.generateMockChunks number_to_string getFallbackImage story
    = Ok chunks
    /\ map Chunk.id chunks = [VNum 1 0; VNum 2 0; VNum 3 0; VNum 4 0; VNum 5 0]
    /\ map Chunk.imageKeywords chunks = map VStr WithImagesMock.chunkKeywords
    /\ Forall (fun c => exists u,
                 Chunk.image c = VStr u
                 /\ getFallbackImage (Chunk.imageKeywords c) = Ok u) chunks
    /\ Forall (fun c => exists text,
                 Chunk.content c = VStr text
                 /\ includes text
                      (to_string number_to_string (Story.title story)) = true)
         chunks.
Proof.
  intros H _. unfold WithImagesMock.generateMockChunks. cbv zeta.
  destruct (H (nth 0 WithImagesMock.chunkKeywords [])) as [u1 E1].
  destruct (H (nth 1 WithImagesMock.chunkKeywords [])) as [u2 E2].
  destruct (H (nth 2 WithImagesMock.chunkKeywords [])) as [u3 E3].
  destruct (H (nth 3 WithImagesMock.chunkKeywords [])) as [u4 E4].
  destruct (H (nth 4 WithImagesMock.chunkKeywords [])) as [u5 E5].
  rewrite E1, E2, E3, E4, E5. cbn [rbind].
  eexists. split; [reflexivity|]. split; [reflexivity|].
  split; [reflexivity|]. split.
  - repeat constructor; eexists; (split; [reflexivity|]); assumption.
  - repeat constructor; eexists; (split; [reflexivity|]);
      apply includes_app_middle.
Qed.

End MockMore.

(* ================================================================== *)
(** * The settings, the stories page and the history page *)
(* ================================================================== *)

Section SettingsMore.
Import Llm Settings.

Variable DEFAULT_MODELS : jstring -> option jstring.
Variable number_to_string : Z -> Z -> jstring.
Variable fetch : Net -> Request -> result Response.

(** X24: [handleSaveConfig] stores nothing for a blank key; otherwise it
    stores one config whose key is the trimmed input, so never empty and
    never with white space at either end, for the selected provider and
    the default model of that provider. *)
Theorem handleSaveConfig_stores_trimmed_key (st : ConfigForm) :
  (trim (apiKey st) = [] ->
   snd (handleSaveConfig DEFAULT_MODELS st) = []
   /\ error (fst (handleSaveConfig DEFAULT_MODELS st))
      = Text (lit "Please enter an API key"))
  /\ (trim (apiKey st) <> [] ->
      exists config,
        snd (handleSaveConfig DEFAULT_MODELS st)
        = [Store (SetApiConfig config); SetTimeout 3000]
        /\ Llm.apiKey config = trim (apiKey st)
        /\ Llm.apiKey config <> []
        /\ trim (Llm.apiKey config) = Llm.apiKey config
        /\ Llm.provider config = provider st
        /\ Llm.model config = DEFAULT_MODELS (provider st)).
Proof.
  unfold handleSaveConfig. split; intros H.
  - rewrite H. simpl. auto.
  - rewrite (jstring_eqb_neq _ _ H). eexists. split; [reflexivity|].
    cbn [Llm.apiKey Llm.provider Llm.model].
    repeat split; auto. apply trim_idem.
Qed.

Lemma generateStoriesFromHistory_log_bound (urls : list jstring)
  (config : LLMConfig) (net : Net) :
  exists issued,
    snd (WithConfigStories.generateStoriesFromHistory number_to_string fetch
           urls config net) = net ++ issued
    /\ (List.length issued <= 1)%nat.
Proof.
  unfold WithConfigStories.generateStoriesFromHistory,
    WithConfigStories.generateStories, catch, bind, lift, throw.
  destruct (sendMessage_log_bound fetch config
              (WithConfigStories.stories_prompt urls) None net)
    as (issued & S & B).
  destruct (sendMessage fetch config _ None net) as [[response|e] n1];
    simpl in *; [|eauto].
  destruct (call_parseJSON response) as [parsed|e]; simpl; [|eauto].
  destruct (WithConfigStories.array_mapi _ parsed); simpl; eauto.
Qed.

(** X25: [handleGenerateStories] of the settings page issues no request
    and leaves no effect when no config is stored or the list is empty;
    otherwise it issues at most one request and is all or nothing: either
    the flow resolved and the stories are stored, the started flag is set
    and the page moves to /stories, or nothing is stored, the page stays
    and the caught error is shown. *)
Theorem settings_generation_all_or_nothing (stored : option LLMConfig)
  (st : Generation) (net : Net) :
  (stored = None \/ urls st = [] ->
   snd (fst (handleGenerateStories number_to_string fetch stored st net)) = []
   /\ snd (handleGenerateStories number_to_string fetch stored st net) = net)
  /\ (exists issued,
      snd (handleGenerateStories number_to_string fetch stored st net)
      = net ++ issued
      /\ (List.length issued <= 1)%nat)
  /\ (forall config, stored = Some config -> urls st <> [] ->
      match fst (WithConfigStories.generateStoriesFromHistory
                   number_to_string fetch (urls st) config net) with
      | Ok stories =>
          snd (fst (handleGenerateStories number_to_string fetch stored st net))
          = [Store (SetStories stories); Store (SetHasStarted true);
             Navigate (lit "/stories")]
          /\ generationError
               (fst (fst (handleGenerateStories number_to_string fetch
                            stored st net))) = Text []
      | Err err =>
          snd (fst (handleGenerateStories number_to_string fetch stored st net))
          = []
          /\ generationError
               (fst (fst (handleGenerateStories number_to_string fetch
                            stored st net)))
             = Caught err (lit "Failed to generate stories")
      end).
Proof.
  unfold handleGenerateStories. split; [|split].
  - intros [-> | E]; [auto|]. rewrite E. destruct stored; auto.
  - destruct stored as [config|];
      [|exists []; rewrite app_nil_r; simpl; auto].
    destruct (urls st) eqn:U;
      [exists []; rewrite app_nil_r; simpl; auto|].
    destruct (generateStoriesFromHistory_log_bound (j :: l) config net)
      as (issued & S & B).
    destruct (WithConfigStories.generateStoriesFromHistory _ _ _ _ net)
      as [[stories|e] n1]; simpl in *; eauto.
  - intros config -> U. destruct (urls st) eqn:E; [contradiction|].
    destruct (WithConfigStories.generateStoriesFromHistory _ _ _ _ net)
      as [[stories|e] n1]; simpl; auto.
Qed.

End SettingsMore.

Section StoriesPageMore.
Import Llm StoriesPage.

Variable number_to_string : Z -> Z -> jstring.
Variable fetch : Net -> Request -> result Response.

(** X26: with no config stored, opening a story whose title is
    printable always succeeds without any request: the story and its mock
    chunks are stored and the page moves to /chunks; the mock chunks are five, with the ids 1 to 5, each
    with the image of the story and with a content that names the title
    of the story. *)
Theorem story_click_without_config (story : Story.t) (st : State) (net : Net) :
  printable (Story.title story) = true ->
  handleStoryClick number_to_string fetch (Ok None) story st net
  = ({| selectedStory := Some story;
        isGeneratingChunks := false;
        error := Text [] |},
     [Store (SetCurrentStory story);
      Store (SetCurrentChunks
               (WithConfigStories.generateMockChunks number_to_string story));
      Navigate (lit "/chunks")],
     net)
  /\ map Chunk.id (WithConfigStories.generateMockChunks number_to_string story)
     = [VNum 1 0; VNum 2 0; VNum 3 0; VNum 4 0; VNum 5 0]
  /\ Forall (fun c => Chunk.image c = Story.image story)
       (WithConfigStories.generateMockChunks number_to_string story)
  /\ Forall (fun c => exists text,
               Chunk.content c = VStr text
               /\ includes text
                    (to_string number_to_string (Story.title story)) = true)
       (WithConfigStories.generateMockChunks number_to_string story).
Proof.
  intros _. split; [reflexivity|]. apply mock_chunks_facts.
Qed.


End StoriesPageMore.

Section AddHistoryMore.

Variable W : Type.
Variable llm_generateStories : list jstring -> Async W value.
Variable getCachedPhotoUrl : value -> Async W jstring.
Variable getFallbackImage : value -> result jstring.

(** X28: [handleGenerateStories] of the history page never calls the
    provider for an empty list (the world is as it was and nothing is
    stored); otherwise it is all or nothing: the stories are stored and
    the page moves to /stories exactly when the flow resolved. *)
Theorem history_generation_all_or_nothing (st : Settings.Generation) (w : W) :
  (Settings.urls st = [] ->
   AddHistory.handleGenerateStories W llm_generateStories getCachedPhotoUrl
     getFallbackImage st w
   = ({| Settings.urls := [];
         Settings.isGenerating := Settings.isGenerating st;
         Settings.generationError := Text (lit "Please add some URLs first") |},
      [], w))
  /\ (Settings.urls st <> [] ->
      match WithImages.generateStoriesFromHistory W llm_generateStories
              getCachedPhotoUrl getFallbackImage (Settings.urls st) w with
      | (Ok stories, w') =>
          AddHistory.handleGenerateStories W llm_generateStories
            getCachedPhotoUrl getFallbackImage st w
          = ({| Settings.urls := Settings.urls st;
                Settings.isGenerating := false;
                Settings.generationError := Text [] |},
             [Store (SetStories stories); Store (SetHasStarted true);
              Navigate (lit "/stories")], w')
      | (Err err, w') =>
          AddHistory.handleGenerateStories W llm_generateStories
            getCachedPhotoUrl getFallbackImage st w
          = ({| Settings.urls := Settings.urls st;
                Settings.isGenerating := false;
                Settings.generationError :=
                  Caught err (lit "Failed to generate stories") |},
             [], w')
      end).
Proof.
  unfold AddHistory.handleGenerateStories. split.
  - intros ->. reflexivity.
  - intros U. destruct (Settings.urls st) eqn:E; [contradiction|].
    destruct (WithImages.generateStoriesFromHistory _ _ _ _ _ w)
      as [[stories|e] w']; reflexivity.
Qed.

End AddHistoryMore.

(* ================================================================== *)
(** * The additional facts on the scenarios *)
(* ================================================================== *)

Lemma transports_reject_on_error_status_witness :
  fst (Llm.sendToOpenAI (Cases.replying Cases.rate_limited) []
         Scenario.openai_config [])
  = Err (Error (lit "OpenAI API error: ") (VStr (lit "Rate limit reached")))
  /\ fst (Llm.sendToOpenAI (Cases.replying Cases.unprintable_error) []
            Scenario.openai_config [])
     = Err TypeError.
Proof.
  split.
  - destruct (transports_reject_on_error_status
                (Cases.replying Cases.rate_limited) Cases.rate_limited
                (fun _ _ => eq_refl) eq_refl Scenario.openai_config [])
      as (_ & _ & _ & H).
    destruct (H (VObj [(lit "error",
                        VObj [(lit "message",
                               VStr (lit "Rate limit reached"))])])
                (VObj [(lit "message", VStr (lit "Rate limit reached"))])
                eq_refl eq_refl) as (H1 & _).
    rewrite H1. reflexivity.
  - destruct (transports_reject_on_error_status
                (Cases.replying Cases.unprintable_error)
                Cases.unprintable_error
                (fun _ _ => eq_refl) eq_refl Scenario.openai_config [])
      as (_ & _ & _ & H).
    destruct (H (VObj [(lit "error",
                        VObj [(lit "message", Cases.odd_message)])])
                (VObj [(lit "message", Cases.odd_message)])
                eq_refl eq_refl) as (H1 & _).
    rewrite H1. reflexivity.
Defined.

Lemma gemini_without_candidates_witness :
  Llm.sendToGemini (Cases.replying Cases.no_candidates) (lit "hello")
    Cases.gemini_config []
  = (Err (Error (lit "Gemini API returned no response candidates") (VStr [])),
     [Llm.gemini_request (lit "hello") Cases.gemini_config]).
Proof.
  apply (gemini_without_candidates (Cases.replying Cases.no_candidates)
           Cases.no_candidates
           (VObj [(lit "candidates", VArr [])]) (VArr []));
    try reflexivity.
  right. reflexivity.
Defined.

Lemma chunk_flow_outcomes_witness :
  (exists chunks net',
      WithConfig.generateChunksFromStory Scenario.print_integer
        (Scenario.answering Scenario.two_chunks)
        Scenario.ai_story Scenario.openai_config [] = (Ok chunks, net')
      /\ List.length chunks = 2%nat)
  /\ (exists net',
      WithConfig.generateChunksFromStory Scenario.print_integer
        (Scenario.answering Cases.null_entry)
        Scenario.ai_story Scenario.openai_config [] = (Err TypeError, net')).
Proof.
  split.
  - destruct (chunk_flow_outcomes Scenario.print_integer
                (Scenario.answering Scenario.two_chunks)
                Scenario.ai_story Scenario.openai_config []
                (snd (WithConfig.generateChunksFromStory Scenario.print_integer
                        (Scenario.answering Scenario.two_chunks)
                        Scenario.ai_story Scenario.openai_config [])))
      as [_ H].
    specialize (H Scenario.two_chunks). 
    assert (P : parseJSON Scenario.two_chunks
                = Ok (VArr [VObj [(lit "id", VNum 1 0);
                                  (lit "title", VStr (lit "A"));
                                  (lit "content", VStr (lit "a"))];
                            VObj [(lit "id", VNum 2 0);
                                  (lit "title", VStr (lit "B"));
                                  (lit "content", VStr (lit "b"))]]))
      by (vm_compute; reflexivity).
    rewrite P in H. cbn [existsb orb] in H.
    destruct H as (chunks & E & L); [vm_compute; reflexivity|].
    exists chunks. eexists. split; [exact E | exact L].
  - destruct (chunk_flow_outcomes Scenario.print_integer
                (Scenario.answering Cases.null_entry)
                Scenario.ai_story Scenario.openai_config []
                (snd (WithConfig.generateChunksFromStory Scenario.print_integer
                        (Scenario.answering Cases.null_entry)
                        Scenario.ai_story Scenario.openai_config [])))
      as [_ H].
    specialize (H Cases.null_entry).
    assert (P : parseJSON Cases.null_entry
                = Ok (VArr [VObj [(lit "id", VNum 1 0);
                                  (lit "title", VStr (lit "A"))];
                            VNull]))
      by (vm_compute; reflexivity).
    rewrite P in H. cbn [existsb orb] in H.
    eexists. apply H. vm_compute. reflexivity.
Defined.

Lemma chunk_flow_rejects_bad_relatedUrls_witness :
  WithConfig.generateChunksFromStory Scenario.print_integer
    (Scenario.answering Scenario.two_chunks)
    Cases.story_with_text_urls Scenario.openai_config []
  = (Err TypeError, []).
Proof.
  apply (chunk_flow_rejects_bad_relatedUrls Scenario.print_integer
           (Scenario.answering Scenario.two_chunks)
           Cases.story_with_text_urls Scenario.openai_config []).
  - reflexivity.
  - intros items. discriminate.
Defined.

Lemma chat_openai_messages_witness :
  exists history,
    snd (Prompts.chat Scenario.print_integer Scenario.offline
           Scenario.openai_config (lit "hello") Cases.chat_context [])
    = [Llm.openai_request
         [ {| Llm.role := Llm.system;
              Llm.content :=
                Prompts.system_prompt Scenario.print_integer Cases.chat_context |};
           {| Llm.role := Llm.user;
              Llm.content :=
                Prompts.system_prompt Scenario.print_integer Cases.chat_context
                ++ [nl; nl] ++ history ++ lit "User: " ++ lit "hello"
                ++ [nl; nl] ++ lit "Assistant:" |} ]
         Scenario.openai_config]
    /\ history = [].
Proof.
  destruct (chat_openai_messages Scenario.print_integer Scenario.offline
              Scenario.openai_config (lit "hello") Cases.chat_context []
              eq_refl eq_refl) as (history & E & H).
  exists history. split; [exact E | apply H; reflexivity].
Defined.

Lemma handleSend_does_nothing_witness :
  Chatbot.handleSend Scenario.print_integer Scenario.no_table Scenario.offline
    (Ok (Some Scenario.openai_config)) Cases.blank_chat []
  = (Cases.blank_chat, []).
Proof.
  apply (handleSend_does_nothing Scenario.print_integer Scenario.no_table
           Scenario.offline Cases.blank_chat).
  left. reflexivity.
Defined.

Lemma handleSend_always_answers_witness :
  exists botText issued,
    Chatbot.handleSend Scenario.print_integer Scenario.no_table Scenario.offline
      (Ok (Some Scenario.openai_config)) ChatScenario.asking_why []
    = ({| Chatbot.messages :=
            [ {| Message.id := 1;
                 Message.text := VStr Scenario.why_message;
                 Message.sender := Message.user |};
              {| Message.id := 2;
                 Message.text := botText;
                 Message.sender := Message.bot |} ];
          Chatbot.input := [];
          Chatbot.isTyping := false;
          Chatbot.story := Some (Scenario.story_titled (lit "AI Revolution"));
          Chatbot.chunks := [] |}, issued)
    /\ botText = VStr Chatbot.apology.
Proof.
  destruct (handleSend_always_answers Scenario.print_integer Scenario.no_table
              Scenario.offline ChatScenario.asking_why
              (Scenario.story_titled (lit "AI Revolution"))
              (Ok (Some Scenario.openai_config)) [])
    as (botText & issued & E & _ & A).
  - discriminate.
  - reflexivity.
  - reflexivity.
  - exists botText, issued. split; [exact E|].
    apply (A (Rejected (lit "Failed to fetch"))). reflexivity.
Defined.

Lemma handleSend_keeps_ids_consecutive_witness :
  map Message.id
    (Chatbot.messages
       (fst (Chatbot.handleSend Scenario.print_integer Scenario.no_table
               Scenario.offline (Ok None) ChatScenario.asking_why [])))
  = [1%nat; 2%nat].
Proof.
  rewrite (handleSend_keeps_ids_consecutive Scenario.print_integer
             Scenario.no_table Scenario.offline ChatScenario.asking_why
             (Ok None) [] eq_refl).
  reflexivity.
Defined.

Lemma handleAddUrl_adds_witness :
  UrlForm.urls (fst (UrlForm.handleAddUrl Cases.url_form))
  = [lit "https://a.example.com"; lit "https://b.example.com"]
  /\ NoDup (UrlForm.urls (fst (UrlForm.handleAddUrl Cases.url_form))).
Proof.
  split; [vm_compute; reflexivity|].
  assert (H : UrlForm.parse_urls (UrlForm.urlInput Cases.url_form) <> [])
    by (vm_compute; discriminate).
  destruct (handleAddUrl_adds Cases.url_form H) as (D & _). exact D.
Defined.

Lemma handleAddUrl_extends_witness :
  exists added,
    UrlForm.urls (fst (UrlForm.handleAddUrl Cases.url_form))
    = UrlForm.urls Cases.url_form ++ added.
Proof.
  assert (D : NoDup (UrlForm.urls Cases.url_form))
    by (repeat constructor; intros []).
  destruct (handleAddUrl_extends Cases.url_form D) as (E & _). exact E.
Defined.

Lemma handleRemoveUrl_undoes_handleAddUrl_witness :
  UrlForm.urls
    (fst (UrlForm.handleRemoveUrl (lit "https://b.example.com")
            (fst (UrlForm.handleAddUrl Cases.url_form_single))))
  = UrlForm.urls Cases.url_form_single.
Proof.
  assert (D : NoDup (UrlForm.urls Cases.url_form_single))
    by (repeat constructor; intros []).
  assert (I : ~ In (lit "https://b.example.com")
                (UrlForm.urls Cases.url_form_single))
    by (intros [H | []]; vm_compute in H; discriminate H).
  assert (N : lit "https://b.example.com" <> [])
    by (vm_compute; discriminate).
  assert (T : trim (lit "https://b.example.com") = lit "https://b.example.com")
    by (vm_compute; reflexivity).
  assert (S : forallb (fun c => negb (UrlForm.is_separator c))
                (lit "https://b.example.com") = true)
    by (vm_compute; reflexivity).
  assert (H : startsWith (lit "https://b.example.com") (lit "http") = true)
    by (vm_compute; reflexivity).
  destruct (handleRemoveUrl_undoes_handleAddUrl Cases.url_form_single
              (lit "https://b.example.com") D I eq_refl N H T S) as [_ E].
  exact E.
Defined.

Lemma handleSaveConfig_stores_trimmed_key_witness :
  exists config,
    snd (Settings.handleSaveConfig Cases.default_models Cases.config_form)
    = [Store (SetApiConfig config); SetTimeout 3000]
    /\ Llm.apiKey config = lit "sk-test"
    /\ Llm.model config = Some (lit "gpt-4o-mini").
Proof.
  destruct (handleSaveConfig_stores_trimmed_key Cases.default_models
              Cases.config_form) as [_ H].
  destruct H as (config & E & K & _ & _ & _ & M); [discriminate|].
  exists config. split; [exact E|]. split; [rewrite K | rewrite M]; reflexivity.
Defined.

Lemma settings_generation_all_or_nothing_witness :
  snd (fst (Settings.handleGenerateStories Scenario.print_integer
              Scenario.offline (Some Scenario.openai_config)
              Cases.generation []))
  = []
  /\ Settings.generationError
       (fst (fst (Settings.handleGenerateStories Scenario.print_integer
                    Scenario.offline (Some Scenario.openai_config)
                    Cases.generation [])))
     = Caught (Rejected (lit "Failed to fetch"))
         (lit "Failed to generate stories").
Proof.
  destruct (settings_generation_all_or_nothing Scenario.print_integer
              Scenario.offline (Some Scenario.openai_config)
              Cases.generation []) as (_ & _ & H).
  apply (H Scenario.openai_config eq_refl). discriminate.
Defined.

Lemma history_generation_all_or_nothing_witness :
  snd (fst (AddHistory.handleGenerateStories unit
              (fun _ => Scenario.llm_answering Scenario.three_stories)
              Scenario.lookup_down Scenario.fallback_url Cases.generation tt))
  = [Store (SetStories
              (match fst (WithImages.generateStoriesFromHistory unit
                            (fun _ => Scenario.llm_answering Scenario.three_stories)
                            Scenario.lookup_down Scenario.fallback_url
                            [lit "https://a.example.com/x"] tt) with
               | Ok stories => stories
               | Err _ => []
               end));
     Store (SetHasStarted true); Navigate (lit "/stories")].
Proof.
  destruct (history_generation_all_or_nothing unit
              (fun _ => Scenario.llm_answering Scenario.three_stories)
              Scenario.lookup_down Scenario.fallback_url Cases.generation tt)
    as [_ H].
  assert (N : Settings.urls Cases.generation <> []) by discriminate.
  specialize (H N).
  destruct (WithImages.generateStoriesFromHistory unit _ _ _
              (Settings.urls Cases.generation) tt) as [[stories|e] w'] eqn:F;
    [|vm_compute in F; discriminate F].
  rewrite H. change (Settings.urls Cases.generation)
    with [lit "https://a.example.com/x"] in F. rewrite F. reflexivity.
Defined.

Lemma story_images_are_distinct_witness :
  exists stories net',
    WithConfigStories.generateStoriesFromHistory Scenario.print_integer
      (Scenario.answering Scenario.three_stories)
      [lit "https://a.example.com/x"] Scenario.openai_config []
    = (Ok stories, net')
    /\ List.length stories = 3%nat
    /\ NoDup (map Story.image stories).
Proof.
  eexists. eexists. split; [vm_compute; reflexivity|].
  split; [reflexivity|].
  eapply (story_images_are_distinct Scenario.print_integer
            (Scenario.answering Scenario.three_stories)
            [lit "https://a.example.com/x"] Scenario.openai_config [] _ _).
  vm_compute. reflexivity.
Defined.

Lemma story_flow_rejects_unpaired_surrogate_witness :
  exists e,
    WithConfigStories.generateStoriesFromHistory Scenario.print_integer
      (Scenario.answering Cases.surrogate_story)
      [lit "https://a.example.com/x"] Scenario.openai_config []
    = (Err e,
       snd (WithConfigStories.generateStories
              (Scenario.answering Cases.surrogate_story)
              Scenario.openai_config [lit "https://a.example.com/x"] [])).
Proof.
  apply (story_flow_rejects_unpaired_surrogate Scenario.print_integer
           (Scenario.answering Cases.surrogate_story)
           [lit "https://a.example.com/x"] Scenario.openai_config []
           (snd (WithConfigStories.generateStories
                   (Scenario.answering Cases.surrogate_story)
                   Scenario.openai_config [lit "https://a.example.com/x"] []))
           Cases.surrogate_story
           [VObj [(lit "id", VNum 1 0); (lit "title", VStr (lit "A"));
                  (lit "description", VStr (lit "a"));
                  (lit "image", VStr [55357])]]
           (VObj [(lit "id", VNum 1 0); (lit "title", VStr (lit "A"));
                  (lit "description", VStr (lit "a"));
                  (lit "image", VStr [55357])])
           [55357]).
  - vm_compute. reflexivity.
  - vm_compute. reflexivity.
  - left. reflexivity.
  - vm_compute. reflexivity.
  - vm_compute. reflexivity.
Defined.

Lemma story_without_image_member_witness :
  WithConfigStories.story_of_item Scenario.print_integer 2
    (VObj [(lit "id", VNum 3 0); (lit "title", VStr (lit "C"))])
  = Ok {| Story.id := VNum 3 0;
          Story.title := VStr (lit "C");
          Story.description := VUndefined;
          Story.image :=
            VStr (lit "https://source.unsplash.com/800x600/?undefined&sig=undefined-2");
          Story.imageKeywords := VUndefined;
          Story.relatedUrls := VArr [] |}
  /\ Story.image
       {| Story.id := VNum 3 0;
          Story.title := VStr (lit "C");
          Story.description := VUndefined;
          Story.image :=
            VStr (lit "https://source.unsplash.com/800x600/?undefined&sig=undefined-2");
          Story.imageKeywords := VUndefined;
          Story.relatedUrls := VArr [] |}
     = VStr (lit "https://source.unsplash.com/800x600/?undefined&sig=undefined-"
             ++ of_nat 2).
Proof.
  split; [reflexivity|].
  apply (story_without_image_member Scenario.print_integer 2
           (VObj [(lit "id", VNum 3 0); (lit "title", VStr (lit "C"))]));
    reflexivity.
Defined.

Lemma images_come_from_lookup_or_fallback_witness :
  exists stories w',
    WithImages.generateStoriesFromHistory unit
      (fun _ => Scenario.llm_answering Scenario.three_stories)
      Scenario.lookup_down Scenario.fallback_url [] tt = (Ok stories, w')
    /\ Forall (fun s => exists u w1 w2,
                 Story.image s = VStr u
                 /\ (Scenario.lookup_down (Story.imageKeywords s) w1 = (Ok u, w2)
                     \/ (exists e,
                           Scenario.lookup_down (Story.imageKeywords s) w1
                           = (Err e, w2)
                           /\ Scenario.fallback_url (Story.imageKeywords s)
                              = Ok u)))
         stories.
Proof.
  eexists. eexists. split; [vm_compute; reflexivity|].
  eapply (proj1 (images_come_from_lookup_or_fallback unit
                   (fun _ => Scenario.llm_answering Scenario.three_stories)
                   (fun _ _ _ _ => Scenario.llm_answering Scenario.two_chunks)
                   Scenario.lookup_down Scenario.fallback_url) [] tt).
  vm_compute. reflexivity.
Defined.

Lemma null_record_rejects_the_batch_witness :
  exists e w',
    WithImages.generateStoriesFromHistory unit
      (fun _ => Scenario.llm_answering Cases.null_entry)
      Scenario.lookup_down Scenario.fallback_url [] tt = (Err e, w').
Proof.
  eapply (proj1 (null_record_rejects_the_batch unit
                   (fun _ => Scenario.llm_answering Cases.null_entry)
                   (fun _ _ _ _ => Scenario.llm_answering Cases.null_entry)
                   Scenario.lookup_down Scenario.fallback_url)
            [] tt Cases.null_entry tt).
  - reflexivity.
  - vm_compute. reflexivity.
  - right. left. reflexivity.
Defined.


Lemma mock_chunks_with_fallback_images_witness :
  exists chunks,
    WithImagesMock.generateMockChunks Scenario.print_integer
      Scenario.fallback_url Scenario.ai_story = Ok chunks
    /\ map Chunk.id chunks = [VNum 1 0; VNum 2 0; VNum 3 0; VNum 4 0; VNum 5 0].
Proof.
  destruct (mock_chunks_with_fallback_images Scenario.print_integer
              Scenario.fallback_url Scenario.ai_story)
    as (chunks & E & I & _).
  - intros k. eexists. reflexivity.
  - reflexivity.
  - exists chunks. split; assumption.
Defined.

Lemma story_click_without_config_witness :
  snd (StoriesPage.handleStoryClick Scenario.print_integer Scenario.offline
         (Ok None) Scenario.ai_story
         {| StoriesPage.selectedStory := None;
            StoriesPage.isGeneratingChunks := false;
            StoriesPage.error := Text [] |} [])
  = []
  /\ map Chunk.id
       (WithConfigStories.generateMockChunks Scenario.print_integer
          Scenario.ai_story)
     = [VNum 1 0; VNum 2 0; VNum 3 0; VNum 4 0; VNum 5 0].
Proof.
  destruct (story_click_without_config Scenario.print_integer Scenario.offline
              Scenario.ai_story
              {| StoriesPage.selectedStory := None;
                 StoriesPage.isGeneratingChunks := false;
                 StoriesPage.error := Text [] |} [] eq_refl)
    as (E & I & _).
  rewrite E. split; [reflexivity | exact I].
Defined.
